(** * honk-web: the local data layer of app.js

    A shallow embedding of the data layer of [app.js] (plate votes kept in an
    in-memory SQLite database through sql.js, snapshotted into IndexedDB
    through idb-keyval), and the properties of its specification.

    Third-party collaborators are modelled by their contract only:
    - the SQL engine, by the meaning of the SQL statements the application
      sends to it, on tables kept as row lists in rowid order;
    - the engine's image format ([db.export()], [new SQL.Database(bytes)]),
      by the interface [Engine];
    - IndexedDB, by a finite map from keys to stored values;
    - [nowIso()] and [uuid()], by the values they return, handed to each
      operation in an [Ambient] record.

    Text: the strings of the store are the UTF-8 bytes that sql.js hands to
    the engine.  The store and the theorems on it are stated on [normalize],
    which is the normalization of the page on ASCII text ([trim] removes the
    six ASCII white-space characters of ECMAScript, [toUpperCase] maps [a-z]
    to [A-Z]) and leaves the bytes of a normalized text as they are.  The
    normalization of the page on all text, over code points and with the
    upper-case mapping of Unicode, is in the module [Unicode], with
    [Unicode.addVote] on top of it.  A text column is read back up to its
    first NUL.

    Numbers: integers of the engine are modelled in [Z].  A value is bound
    as an integer when it is a 32-bit integer; the lemma
    [reachable_score_bound] shows that a score never exceeds the number of
    recorded votes in absolute value, so the 64-bit range of the engine and
    the safe integers of JavaScript are not left by any history shorter than
    [2^53] votes.

    Images: [new SQL.Database(bytes)] never throws; a handle on bytes that
    the engine cannot read is kept apart from the pages that hold a
    database ([Opened], [DeadWorld]). *)

From Stdlib Require Import ZArith Ascii String Lia.
From Stdlib.Strings Require Import Byte.
From Stdlib Require Import HexadecimalString.
From stdpp Require Import base numbers list strings gmap sorting.

Local Open Scope Z_scope.

(** ** JavaScript string primitives used by the data layer, on ASCII text *)

Module Js.

(** ECMAScript [WhiteSpace] and [LineTerminator] code points below 128. *)
Definition isWhiteSpace (c : ascii) : bool :=
  match c with
  | "009" | "010" | "011" | "012" | "013" | " " => true
  | _ => false
  end%char.

Definition isLower (c : ascii) : bool :=
  ((97 <=? Ascii.nat_of_ascii c) && (Ascii.nat_of_ascii c <=? 122))%nat.

Definition isUpper (c : ascii) : bool :=
  ((65 <=? Ascii.nat_of_ascii c) && (Ascii.nat_of_ascii c <=? 90))%nat.

Definition upperChar (c : ascii) : ascii :=
  if isLower c then Ascii.ascii_of_nat (Ascii.nat_of_ascii c - 32) else c.

(** [String.prototype.toUpperCase]. *)
Fixpoint toUpperCase (s : string) : string :=
  match s with
  | EmptyString => EmptyString
  | String c r => String (upperChar c) (toUpperCase r)
  end.

(** [String.prototype.trimStart]. *)
Fixpoint trimStart (s : string) : string :=
  match s with
  | EmptyString => EmptyString
  | String c r => if isWhiteSpace c then trimStart r else s
  end.

(** [String.prototype.trimEnd]: a character is dropped when it is white
    space and nothing is left of what follows it. *)
Fixpoint trimEnd (s : string) : string :=
  match s with
  | EmptyString => EmptyString
  | String c r =>
      match trimEnd r with
      | EmptyString => if isWhiteSpace c then EmptyString else String c EmptyString
      | r' => String c r'
      end
  end.

(** [String.prototype.trim]. *)
Definition trim (s : string) : string := trimEnd (trimStart s).

(** Truthiness of a string: [!s] holds for the empty string only. *)
Definition truthy (s : string) : bool :=
  match s with EmptyString => false | String _ _ => true end.

(** A string made of white space only. *)
Fixpoint allWhiteSpace (s : string) : bool :=
  match s with
  | EmptyString => true
  | String c r => isWhiteSpace c && allWhiteSpace r
  end.

(** Two characters that are equal, or the two cases of one letter. *)
Definition sameLetter (a b : ascii) : bool :=
  if Ascii.eqb a b then true
  else (isLower a && isUpper b && (Ascii.nat_of_ascii a =? Ascii.nat_of_ascii b + 32)%nat)
       || (isUpper a && isLower b && (Ascii.nat_of_ascii b =? Ascii.nat_of_ascii a + 32)%nat).

(** Two strings that differ in letter case only. *)
Fixpoint eqIgnoreCase (s t : string) : bool :=
  match s, t with
  | EmptyString, EmptyString => true
  | String a s', String b t' => sameLetter a b && eqIgnoreCase s' t'
  | _, _ => false
  end.

(** A string of ASCII characters (codes below 128). *)
Fixpoint isAscii (s : string) : bool :=
  match s with
  | EmptyString => true
  | String c r => (Ascii.nat_of_ascii c <? 128)%nat && isAscii r
  end.

(** A string that does not begin with white space. *)
Definition headed (s : string) : Prop :=
  match s with
  | EmptyString => True
  | String c _ => isWhiteSpace c = false
  end.

End Js.

(** [plate.trim().toUpperCase()] on the bytes of the store: the normal form
    of an ASCII plate text, and the identity on the UTF-8 bytes of a text
    that the page has normalized.  The normalization of the page on all
    text is [Unicode.normalize] below. *)
Definition normalize (plate : string) : string := Js.toUpperCase (Js.trim plate).


(** ** The relational store

    A table is the list of its rows in rowid (insertion) order; [None] is a
    table that does not exist. *)

Record PlateRow := mkPlate {
  p_plate_text : string;   (* text primary key *)
  p_score : Z;             (* integer not null default 0 *)
  p_updated_at : string    (* text not null *)
}.

Record VoteRow := mkVote {
  v_id : string;           (* text primary key *)
  v_plate_text : string;   (* text not null *)
  v_value : Z;             (* integer not null check (value in (-1,1)) *)
  v_created_at : string    (* text not null *)
}.

Record Database := mkDb {
  plates : option (list PlateRow);
  votes : option (list VoteRow);
  idx_votes_plate : bool   (* index idx_votes_plate on votes(plate_text) *)
}.

#[global] Instance PlateRow_eq_dec : EqDecision PlateRow.
Proof. solve_decision. Defined.

#[global] Instance VoteRow_eq_dec : EqDecision VoteRow.
Proof. solve_decision. Defined.

#[global] Instance Database_eq_dec : EqDecision Database.
Proof. solve_decision. Defined.

(** What a statement or the application can throw. *)
Inductive Error :=
| PlateRequired                  (* new Error("Plate required") *)
| NoSuchTable (table : string)   (* no such table *)
| TableExists (table : string)   (* table already exists *)
| CheckFailed (table : string)   (* CHECK constraint failed *)
| UniqueFailed (column : string) (* UNIQUE constraint failed *)
| NotADatabase.                  (* file is not a database *)

#[global] Instance Error_eq_dec : EqDecision Error.
Proof. solve_decision. Defined.

(** The error classes of the specification. *)
Definition InvalidInput (e : Error) : Prop := e = PlateRequired.

Definition ConstraintViolation (e : Error) : Prop :=
  match e with CheckFailed _ | UniqueFailed _ => True | _ => False end.

Definition CorruptImage (e : Error) : Prop := e = NotADatabase.

Inductive result (A : Type) :=
| Ok (a : A)
| Throw (e : Error).
Arguments Ok {A} a.
Arguments Throw {A} e.

(** Code that runs against the global handle [db]: statements change the
    database in place, and what was changed before an exception stays
    changed (sql.js runs every statement in autocommit mode). *)
Definition Sql (A : Type) : Type := Database -> result A * Database.

Definition ret {A} (a : A) : Sql A := fun d => (Ok a, d).

Definition throw {A} (e : Error) : Sql A := fun d => (Throw e, d).

Definition bind {A B} (m : Sql A) (k : A -> Sql B) : Sql B :=
  fun d => match m d with
           | (Ok a, d') => k a d'
           | (Throw e, d') => (Throw e, d')
           end.

Notation "'let*' x ':=' m 'in' k" := (bind m (fun x => k))
  (at level 10, x name, m at level 100, k at level 200).
Notation "m ';;' k" := (bind m (fun _ => k))
  (at level 100, k at level 200, right associativity).

(** *** The statements of the application *)

Definition plate_keys (rows : list PlateRow) : list string := p_plate_text <$> rows.

Definition vote_ids (rows : list VoteRow) : list string := v_id <$> rows.

(** [select score from plates where plate_text = $p], stepped once: is there
    a row? *)
Definition select_plate_step (p : string) : Sql bool := fun d =>
  match plates d with
  | None => (Throw (NoSuchTable "plates"), d)
  | Some rows => (Ok (bool_decide (p ∈ plate_keys rows)), d)
  end.

(** [insert into plates (plate_text, score, updated_at) values ($p, 0, $t)]. *)
Definition insert_plate (p t : string) : Sql unit := fun d =>
  match plates d with
  | None => (Throw (NoSuchTable "plates"), d)
  | Some rows =>
      if bool_decide (p ∈ plate_keys rows)
      then (Throw (UniqueFailed "plates.plate_text"), d)
      else (Ok tt, mkDb (Some (rows ++ [mkPlate p 0 t])) (votes d) (idx_votes_plate d))
  end.

Definition bump (p : string) (v : Z) (t : string) (r : PlateRow) : PlateRow :=
  if bool_decide (p_plate_text r = p) then mkPlate (p_plate_text r) (p_score r + v) t else r.

(** The numbers that sql.js binds as integers: [num === (num | 0)], the
    32-bit integers.  (Any other number is bound as a double.) *)
Definition bound_as_integer (v : Z) : Prop := -2 ^ 31 <= v < 2 ^ 31.

(** The integers of the engine. *)
Definition int64 (z : Z) : Prop := -2 ^ 63 <= z < 2 ^ 63.

(** [update plates set score = score + $v, updated_at = $t where plate_text = $p].
    The sum is the one of the engine for a value bound as an integer and a
    result within its 64-bit integers; the votes of the page are [+1] and
    [-1], and scores stay within the number of votes. *)
Definition update_score (v : Z) (t p : string) : Sql unit := fun d =>
  match plates d with
  | None => (Throw (NoSuchTable "plates"), d)
  | Some rows => (Ok tt, mkDb (Some (bump p v t <$> rows)) (votes d) (idx_votes_plate d))
  end.

(** The column constraint [check (value in (-1,1))]. *)
Definition value_check (v : Z) : bool := (v =? -1) || (v =? 1).

(** [insert into votes (id, plate_text, value, created_at) values ($id, $p, $v, $t)].
    The engine evaluates the CHECK constraint before the uniqueness of the
    primary key. *)
Definition insert_vote (i p : string) (v : Z) (t : string) : Sql unit := fun d =>
  match votes d with
  | None => (Throw (NoSuchTable "votes"), d)
  | Some rows =>
      if negb (value_check v) then (Throw (CheckFailed "votes"), d)
      else if bool_decide (i ∈ vote_ids rows) then (Throw (UniqueFailed "votes.id"), d)
      else (Ok tt, mkDb (plates d) (Some (rows ++ [mkVote i p v t])) (idx_votes_plate d))
  end.

(** Stable insertion of a row in front of the first row that [before] does
    not put ahead of it. *)
Fixpoint insert_by (before : Z -> Z -> bool) (r : PlateRow) (l : list PlateRow) : list PlateRow :=
  match l with
  | [] => [r]
  | x :: l' => if before (p_score x) (p_score r) then x :: insert_by before r l' else r :: l
  end.

(** [order by score]: rows of equal score stay in scan order (the statement
    names no second key). *)
Definition order_by (before : Z -> Z -> bool) (l : list PlateRow) : list PlateRow :=
  foldr (insert_by before) [] l.

(** A text column as [stmt.getAsObject()] returns it: the engine hands the
    text over as a C string, which ends at the first NUL. *)
Fixpoint UTF8ToString (s : string) : string :=
  match s with
  | EmptyString => EmptyString
  | String c r => if Ascii.eqb c "000" then EmptyString else String c (UTF8ToString r)
  end.

(** A text without NUL. *)
Fixpoint nulFree (s : string) : bool :=
  match s with
  | EmptyString => true
  | String c r => negb (Ascii.eqb c "000") && nulFree r
  end.

(** The integers that a JavaScript number holds exactly. *)
Definition safe_integer (z : Z) : Prop := - 2 ^ 53 <= z <= 2 ^ 53.

(** A row of the result as [stmt.getAsObject()] returns it: the text up to
    its first NUL, and the score as a JavaScript number, which is the
    integer itself when it is a safe integer. *)
Definition project (r : PlateRow) : string * Z := (UTF8ToString (p_plate_text r), p_score r).

(** [select plate_text, score from plates where score > 0 order by score desc limit 50]. *)
Definition select_best : Sql (list (string * Z)) := fun d =>
  match plates d with
  | None => (Throw (NoSuchTable "plates"), d)
  | Some rows =>
      (Ok (project <$> take 50 (order_by Z.gtb (filter (fun r => 0 < p_score r) rows))), d)
  end.

(** [select plate_text, score from plates where score < 0 order by score asc limit 50]. *)
Definition select_worst : Sql (list (string * Z)) := fun d =>
  match plates d with
  | None => (Throw (NoSuchTable "plates"), d)
  | Some rows =>
      (Ok (project <$> take 50 (order_by Z.ltb (filter (fun r => p_score r < 0) rows))), d)
  end.

(** [drop table if exists votes] (its index goes with it). *)
Definition drop_votes : Sql unit := fun d => (Ok tt, mkDb (plates d) None false).

(** [drop table if exists plates]. *)
Definition drop_plates : Sql unit := fun d => (Ok tt, mkDb None (votes d) (idx_votes_plate d)).

(** [create table plates (...)], with or without [if not exists]. *)
Definition create_plates (if_not_exists : bool) : Sql unit := fun d =>
  match plates d with
  | Some _ => if if_not_exists then (Ok tt, d) else (Throw (TableExists "plates"), d)
  | None => (Ok tt, mkDb (Some []) (votes d) (idx_votes_plate d))
  end.

(** [create table votes (...)], with or without [if not exists]. *)
Definition create_votes (if_not_exists : bool) : Sql unit := fun d =>
  match votes d with
  | Some _ => if if_not_exists then (Ok tt, d) else (Throw (TableExists "votes"), d)
  | None => (Ok tt, mkDb (plates d) (Some []) (idx_votes_plate d))
  end.

(** [create index if not exists idx_votes_plate on votes(plate_text)]. *)
Definition create_index : Sql unit := fun d =>
  match votes d with
  | None => (Throw (NoSuchTable "main.votes"), d)
  | Some _ => (Ok tt, mkDb (plates d) (votes d) true)
  end.

(** [new SQL.Database()]: no table. *)
Definition new_Database : Database := mkDb None None false.

(** ** The data layer of app.js *)

(** What [nowIso()] and [uuid()] return during one call of [addVote]. *)
Record Ambient := mkAmbient {
  now_ensure : string;   (* nowIso() of the insert in ensurePlateRow *)
  now_update : string;   (* nowIso() of the update *)
  now_insert : string;   (* nowIso() of the insert into votes *)
  uuid : string          (* uuid() *)
}.

(** [ensurePlateRow(txPlate)]. *)
Definition ensurePlateRow (txPlate : string) (a : Ambient) : Sql unit :=
  let* exists_ := select_plate_step txPlate in
  if negb exists_ then insert_plate txPlate (now_ensure a) else ret tt.

(** [addVote(plate, value)]. *)
Definition addVote (plate : string) (value : Z) (a : Ambient) : Sql unit :=
  let txPlate := normalize plate in
  if negb (Js.truthy txPlate) then throw PlateRequired
  else
    ensurePlateRow txPlate a ;;
    update_score value (now_update a) txPlate ;;
    insert_vote (uuid a) txPlate value (now_insert a).

Record Leaderboard := mkBoard {
  best : list (string * Z);
  worst : list (string * Z)
}.

(** [queryLeaderboard()]. *)
Definition queryLeaderboard : Sql Leaderboard :=
  let* b := select_best in
  let* w := select_worst in
  ret (mkBoard b w).

(** The script that [initDb] runs on a new database. *)
Definition boot_schema : Sql unit :=
  create_plates true ;; create_votes true ;; create_index.

(** The two scripts that the reset button runs. *)
Definition reset_drop : Sql unit := drop_votes ;; drop_plates.

Definition reset_create : Sql unit :=
  create_plates false ;; create_votes false ;; create_index.

(** ** Persistence *)

(** The image format of the engine: [db.export()] and [new SQL.Database(data)].
    [import data] is the database that the statements of a handle opened on
    [data] read; it is [None] when they read none, every statement then
    failing with "file is not a database". *)
Class Engine := {
  export : Database -> list byte;
  import : list byte -> option Database
}.

(** The contract of the engine: an exported image opens as the database it
    was exported from. *)
Definition Faithful (E : Engine) : Prop :=
  forall d : Database, import (export d) = Some d.

(** The values IndexedDB can hold under a key, as far as [initDb] and
    [getUser] tell them apart. *)
Inductive JsValue :=
| JUint8Array (bytes : list byte)   (* instanceof Uint8Array *)
| JBuffered (bytes : list byte)     (* another object with a truthy [buffer]:
                                       [bytes] is [new Uint8Array(saved)] *)
| JString (s : string)
| JOther (truthy : bool).           (* any other value, falsy or truthy *)

#[global] Instance byte_eq_dec : EqDecision byte := Byte.byte_eq_dec.

#[global] Instance JsValue_eq_dec : EqDecision JsValue.
Proof. solve_decision. Defined.

Definition js_truthy (v : JsValue) : bool :=
  match v with
  | JUint8Array _ | JBuffered _ => true
  | JString s => Js.truthy s
  | JOther b => b
  end.

(** A stored value that [initDb] hands to the engine. *)
Definition image_shaped (v : JsValue) : bool :=
  match v with
  | JUint8Array _ | JBuffered _ => true
  | _ => false
  end.

Definition DB_KEY : string := "honk_sqlite_v1".

Definition USER_KEY : string := "honk_user_v1".

(** The page: the global handle [db] and the IndexedDB store behind
    idb-keyval. *)
Record World := mkWorld {
  db : Database;
  idb : gmap string JsValue
}.

(** What a vote click shows. *)
Inductive Shown :=
| ConfirmMsg (text : Error)   (* confirmMsg.textContent *)
| Alert (plate : string).     (* alert(`Recorded ... for ${p}`) *)

(** The page whose handle is on an image that the engine cannot read:
    [new SQL.Database(data)] returns all the same (the engine opens the file
    lazily), and every statement prepared on the handle throws "file is not
    a database". *)
Record DeadWorld := mkDead {
  dead_image : list byte;
  dead_idb : gmap string JsValue
}.

(** What opening an image comes to. *)
Inductive Opened (L D : Type) :=
| Ready (l : L)         (* the handle reads a database *)
| Unreadable (d : D).   (* the handle reads nothing *)
Arguments Ready {L D} l.
Arguments Unreadable {L D} d.

Section Persistence.
Context {E : Engine}.

(** [persistDb()]. *)
Definition persistDb (w : World) : World :=
  let binary := export (db w) in
  mkWorld (db w) (<[DB_KEY := JUint8Array binary]> (idb w)).

(** [new SQL.Database(data)]: the constructor does not throw, whatever the
    image. *)
Definition open_Database (data : list byte) (store : gmap string JsValue)
  : Opened World DeadWorld :=
  match import data with
  | Some d => Ready (mkWorld d store)
  | None => Unreadable (mkDead data store)
  end.

(** [initDb()], on the IndexedDB store found at boot. *)
Definition initDb (store : gmap string JsValue) : result (Opened World DeadWorld) :=
  match store !! DB_KEY with
  | Some (JUint8Array saved) => Ok (open_Database saved store)
  | Some (JBuffered saved) => Ok (open_Database saved store)
  | _ =>
      match boot_schema new_Database with
      | (Ok _, d) => Ok (Ready (persistDb (mkWorld d store)))
      | (Throw e, _) => Throw e
      end
  end.


(** The click handlers of [votePlus] ([delta = 1]) and [voteMinus]
    ([delta = -1]): what the page shows, and the page afterwards. *)

Definition vote_onclick (delta : Z) (input : string) (a : Ambient) (w : World) : Shown * World :=
  let p := normalize input in
  if negb (Js.truthy p) then (ConfirmMsg PlateRequired, w)
  else
    match addVote p delta a (db w) with
    | (Ok _, d) => (Alert p, persistDb (mkWorld d (idb w)))
    | (Throw e, d) => (ConfirmMsg e, mkWorld d (idb w))
    end.

Definition votePlus_onclick := vote_onclick 1.

Definition voteMinus_onclick := vote_onclick (-1).

(** [resetDbBtn.onclick]; [confirmed] is the answer to [confirm(...)]. *)
Definition resetDbBtn_onclick (confirmed : bool) (w : World) : result unit * World :=
  if negb confirmed then (Ok tt, w)
  else
    match (reset_drop ;; reset_create) (db w) with
    | (Ok _, d) => (Ok tt, persistDb (mkWorld d (idb w)))
    | (Throw e, d) => (Throw e, mkWorld d (idb w))
    end.

End Persistence.

(** ** The local profile store *)

(** [getUser()]: [None] is [null]. *)
Definition getUser (w : World) : option JsValue :=
  match idb w !! USER_KEY with
  | Some v => if js_truthy v then Some v else None
  | None => None
  end.

(** [setUser(name)]. *)
Definition setUser (name : string) (w : World) : World :=
  mkWorld (db w) (<[USER_KEY := JString name]> (idb w)).

(** [clearUser()]. *)
Definition clearUser (w : World) : World :=
  mkWorld (db w) (delete USER_KEY (idb w)).

(** ** Histories *)

(** The store that [initDb] builds when it finds no image. *)
Definition fresh_db : Database := (boot_schema new_Database).2.

Definition is_delta (v : Z) : Prop := v = 1 \/ v = -1.

Definition ids_of (d : Database) : list string := default [] (vote_ids <$> votes d).

(** The value of [uuid()] is new: no vote carries it yet. *)
Definition fresh_uuid (a : Ambient) (d : Database) : Prop := uuid a ∉ ids_of d.

(** The votes recorded since the last reset (or the first boot): the plate
    and the value of each call of [addVote] that returned. *)
Definition Log : Type := list (string * Z).

Definition logged (r : result unit) (entry : string * Z) (l : Log) : Log :=
  match r with
  | Ok _ => l ++ [entry]
  | Throw _ => l
  end.

(** [reachable d l]: the entry points of the data layer produce the store
    [d] from the first boot, and [l] is what was recorded since the last
    reset.  The entry points are votes of [+1] and [-1] (calls that throw
    included), leaderboard queries and resets. *)
Inductive reachable : Database -> Log -> Prop :=
| reach_boot : reachable fresh_db []
| reach_vote d l plate v a :
    reachable d l -> is_delta v -> fresh_uuid a d ->
    reachable (addVote plate v a d).2
              (logged (addVote plate v a d).1 (normalize plate, v) l)
| reach_query d l : reachable d l -> reachable (queryLeaderboard d).2 l
| reach_reset d l : reachable d l -> reachable ((reset_drop ;; reset_create) d).2 [].

(** The pages that the handlers produce from the first boot on an empty
    IndexedDB store: vote clicks, resets, profile changes, flushes on
    visibility loss, and reloads of the page. *)
Inductive page_reachable `{E : Engine} : World -> Prop :=
| page_boot w : initDb ∅ = Ok (Ready w) -> page_reachable w
| page_vote w delta input a :
    page_reachable w -> is_delta delta -> fresh_uuid a (db w) ->
    page_reachable (vote_onclick delta input a w).2
| page_reset w confirmed :
    page_reachable w -> page_reachable (resetDbBtn_onclick confirmed w).2
| page_flush w : page_reachable w -> page_reachable (persistDb w)
| page_setUser w name : page_reachable w -> page_reachable (setUser name w)
| page_clearUser w : page_reachable w -> page_reachable (clearUser w)
| page_reload w w' :
    page_reachable w -> initDb (idb w) = Ok (Ready w') -> page_reachable w'.

(** A sequence of votes on one plate. *)
Fixpoint addVotes (plate : string) (vs : list (Z * Ambient)) : Sql unit :=
  match vs with
  | [] => ret tt
  | (v, a) :: vs' => addVote plate v a ;; addVotes plate vs'
  end.

Definition sumZ (l : list Z) : Z := foldr Z.add 0 l.

(** [Plate(p).score]. *)
Definition score_of (p : string) (d : Database) : option Z :=
  rows ← plates d; p_score <$> head (filter (fun r => p_plate_text r = p) rows).

(** The sum of [value] over the votes of plate [p]. *)
Definition votes_sum (p : string) (rows : list VoteRow) : Z :=
  sumZ (v_value <$> filter (fun r => v_plate_text r = p) rows).

Definition plate_count (d : Database) : nat := default 0%nat (length <$> plates d).

Definition vote_count (d : Database) : nat := default 0%nat (length <$> votes d).

(** ** A reference engine

    One image format that meets the contract [Faithful], used to run the
    persistence code on concrete stores.  (The format of sql.js is the file
    format of SQLite; the application never looks inside an image.) *)

Module RefEngine.

Definition Decoder (A : Type) : Type := list byte -> option (A * list byte).

(** A decoder that reads back what the encoder wrote, and hands on the rest. *)
Definition reads {A} (enc : A -> list byte) (dec : Decoder A) : Prop :=
  forall x r, dec (enc x ++ r) = Some (x, r).

(** Natural numbers in unary: [n] bytes [01], then [00]. *)
Definition enc_nat (n : nat) : list byte := replicate n x01 ++ [x00].

Fixpoint dec_nat (bs : list byte) : option (nat * list byte) :=
  match bs with
  | x00 :: r => Some (0%nat, r)
  | x01 :: r => '(n, r') ← dec_nat r; Some (S n, r')
  | _ => None
  end.

(** Integers: a sign byte, then the absolute value. *)
Definition enc_Z (z : Z) : list byte :=
  (if z <? 0 then x01 else x00) :: enc_nat (Z.abs_nat z).

Definition dec_Z : Decoder Z := fun bs =>
  match bs with
  | x00 :: r => '(n, r') ← dec_nat r; Some (Z.of_nat n, r')
  | x01 :: r => '(n, r') ← dec_nat r; Some (- Z.of_nat n, r')
  | _ => None
  end.

(** Strings: the length, then the characters. *)
Definition enc_string (s : string) : list byte :=
  enc_nat (String.length s) ++ list_byte_of_string s.

Definition dec_string : Decoder string := fun bs =>
  '(n, r) ← dec_nat bs;
  if (n <=? length r)%nat then Some (string_of_list_byte (take n r), drop n r) else None.

Definition enc_bool (b : bool) : list byte := [if b then x01 else x00].

Definition dec_bool : Decoder bool := fun bs =>
  match bs with
  | x00 :: r => Some (false, r)
  | x01 :: r => Some (true, r)
  | _ => None
  end.

(** Rows: the number of rows, then the rows. *)
Definition enc_rows {A} (enc : A -> list byte) (l : list A) : list byte :=
  enc_nat (length l) ++ concat (enc <$> l).

Fixpoint dec_n {A} (dec : Decoder A) (n : nat) (bs : list byte) : option (list A * list byte) :=
  match n with
  | O => Some ([], bs)
  | S n' => '(x, r) ← dec bs; '(l, r') ← dec_n dec n' r; Some (x :: l, r')
  end.

Definition dec_rows {A} (dec : Decoder A) : Decoder (list A) := fun bs =>
  '(n, r) ← dec_nat bs; dec_n dec n r.

(** Tables: whether the table exists, then its rows. *)
Definition enc_table {A} (enc : A -> list byte) (t : option (list A)) : list byte :=
  match t with
  | None => [x00]
  | Some l => x01 :: enc_rows enc l
  end.

Definition dec_table {A} (dec : Decoder A) : Decoder (option (list A)) := fun bs =>
  match bs with
  | x00 :: r => Some (None, r)
  | x01 :: r => '(l, r') ← dec_rows dec r; Some (Some l, r')
  | _ => None
  end.

Definition enc_plate (r : PlateRow) : list byte :=
  enc_string (p_plate_text r) ++ enc_Z (p_score r) ++ enc_string (p_updated_at r).

Definition dec_plate : Decoder PlateRow := fun bs =>
  '(p, r1) ← dec_string bs; '(s, r2) ← dec_Z r1; '(t, r3) ← dec_string r2;
  Some (mkPlate p s t, r3).

Definition enc_vote (r : VoteRow) : list byte :=
  enc_string (v_id r) ++ enc_string (v_plate_text r) ++ enc_Z (v_value r)
  ++ enc_string (v_created_at r).

Definition dec_vote : Decoder VoteRow := fun bs =>
  '(i, r1) ← dec_string bs; '(p, r2) ← dec_string r1; '(v, r3) ← dec_Z r2;
  '(t, r4) ← dec_string r3;
  Some (mkVote i p v t, r4).

Definition export_db (d : Database) : list byte :=
  enc_table enc_plate (plates d) ++ enc_table enc_vote (votes d)
  ++ enc_bool (idx_votes_plate d).

Definition import_db (bs : list byte) : option Database :=
  '(ps, r1) ← dec_table dec_plate bs; '(vs, r2) ← dec_table dec_vote r1;
  '(ix, r3) ← dec_bool r2;
  match r3 with [] => Some (mkDb ps vs ix) | _ => None end.

Definition engine : Engine := {| export := export_db; import := import_db |}.

End RefEngine.

(** ** Derived notions *)

(** The plates table after [ensurePlateRow]. *)
Definition ensured (p t : string) (rows : list PlateRow) : list PlateRow :=
  if bool_decide (p ∈ plate_keys rows) then rows else rows ++ [mkPlate p 0 t].

(** The plates table after the first two statements of [addVote]. *)
Definition scored (p : string) (v : Z) (a : Ambient) (rows : list PlateRow) : list PlateRow :=
  bump p v (now_update a) <$> ensured p (now_ensure a) rows.

Definition row_score (p : string) (rows : list PlateRow) : option Z :=
  p_score <$> head (filter (fun r => p_plate_text r = p) rows).

Definition log_of (vs : list VoteRow) : Log := (fun r => (v_plate_text r, v_value r)) <$> vs.

(** What holds of every reachable store: both tables and the index exist,
    keys are unique, the votes table is the log, and every plate row carries
    the sum of its votes. *)
Inductive consistent : Database -> Log -> Prop :=
| Consistent ps vs :
    NoDup (plate_keys ps) ->
    NoDup (vote_ids vs) ->
    Forall (fun r => is_delta (v_value r)) vs ->
    (forall q, q ∈ plate_keys ps -> row_score q ps = Some (votes_sum q vs)) ->
    (forall q, q ∈ plate_keys ps <-> q ∈ v_plate_text <$> vs) ->
    consistent (mkDb (Some ps) (Some vs) true) (log_of vs).

(** The scenario of the specification. *)
Definition scenario (a1 a2 a3 : Ambient) : Sql Leaderboard :=
  addVote "abc 123" 1 a1 ;; addVote "ABC123" 1 a2 ;; addVote "xyz999" (-1) a3 ;;
  queryLeaderboard.

Definition amb (t i : string) : Ambient := mkAmbient t t t i.

(** ** Concrete inputs *)

Ltac by_computation :=
  match goal with
  | |- ?P => apply (@bool_decide_unpack P _); vm_compute; exact I
  end.

Definition three_votes : list (Z * Ambient) :=
  [(1, amb "t1" "id1"); (-1, amb "t2" "id2"); (-1, amb "t3" "id3")].

Definition one_vote_db : Database := (addVote "abc123" 1 (amb "t1" "id1") fresh_db).2.

(** The page after the first boot on an empty IndexedDB store, with the
    reference engine. *)
Definition boot_page : World :=
  persistDb (E := RefEngine.engine) (mkWorld fresh_db ∅).

(** The page after a vote click and a sign-in. *)
Definition voted_page : World :=
  setUser "sam" (vote_onclick (E := RefEngine.engine) 1 " abc123 " (amb "t1" "id1") boot_page).2.

(** ** Plate text as the page sees it

    A JavaScript string is read by [trim] and [toUpperCase] as a sequence of
    Unicode code points, and sql.js hands it to the engine as UTF-8: the
    strings of the store are these bytes.  On ASCII text [normalize] above is
    this normalization (lemma [codes_normalize]), and it leaves the bytes of
    a normalized text as they are (lemma [normalize_encode]), so that
    [addVote] of the store, on the bytes of the normalized text, is the
    [addVote] of the page (lemma [addVote_encode]). *)

Module Unicode.

Local Open Scope N_scope.

(** ECMAScript [WhiteSpace] (TAB, VT, FF, ZWNBSP and the space separators)
    and [LineTerminator] (LF, CR, LS, PS): what [trim] strips. *)
Definition isWhiteSpace (c : N) : bool :=
  ((9 <=? c) && (c <=? 13)) || (c =? 32) || (c =? 160) || (c =? 5760)
  || ((8192 <=? c) && (c <=? 8202)) || (c =? 8232) || (c =? 8233) || (c =? 8239)
  || (c =? 8287) || (c =? 12288) || (c =? 65279).

(** [String.prototype.trimStart]. *)
Fixpoint trimStart (s : list N) : list N :=
  match s with
  | [] => []
  | c :: r => if isWhiteSpace c then trimStart r else s
  end.

(** [String.prototype.trimEnd]. *)
Fixpoint trimEnd (s : list N) : list N :=
  match s with
  | [] => []
  | c :: r =>
      match trimEnd r with
      | [] => if isWhiteSpace c then [] else [c]
      | r' => c :: r'
      end
  end.

(** [String.prototype.trim]. *)
Definition trim (s : list N) : list N := trimEnd (trimStart s).

Definition allWhiteSpace (s : list N) : bool := forallb isWhiteSpace s.

(** Truthiness of a string: [!s] holds for the empty string only. *)
Definition truthy (s : list N) : bool :=
  match s with [] => false | _ :: _ => true end.

(** A text that is empty or begins with a code point that is not white
    space. *)
Definition headed (s : list N) : Prop :=
  match s with
  | [] => True
  | c :: _ => isWhiteSpace c = false
  end.

(** The code points of a well-formed string (one without a surrogate that
    is not part of a pair): the Unicode scalar values. *)
Definition isScalar (c : N) : bool :=
  (c <? 55296) || ((57344 <=? c) && (c <? 1114112)).

Definition wellFormed (s : list N) : bool := forallb isScalar s.

(** The upper case of the ASCII code points. *)
Definition asciiUpper (c : N) : N :=
  if (97 <=? c) && (c <=? 122) then c - 32 else c.

(** The code points below 128. *)
Definition ascii_range : list N := N.of_nat <$> seq 0 128.

(** The upper-case mapping of the Unicode version of the JavaScript engine:
    the code points that [toUpperCase] changes, each with what it puts in
    its place.  Every other code point stays as it is. *)
Definition Casing := list (N * list N).

Fixpoint assoc (c : N) (t : Casing) : option (list N) :=
  match t with
  | [] => None
  | (k, l) :: t' => if k =? c then Some l else assoc c t'
  end.

Section Casing.
Variable t : Casing.

(** The upper case of one code point. *)
Definition toUppercase (c : N) : list N :=
  match assoc c t with
  | Some l => l
  | None => [c]
  end.

(** [String.prototype.toUpperCase]. *)
Fixpoint toUpperCase (s : list N) : list N :=
  match s with
  | [] => []
  | c :: r => toUppercase c ++ toUpperCase r
  end.

(** [plate.trim().toUpperCase()]. *)
Definition normalize (plate : list N) : list N := toUpperCase (trim plate).

(** Two code points that are equal, or one the upper case of the other. *)
Definition sameLetter (a b : N) : bool :=
  (a =? b) || bool_decide (toUppercase a = [b]) || bool_decide (toUppercase b = [a]).

(** Two texts that differ in letter case only. *)
Fixpoint eqIgnoreCase (s u : list N) : bool :=
  match s, u with
  | [], [] => true
  | a :: s', b :: u' => sameLetter a b && eqIgnoreCase s' u'
  | _, _ => false
  end.

(** What is checked of an entry of the mapping: the code point is not
    white space, its upper case is not empty, holds no white space, is
    its own upper case and is made of scalar values. *)
Definition entry_ok (e : N * list N) : bool :=
  negb (isWhiteSpace e.1)
  && match e.2 with [] => false | _ :: _ => true end
  && forallb (fun c => negb (isWhiteSpace c)) e.2
  && bool_decide (toUpperCase e.2 = e.2)
  && forallb isScalar e.2.

(** What is checked of the mapping: every entry is as above, and on the
    ASCII code points the mapping is that of the letters a-z. *)
Definition casing_ok : bool :=
  forallb entry_ok t
  && forallb (fun c => bool_decide (toUppercase c = [asciiUpper c])) ascii_range.

End Casing.

(** The full upper-case mapping of the Unicode Character Database
    (UnicodeData.txt and the unconditional entries of SpecialCasing.txt),
    version 14.0. *)
Definition upper_table : Casing :=
  [
   (97, [65]); (98, [66]); (99, [67]); (100, [68]); (101, [69]); (102, [70]); (103, [71]);
   (104, [72]); (105, [73]); (106, [74]); (107, [75]); (108, [76]); (109, [77]); (110, [78]);
   (111, [79]); (112, [80]); (113, [81]); (114, [82]); (115, [83]); (116, [84]); (117, [85]);
   (118, [86]); (119, [87]); (120, [88]); (121, [89]); (122, [90]); (181, [924]); (223, [83; 83]);
   (224, [192]); (225, [193]); (226, [194]); (227, [195]); (228, [196]); (229, [197]);
   (230, [198]); (231, [199]); (232, [200]); (233, [201]); (234, [202]); (235, [203]);
   (236, [204]); (237, [205]); (238, [206]); (239, [207]); (240, [208]); (241, [209]);
   (242, [210]); (243, [211]); (244, [212]); (245, [213]); (246, [214]); (248, [216]);
   (249, [217]); (250, [218]); (251, [219]); (252, [220]); (253, [221]); (254, [222]);
   (255, [376]); (257, [256]); (259, [258]); (261, [260]); (263, [262]); (265, [264]);
   (267, [266]); (269, [268]); (271, [270]); (273, [272]); (275, [274]); (277, [276]);
   (279, [278]); (281, [280]); (283, [282]); (285, [284]); (287, [286]); (289, [288]);
   (291, [290]); (293, [292]); (295, [294]); (297, [296]); (299, [298]); (301, [300]);
   (303, [302]); (305, [73]); (307, [306]); (309, [308]); (311, [310]); (314, [313]);
   (316, [315]); (318, [317]); (320, [319]); (322, [321]); (324, [323]); (326, [325]);
   (328, [327]); (329, [700; 78]); (331, [330]); (333, [332]); (335, [334]); (337, [336]);
   (339, [338]); (341, [340]); (343, [342]); (345, [344]); (347, [346]); (349, [348]);
   (351, [350]); (353, [352]); (355, [354]); (357, [356]); (359, [358]); (361, [360]);
   (363, [362]); (365, [364]); (367, [366]); (369, [368]); (371, [370]); (373, [372]);
   (375, [374]); (378, [377]); (380, [379]); (382, [381]); (383, [83]); (384, [579]);
   (387, [386]); (389, [388]); (392, [391]); (396, [395]); (402, [401]); (405, [502]);
   (409, [408]); (410, [573]); (414, [544]); (417, [416]); (419, [418]); (421, [420]);
   (424, [423]); (429, [428]); (432, [431]); (436, [435]); (438, [437]); (441, [440]);
   (445, [444]); (447, [503]); (453, [452]); (454, [452]); (456, [455]); (457, [455]);
   (459, [458]); (460, [458]); (462, [461]); (464, [463]); (466, [465]); (468, [467]);
   (470, [469]); (472, [471]); (474, [473]); (476, [475]); (477, [398]); (479, [478]);
   (481, [480]); (483, [482]); (485, [484]); (487, [486]); (489, [488]); (491, [490]);
   (493, [492]); (495, [494]); (496, [74; 780]); (498, [497]); (499, [497]); (501, [500]);
   (505, [504]); (507, [506]); (509, [508]); (511, [510]); (513, [512]); (515, [514]);
   (517, [516]); (519, [518]); (521, [520]); (523, [522]); (525, [524]); (527, [526]);
   (529, [528]); (531, [530]); (533, [532]); (535, [534]); (537, [536]); (539, [538]);
   (541, [540]); (543, [542]); (547, [546]); (549, [548]); (551, [550]); (553, [552]);
   (555, [554]); (557, [556]); (559, [558]); (561, [560]); (563, [562]); (572, [571]);
   (575, [11390]); (576, [11391]); (578, [577]); (583, [582]); (585, [584]); (587, [586]);
   (589, [588]); (591, [590]); (592, [11375]); (593, [11373]); (594, [11376]); (595, [385]);
   (596, [390]); (598, [393]); (599, [394]); (601, [399]); (603, [400]); (604, [42923]);
   (608, [403]); (609, [42924]); (611, [404]); (613, [42893]); (614, [42922]); (616, [407]);
   (617, [406]); (618, [42926]); (619, [11362]); (620, [42925]); (623, [412]); (625, [11374]);
   (626, [413]); (629, [415]); (637, [11364]); (640, [422]); (642, [42949]); (643, [425]);
   (647, [42929]); (648, [430]); (649, [580]); (650, [433]); (651, [434]); (652, [581]);
   (658, [439]); (669, [42930]); (670, [42928]); (837, [921]); (881, [880]); (883, [882]);
   (887, [886]); (891, [1021]); (892, [1022]); (893, [1023]); (912, [921; 776; 769]);
   (940, [902]); (941, [904]); (942, [905]); (943, [906]); (944, [933; 776; 769]); (945, [913]);
   (946, [914]); (947, [915]); (948, [916]); (949, [917]); (950, [918]); (951, [919]);
   (952, [920]); (953, [921]); (954, [922]); (955, [923]); (956, [924]); (957, [925]);
   (958, [926]); (959, [927]); (960, [928]); (961, [929]); (962, [931]); (963, [931]);
   (964, [932]); (965, [933]); (966, [934]); (967, [935]); (968, [936]); (969, [937]);
   (970, [938]); (971, [939]); (972, [908]); (973, [910]); (974, [911]); (976, [914]);
   (977, [920]); (981, [934]); (982, [928]); (983, [975]); (985, [984]); (987, [986]);
   (989, [988]); (991, [990]); (993, [992]); (995, [994]); (997, [996]); (999, [998]);
   (1001, [1000]); (1003, [1002]); (1005, [1004]); (1007, [1006]); (1008, [922]); (1009, [929]);
   (1010, [1017]); (1011, [895]); (1013, [917]); (1016, [1015]); (1019, [1018]); (1072, [1040]);
   (1073, [1041]); (1074, [1042]); (1075, [1043]); (1076, [1044]); (1077, [1045]); (1078, [1046]);
   (1079, [1047]); (1080, [1048]); (1081, [1049]); (1082, [1050]); (1083, [1051]); (1084, [1052]);
   (1085, [1053]); (1086, [1054]); (1087, [1055]); (1088, [1056]); (1089, [1057]); (1090, [1058]);
   (1091, [1059]); (1092, [1060]); (1093, [1061]); (1094, [1062]); (1095, [1063]); (1096, [1064]);
   (1097, [1065]); (1098, [1066]); (1099, [1067]); (1100, [1068]); (1101, [1069]); (1102, [1070]);
   (1103, [1071]); (1104, [1024]); (1105, [1025]); (1106, [1026]); (1107, [1027]); (1108, [1028]);
   (1109, [1029]); (1110, [1030]); (1111, [1031]); (1112, [1032]); (1113, [1033]); (1114, [1034]);
   (1115, [1035]); (1116, [1036]); (1117, [1037]); (1118, [1038]); (1119, [1039]); (1121, [1120]);
   (1123, [1122]); (1125, [1124]); (1127, [1126]); (1129, [1128]); (1131, [1130]); (1133, [1132]);
   (1135, [1134]); (1137, [1136]); (1139, [1138]); (1141, [1140]); (1143, [1142]); (1145, [1144]);
   (1147, [1146]); (1149, [1148]); (1151, [1150]); (1153, [1152]); (1163, [1162]); (1165, [1164]);
   (1167, [1166]); (1169, [1168]); (1171, [1170]); (1173, [1172]); (1175, [1174]); (1177, [1176]);
   (1179, [1178]); (1181, [1180]); (1183, [1182]); (1185, [1184]); (1187, [1186]); (1189, [1188]);
   (1191, [1190]); (1193, [1192]); (1195, [1194]); (1197, [1196]); (1199, [1198]); (1201, [1200]);
   (1203, [1202]); (1205, [1204]); (1207, [1206]); (1209, [1208]); (1211, [1210]); (1213, [1212]);
   (1215, [1214]); (1218, [1217]); (1220, [1219]); (1222, [1221]); (1224, [1223]); (1226, [1225]);
   (1228, [1227]); (1230, [1229]); (1231, [1216]); (1233, [1232]); (1235, [1234]); (1237, [1236]);
   (1239, [1238]); (1241, [1240]); (1243, [1242]); (1245, [1244]); (1247, [1246]); (1249, [1248]);
   (1251, [1250]); (1253, [1252]); (1255, [1254]); (1257, [1256]); (1259, [1258]); (1261, [1260]);
   (1263, [1262]); (1265, [1264]); (1267, [1266]); (1269, [1268]); (1271, [1270]); (1273, [1272]);
   (1275, [1274]); (1277, [1276]); (1279, [1278]); (1281, [1280]); (1283, [1282]); (1285, [1284]);
   (1287, [1286]); (1289, [1288]); (1291, [1290]); (1293, [1292]); (1295, [1294]); (1297, [1296]);
   (1299, [1298]); (1301, [1300]); (1303, [1302]); (1305, [1304]); (1307, [1306]); (1309, [1308]);
   (1311, [1310]); (1313, [1312]); (1315, [1314]); (1317, [1316]); (1319, [1318]); (1321, [1320]);
   (1323, [1322]); (1325, [1324]); (1327, [1326]); (1377, [1329]); (1378, [1330]); (1379, [1331]);
   (1380, [1332]); (1381, [1333]); (1382, [1334]); (1383, [1335]); (1384, [1336]); (1385, [1337]);
   (1386, [1338]); (1387, [1339]); (1388, [1340]); (1389, [1341]); (1390, [1342]); (1391, [1343]);
   (1392, [1344]); (1393, [1345]); (1394, [1346]); (1395, [1347]); (1396, [1348]); (1397, [1349]);
   (1398, [1350]); (1399, [1351]); (1400, [1352]); (1401, [1353]); (1402, [1354]); (1403, [1355]);
   (1404, [1356]); (1405, [1357]); (1406, [1358]); (1407, [1359]); (1408, [1360]); (1409, [1361]);
   (1410, [1362]); (1411, [1363]); (1412, [1364]); (1413, [1365]); (1414, [1366]);
   (1415, [1333; 1362]); (4304, [7312]); (4305, [7313]); (4306, [7314]); (4307, [7315]);
   (4308, [7316]); (4309, [7317]); (4310, [7318]); (4311, [7319]); (4312, [7320]); (4313, [7321]);
   (4314, [7322]); (4315, [7323]); (4316, [7324]); (4317, [7325]); (4318, [7326]); (4319, [7327]);
   (4320, [7328]); (4321, [7329]); (4322, [7330]); (4323, [7331]); (4324, [7332]); (4325, [7333]);
   (4326, [7334]); (4327, [7335]); (4328, [7336]); (4329, [7337]); (4330, [7338]); (4331, [7339]);
   (4332, [7340]); (4333, [7341]); (4334, [7342]); (4335, [7343]); (4336, [7344]); (4337, [7345]);
   (4338, [7346]); (4339, [7347]); (4340, [7348]); (4341, [7349]); (4342, [7350]); (4343, [7351]);
   (4344, [7352]); (4345, [7353]); (4346, [7354]); (4349, [7357]); (4350, [7358]); (4351, [7359]);
   (5112, [5104]); (5113, [5105]); (5114, [5106]); (5115, [5107]); (5116, [5108]); (5117, [5109]);
   (7296, [1042]); (7297, [1044]); (7298, [1054]); (7299, [1057]); (7300, [1058]); (7301, [1058]);
   (7302, [1066]); (7303, [1122]); (7304, [42570]); (7545, [42877]); (7549, [11363]);
   (7566, [42950]); (7681, [7680]); (7683, [7682]); (7685, [7684]); (7687, [7686]);
   (7689, [7688]); (7691, [7690]); (7693, [7692]); (7695, [7694]); (7697, [7696]); (7699, [7698]);
   (7701, [7700]); (7703, [7702]); (7705, [7704]); (7707, [7706]); (7709, [7708]); (7711, [7710]);
   (7713, [7712]); (7715, [7714]); (7717, [7716]); (7719, [7718]); (7721, [7720]); (7723, [7722]);
   (7725, [7724]); (7727, [7726]); (7729, [7728]); (7731, [7730]); (7733, [7732]); (7735, [7734]);
   (7737, [7736]); (7739, [7738]); (7741, [7740]); (7743, [7742]); (7745, [7744]); (7747, [7746]);
   (7749, [7748]); (7751, [7750]); (7753, [7752]); (7755, [7754]); (7757, [7756]); (7759, [7758]);
   (7761, [7760]); (7763, [7762]); (7765, [7764]); (7767, [7766]); (7769, [7768]); (7771, [7770]);
   (7773, [7772]); (7775, [7774]); (7777, [7776]); (7779, [7778]); (7781, [7780]); (7783, [7782]);
   (7785, [7784]); (7787, [7786]); (7789, [7788]); (7791, [7790]); (7793, [7792]); (7795, [7794]);
   (7797, [7796]); (7799, [7798]); (7801, [7800]); (7803, [7802]); (7805, [7804]); (7807, [7806]);
   (7809, [7808]); (7811, [7810]); (7813, [7812]); (7815, [7814]); (7817, [7816]); (7819, [7818]);
   (7821, [7820]); (7823, [7822]); (7825, [7824]); (7827, [7826]); (7829, [7828]);
   (7830, [72; 817]); (7831, [84; 776]); (7832, [87; 778]); (7833, [89; 778]); (7834, [65; 702]);
   (7835, [7776]); (7841, [7840]); (7843, [7842]); (7845, [7844]); (7847, [7846]); (7849, [7848]);
   (7851, [7850]); (7853, [7852]); (7855, [7854]); (7857, [7856]); (7859, [7858]); (7861, [7860]);
   (7863, [7862]); (7865, [7864]); (7867, [7866]); (7869, [7868]); (7871, [7870]); (7873, [7872]);
   (7875, [7874]); (7877, [7876]); (7879, [7878]); (7881, [7880]); (7883, [7882]); (7885, [7884]);
   (7887, [7886]); (7889, [7888]); (7891, [7890]); (7893, [7892]); (7895, [7894]); (7897, [7896]);
   (7899, [7898]); (7901, [7900]); (7903, [7902]); (7905, [7904]); (7907, [7906]); (7909, [7908]);
   (7911, [7910]); (7913, [7912]); (7915, [7914]); (7917, [7916]); (7919, [7918]); (7921, [7920]);
   (7923, [7922]); (7925, [7924]); (7927, [7926]); (7929, [7928]); (7931, [7930]); (7933, [7932]);
   (7935, [7934]); (7936, [7944]); (7937, [7945]); (7938, [7946]); (7939, [7947]); (7940, [7948]);
   (7941, [7949]); (7942, [7950]); (7943, [7951]); (7952, [7960]); (7953, [7961]); (7954, [7962]);
   (7955, [7963]); (7956, [7964]); (7957, [7965]); (7968, [7976]); (7969, [7977]); (7970, [7978]);
   (7971, [7979]); (7972, [7980]); (7973, [7981]); (7974, [7982]); (7975, [7983]); (7984, [7992]);
   (7985, [7993]); (7986, [7994]); (7987, [7995]); (7988, [7996]); (7989, [7997]); (7990, [7998]);
   (7991, [7999]); (8000, [8008]); (8001, [8009]); (8002, [8010]); (8003, [8011]); (8004, [8012]);
   (8005, [8013]); (8016, [933; 787]); (8017, [8025]); (8018, [933; 787; 768]); (8019, [8027]);
   (8020, [933; 787; 769]); (8021, [8029]); (8022, [933; 787; 834]); (8023, [8031]);
   (8032, [8040]); (8033, [8041]); (8034, [8042]); (8035, [8043]); (8036, [8044]); (8037, [8045]);
   (8038, [8046]); (8039, [8047]); (8048, [8122]); (8049, [8123]); (8050, [8136]); (8051, [8137]);
   (8052, [8138]); (8053, [8139]); (8054, [8154]); (8055, [8155]); (8056, [8184]); (8057, [8185]);
   (8058, [8170]); (8059, [8171]); (8060, [8186]); (8061, [8187]); (8064, [7944; 921]);
   (8065, [7945; 921]); (8066, [7946; 921]); (8067, [7947; 921]); (8068, [7948; 921]);
   (8069, [7949; 921]); (8070, [7950; 921]); (8071, [7951; 921]); (8072, [7944; 921]);
   (8073, [7945; 921]); (8074, [7946; 921]); (8075, [7947; 921]); (8076, [7948; 921]);
   (8077, [7949; 921]); (8078, [7950; 921]); (8079, [7951; 921]); (8080, [7976; 921]);
   (8081, [7977; 921]); (8082, [7978; 921]); (8083, [7979; 921]); (8084, [7980; 921]);
   (8085, [7981; 921]); (8086, [7982; 921]); (8087, [7983; 921]); (8088, [7976; 921]);
   (8089, [7977; 921]); (8090, [7978; 921]); (8091, [7979; 921]); (8092, [7980; 921]);
   (8093, [7981; 921]); (8094, [7982; 921]); (8095, [7983; 921]); (8096, [8040; 921]);
   (8097, [8041; 921]); (8098, [8042; 921]); (8099, [8043; 921]); (8100, [8044; 921]);
   (8101, [8045; 921]); (8102, [8046; 921]); (8103, [8047; 921]); (8104, [8040; 921]);
   (8105, [8041; 921]); (8106, [8042; 921]); (8107, [8043; 921]); (8108, [8044; 921]);
   (8109, [8045; 921]); (8110, [8046; 921]); (8111, [8047; 921]); (8112, [8120]); (8113, [8121]);
   (8114, [8122; 921]); (8115, [913; 921]); (8116, [902; 921]); (8118, [913; 834]);
   (8119, [913; 834; 921]); (8124, [913; 921]); (8126, [921]); (8130, [8138; 921]);
   (8131, [919; 921]); (8132, [905; 921]); (8134, [919; 834]); (8135, [919; 834; 921]);
   (8140, [919; 921]); (8144, [8152]); (8145, [8153]); (8146, [921; 776; 768]);
   (8147, [921; 776; 769]); (8150, [921; 834]); (8151, [921; 776; 834]); (8160, [8168]);
   (8161, [8169]); (8162, [933; 776; 768]); (8163, [933; 776; 769]); (8164, [929; 787]);
   (8165, [8172]); (8166, [933; 834]); (8167, [933; 776; 834]); (8178, [8186; 921]);
   (8179, [937; 921]); (8180, [911; 921]); (8182, [937; 834]); (8183, [937; 834; 921]);
   (8188, [937; 921]); (8526, [8498]); (8560, [8544]); (8561, [8545]); (8562, [8546]);
   (8563, [8547]); (8564, [8548]); (8565, [8549]); (8566, [8550]); (8567, [8551]); (8568, [8552]);
   (8569, [8553]); (8570, [8554]); (8571, [8555]); (8572, [8556]); (8573, [8557]); (8574, [8558]);
   (8575, [8559]); (8580, [8579]); (9424, [9398]); (9425, [9399]); (9426, [9400]); (9427, [9401]);
   (9428, [9402]); (9429, [9403]); (9430, [9404]); (9431, [9405]); (9432, [9406]); (9433, [9407]);
   (9434, [9408]); (9435, [9409]); (9436, [9410]); (9437, [9411]); (9438, [9412]); (9439, [9413]);
   (9440, [9414]); (9441, [9415]); (9442, [9416]); (9443, [9417]); (9444, [9418]); (9445, [9419]);
   (9446, [9420]); (9447, [9421]); (9448, [9422]); (9449, [9423]); (11312, [11264]);
   (11313, [11265]); (11314, [11266]); (11315, [11267]); (11316, [11268]); (11317, [11269]);
   (11318, [11270]); (11319, [11271]); (11320, [11272]); (11321, [11273]); (11322, [11274]);
   (11323, [11275]); (11324, [11276]); (11325, [11277]); (11326, [11278]); (11327, [11279]);
   (11328, [11280]); (11329, [11281]); (11330, [11282]); (11331, [11283]); (11332, [11284]);
   (11333, [11285]); (11334, [11286]); (11335, [11287]); (11336, [11288]); (11337, [11289]);
   (11338, [11290]); (11339, [11291]); (11340, [11292]); (11341, [11293]); (11342, [11294]);
   (11343, [11295]); (11344, [11296]); (11345, [11297]); (11346, [11298]); (11347, [11299]);
   (11348, [11300]); (11349, [11301]); (11350, [11302]); (11351, [11303]); (11352, [11304]);
   (11353, [11305]); (11354, [11306]); (11355, [11307]); (11356, [11308]); (11357, [11309]);
   (11358, [11310]); (11359, [11311]); (11361, [11360]); (11365, [570]); (11366, [574]);
   (11368, [11367]); (11370, [11369]); (11372, [11371]); (11379, [11378]); (11382, [11381]);
   (11393, [11392]); (11395, [11394]); (11397, [11396]); (11399, [11398]); (11401, [11400]);
   (11403, [11402]); (11405, [11404]); (11407, [11406]); (11409, [11408]); (11411, [11410]);
   (11413, [11412]); (11415, [11414]); (11417, [11416]); (11419, [11418]); (11421, [11420]);
   (11423, [11422]); (11425, [11424]); (11427, [11426]); (11429, [11428]); (11431, [11430]);
   (11433, [11432]); (11435, [11434]); (11437, [11436]); (11439, [11438]); (11441, [11440]);
   (11443, [11442]); (11445, [11444]); (11447, [11446]); (11449, [11448]); (11451, [11450]);
   (11453, [11452]); (11455, [11454]); (11457, [11456]); (11459, [11458]); (11461, [11460]);
   (11463, [11462]); (11465, [11464]); (11467, [11466]); (11469, [11468]); (11471, [11470]);
   (11473, [11472]); (11475, [11474]); (11477, [11476]); (11479, [11478]); (11481, [11480]);
   (11483, [11482]); (11485, [11484]); (11487, [11486]); (11489, [11488]); (11491, [11490]);
   (11500, [11499]); (11502, [11501]); (11507, [11506]); (11520, [4256]); (11521, [4257]);
   (11522, [4258]); (11523, [4259]); (11524, [4260]); (11525, [4261]); (11526, [4262]);
   (11527, [4263]); (11528, [4264]); (11529, [4265]); (11530, [4266]); (11531, [4267]);
   (11532, [4268]); (11533, [4269]); (11534, [4270]); (11535, [4271]); (11536, [4272]);
   (11537, [4273]); (11538, [4274]); (11539, [4275]); (11540, [4276]); (11541, [4277]);
   (11542, [4278]); (11543, [4279]); (11544, [4280]); (11545, [4281]); (11546, [4282]);
   (11547, [4283]); (11548, [4284]); (11549, [4285]); (11550, [4286]); (11551, [4287]);
   (11552, [4288]); (11553, [4289]); (11554, [4290]); (11555, [4291]); (11556, [4292]);
   (11557, [4293]); (11559, [4295]); (11565, [4301]); (42561, [42560]); (42563, [42562]);
   (42565, [42564]); (42567, [42566]); (42569, [42568]); (42571, [42570]); (42573, [42572]);
   (42575, [42574]); (42577, [42576]); (42579, [42578]); (42581, [42580]); (42583, [42582]);
   (42585, [42584]); (42587, [42586]); (42589, [42588]); (42591, [42590]); (42593, [42592]);
   (42595, [42594]); (42597, [42596]); (42599, [42598]); (42601, [42600]); (42603, [42602]);
   (42605, [42604]); (42625, [42624]); (42627, [42626]); (42629, [42628]); (42631, [42630]);
   (42633, [42632]); (42635, [42634]); (42637, [42636]); (42639, [42638]); (42641, [42640]);
   (42643, [42642]); (42645, [42644]); (42647, [42646]); (42649, [42648]); (42651, [42650]);
   (42787, [42786]); (42789, [42788]); (42791, [42790]); (42793, [42792]); (42795, [42794]);
   (42797, [42796]); (42799, [42798]); (42803, [42802]); (42805, [42804]); (42807, [42806]);
   (42809, [42808]); (42811, [42810]); (42813, [42812]); (42815, [42814]); (42817, [42816]);
   (42819, [42818]); (42821, [42820]); (42823, [42822]); (42825, [42824]); (42827, [42826]);
   (42829, [42828]); (42831, [42830]); (42833, [42832]); (42835, [42834]); (42837, [42836]);
   (42839, [42838]); (42841, [42840]); (42843, [42842]); (42845, [42844]); (42847, [42846]);
   (42849, [42848]); (42851, [42850]); (42853, [42852]); (42855, [42854]); (42857, [42856]);
   (42859, [42858]); (42861, [42860]); (42863, [42862]); (42874, [42873]); (42876, [42875]);
   (42879, [42878]); (42881, [42880]); (42883, [42882]); (42885, [42884]); (42887, [42886]);
   (42892, [42891]); (42897, [42896]); (42899, [42898]); (42900, [42948]); (42903, [42902]);
   (42905, [42904]); (42907, [42906]); (42909, [42908]); (42911, [42910]); (42913, [42912]);
   (42915, [42914]); (42917, [42916]); (42919, [42918]); (42921, [42920]); (42933, [42932]);
   (42935, [42934]); (42937, [42936]); (42939, [42938]); (42941, [42940]); (42943, [42942]);
   (42945, [42944]); (42947, [42946]); (42952, [42951]); (42954, [42953]); (42961, [42960]);
   (42967, [42966]); (42969, [42968]); (42998, [42997]); (43859, [42931]); (43888, [5024]);
   (43889, [5025]); (43890, [5026]); (43891, [5027]); (43892, [5028]); (43893, [5029]);
   (43894, [5030]); (43895, [5031]); (43896, [5032]); (43897, [5033]); (43898, [5034]);
   (43899, [5035]); (43900, [5036]); (43901, [5037]); (43902, [5038]); (43903, [5039]);
   (43904, [5040]); (43905, [5041]); (43906, [5042]); (43907, [5043]); (43908, [5044]);
   (43909, [5045]); (43910, [5046]); (43911, [5047]); (43912, [5048]); (43913, [5049]);
   (43914, [5050]); (43915, [5051]); (43916, [5052]); (43917, [5053]); (43918, [5054]);
   (43919, [5055]); (43920, [5056]); (43921, [5057]); (43922, [5058]); (43923, [5059]);
   (43924, [5060]); (43925, [5061]); (43926, [5062]); (43927, [5063]); (43928, [5064]);
   (43929, [5065]); (43930, [5066]); (43931, [5067]); (43932, [5068]); (43933, [5069]);
   (43934, [5070]); (43935, [5071]); (43936, [5072]); (43937, [5073]); (43938, [5074]);
   (43939, [5075]); (43940, [5076]); (43941, [5077]); (43942, [5078]); (43943, [5079]);
   (43944, [5080]); (43945, [5081]); (43946, [5082]); (43947, [5083]); (43948, [5084]);
   (43949, [5085]); (43950, [5086]); (43951, [5087]); (43952, [5088]); (43953, [5089]);
   (43954, [5090]); (43955, [5091]); (43956, [5092]); (43957, [5093]); (43958, [5094]);
   (43959, [5095]); (43960, [5096]); (43961, [5097]); (43962, [5098]); (43963, [5099]);
   (43964, [5100]); (43965, [5101]); (43966, [5102]); (43967, [5103]); (64256, [70; 70]);
   (64257, [70; 73]); (64258, [70; 76]); (64259, [70; 70; 73]); (64260, [70; 70; 76]);
   (64261, [83; 84]); (64262, [83; 84]); (64275, [1348; 1350]); (64276, [1348; 1333]);
   (64277, [1348; 1339]); (64278, [1358; 1350]); (64279, [1348; 1341]); (65345, [65313]);
   (65346, [65314]); (65347, [65315]); (65348, [65316]); (65349, [65317]); (65350, [65318]);
   (65351, [65319]); (65352, [65320]); (65353, [65321]); (65354, [65322]); (65355, [65323]);
   (65356, [65324]); (65357, [65325]); (65358, [65326]); (65359, [65327]); (65360, [65328]);
   (65361, [65329]); (65362, [65330]); (65363, [65331]); (65364, [65332]); (65365, [65333]);
   (65366, [65334]); (65367, [65335]); (65368, [65336]); (65369, [65337]); (65370, [65338]);
   (66600, [66560]); (66601, [66561]); (66602, [66562]); (66603, [66563]); (66604, [66564]);
   (66605, [66565]); (66606, [66566]); (66607, [66567]); (66608, [66568]); (66609, [66569]);
   (66610, [66570]); (66611, [66571]); (66612, [66572]); (66613, [66573]); (66614, [66574]);
   (66615, [66575]); (66616, [66576]); (66617, [66577]); (66618, [66578]); (66619, [66579]);
   (66620, [66580]); (66621, [66581]); (66622, [66582]); (66623, [66583]); (66624, [66584]);
   (66625, [66585]); (66626, [66586]); (66627, [66587]); (66628, [66588]); (66629, [66589]);
   (66630, [66590]); (66631, [66591]); (66632, [66592]); (66633, [66593]); (66634, [66594]);
   (66635, [66595]); (66636, [66596]); (66637, [66597]); (66638, [66598]); (66639, [66599]);
   (66776, [66736]); (66777, [66737]); (66778, [66738]); (66779, [66739]); (66780, [66740]);
   (66781, [66741]); (66782, [66742]); (66783, [66743]); (66784, [66744]); (66785, [66745]);
   (66786, [66746]); (66787, [66747]); (66788, [66748]); (66789, [66749]); (66790, [66750]);
   (66791, [66751]); (66792, [66752]); (66793, [66753]); (66794, [66754]); (66795, [66755]);
   (66796, [66756]); (66797, [66757]); (66798, [66758]); (66799, [66759]); (66800, [66760]);
   (66801, [66761]); (66802, [66762]); (66803, [66763]); (66804, [66764]); (66805, [66765]);
   (66806, [66766]); (66807, [66767]); (66808, [66768]); (66809, [66769]); (66810, [66770]);
   (66811, [66771]); (66967, [66928]); (66968, [66929]); (66969, [66930]); (66970, [66931]);
   (66971, [66932]); (66972, [66933]); (66973, [66934]); (66974, [66935]); (66975, [66936]);
   (66976, [66937]); (66977, [66938]); (66979, [66940]); (66980, [66941]); (66981, [66942]);
   (66982, [66943]); (66983, [66944]); (66984, [66945]); (66985, [66946]); (66986, [66947]);
   (66987, [66948]); (66988, [66949]); (66989, [66950]); (66990, [66951]); (66991, [66952]);
   (66992, [66953]); (66993, [66954]); (66995, [66956]); (66996, [66957]); (66997, [66958]);
   (66998, [66959]); (66999, [66960]); (67000, [66961]); (67001, [66962]); (67003, [66964]);
   (67004, [66965]); (68800, [68736]); (68801, [68737]); (68802, [68738]); (68803, [68739]);
   (68804, [68740]); (68805, [68741]); (68806, [68742]); (68807, [68743]); (68808, [68744]);
   (68809, [68745]); (68810, [68746]); (68811, [68747]); (68812, [68748]); (68813, [68749]);
   (68814, [68750]); (68815, [68751]); (68816, [68752]); (68817, [68753]); (68818, [68754]);
   (68819, [68755]); (68820, [68756]); (68821, [68757]); (68822, [68758]); (68823, [68759]);
   (68824, [68760]); (68825, [68761]); (68826, [68762]); (68827, [68763]); (68828, [68764]);
   (68829, [68765]); (68830, [68766]); (68831, [68767]); (68832, [68768]); (68833, [68769]);
   (68834, [68770]); (68835, [68771]); (68836, [68772]); (68837, [68773]); (68838, [68774]);
   (68839, [68775]); (68840, [68776]); (68841, [68777]); (68842, [68778]); (68843, [68779]);
   (68844, [68780]); (68845, [68781]); (68846, [68782]); (68847, [68783]); (68848, [68784]);
   (68849, [68785]); (68850, [68786]); (71872, [71840]); (71873, [71841]); (71874, [71842]);
   (71875, [71843]); (71876, [71844]); (71877, [71845]); (71878, [71846]); (71879, [71847]);
   (71880, [71848]); (71881, [71849]); (71882, [71850]); (71883, [71851]); (71884, [71852]);
   (71885, [71853]); (71886, [71854]); (71887, [71855]); (71888, [71856]); (71889, [71857]);
   (71890, [71858]); (71891, [71859]); (71892, [71860]); (71893, [71861]); (71894, [71862]);
   (71895, [71863]); (71896, [71864]); (71897, [71865]); (71898, [71866]); (71899, [71867]);
   (71900, [71868]); (71901, [71869]); (71902, [71870]); (71903, [71871]); (93792, [93760]);
   (93793, [93761]); (93794, [93762]); (93795, [93763]); (93796, [93764]); (93797, [93765]);
   (93798, [93766]); (93799, [93767]); (93800, [93768]); (93801, [93769]); (93802, [93770]);
   (93803, [93771]); (93804, [93772]); (93805, [93773]); (93806, [93774]); (93807, [93775]);
   (93808, [93776]); (93809, [93777]); (93810, [93778]); (93811, [93779]); (93812, [93780]);
   (93813, [93781]); (93814, [93782]); (93815, [93783]); (93816, [93784]); (93817, [93785]);
   (93818, [93786]); (93819, [93787]); (93820, [93788]); (93821, [93789]); (93822, [93790]);
   (93823, [93791]); (125218, [125184]); (125219, [125185]); (125220, [125186]);
   (125221, [125187]); (125222, [125188]); (125223, [125189]); (125224, [125190]);
   (125225, [125191]); (125226, [125192]); (125227, [125193]); (125228, [125194]);
   (125229, [125195]); (125230, [125196]); (125231, [125197]); (125232, [125198]);
   (125233, [125199]); (125234, [125200]); (125235, [125201]); (125236, [125202]);
   (125237, [125203]); (125238, [125204]); (125239, [125205]); (125240, [125206]);
   (125241, [125207]); (125242, [125208]); (125243, [125209]); (125244, [125210]);
   (125245, [125211]); (125246, [125212]); (125247, [125213]); (125248, [125214]);
   (125249, [125215]); (125250, [125216]); (125251, [125217])
  ].

(** The code points of an ASCII text of the store. *)
Fixpoint codes (s : string) : list N :=
  match s with
  | EmptyString => []
  | String c r => N_of_ascii c :: codes r
  end.

(** The UTF-8 bytes of one code point, put in front of [k]: what sql.js
    binds for a string parameter ([192 | u >> 6], [128 | u & 63], and so on,
    written with the divisions these are). *)
Definition utf8 (u : N) (k : string) : string :=
  if u <=? 127 then String (ascii_of_N u) k
  else if u <=? 2047 then
    String (ascii_of_N (192 + u / 64)) (String (ascii_of_N (128 + u mod 64)) k)
  else if u <=? 65535 then
    String (ascii_of_N (224 + u / 4096))
      (String (ascii_of_N (128 + (u / 64) mod 64))
         (String (ascii_of_N (128 + u mod 64)) k))
  else
    String (ascii_of_N (240 + (u / 262144) mod 8))
      (String (ascii_of_N (128 + (u / 4096) mod 64))
         (String (ascii_of_N (128 + (u / 64) mod 64))
            (String (ascii_of_N (128 + u mod 64)) k))).

(** The UTF-8 bytes of a text. *)
Fixpoint encode (s : list N) : string :=
  match s with
  | [] => EmptyString
  | c :: r => utf8 c (encode r)
  end.

(** [addVote(plate, value)] on the text of the page, with the mapping [t]
    of its engine. *)
Definition addVote (t : Casing) (plate : list N) (value : Z) (a : Ambient) : Sql unit :=
  let txPlate := normalize t plate in
  if negb (truthy txPlate) then throw PlateRequired
  else
    ensurePlateRow (encode txPlate) a ;;
    update_score value (now_update a) (encode txPlate) ;;
    insert_vote (uuid a) (encode txPlate) value (now_insert a).

End Unicode.

(** ** The rest of the page *)

(** *** Helpers: uuid() and nowIso() *)

Module Uuid.

(** The value of [[1e7]+-1e3+-4e3+-8e3+-1e11]: the array holds one number,
    and [+] concatenates the decimal texts. *)
Definition template : string := "10000000-1000-4000-8000-100000000000".

(** The character class [[018]]. *)
Definition matches018 (c : ascii) : bool :=
  match c with
  | "0" | "1" | "8" => true
  | _ => false
  end%char.

(** The number that a digit character is coerced to. *)
Definition toNumber (c : ascii) : Z := Z.of_nat (Ascii.nat_of_ascii c) - 48.

(** [Number.prototype.toString(16)] on an integer. *)
Definition toString16 (n : Z) : string :=
  HexadecimalString.NilZero.string_of_int (Z.to_hex_int n).

(** The callback [c => (c ^ r & 15 >> c / 4).toString(16)], where [r] is the
    byte that [crypto.getRandomValues] returns: [/] binds tightest, then
    [>>], [&] and [^]; the shift count [c / 4] is truncated to an integer. *)
Definition replacement (c : ascii) (r : Z) : string :=
  toString16 (Z.lxor (toNumber c) (Z.land r (Z.shiftr 15 (toNumber c / 4)))).

(** [s.replace(/[018]/g, callback)]; [rnd k] is the byte of the [k]-th call
    of [crypto.getRandomValues]. *)
Fixpoint replace018 (s : string) (rnd : nat -> Z) (k : nat) : string :=
  match s with
  | EmptyString => EmptyString
  | String c r =>
      if matches018 c then replacement c (rnd k) +:+ replace018 r rnd (S k)
      else String c (replace018 r rnd k)
  end.

(** [uuid()]. *)
Definition uuid (rnd : nat -> Z) : string := replace018 template rnd 0.

(** A string whose characters belong, one by one, to the given classes. *)
Fixpoint matches (shape : list (ascii -> bool)) (s : string) : bool :=
  match shape, s with
  | [], EmptyString => true
  | f :: shape', String c s' => f c && matches shape' s'
  | _, _ => false
  end.

Definition isHex (c : ascii) : bool :=
  match c with
  | "0" | "1" | "2" | "3" | "4" | "5" | "6" | "7" | "8" | "9"
  | "a" | "b" | "c" | "d" | "e" | "f" => true
  | _ => false
  end%char.

Definition isVariant (c : ascii) : bool :=
  match c with
  | "8" | "9" | "a" | "b" => true
  | _ => false
  end%char.

Definition exactly (c : ascii) : ascii -> bool := Ascii.eqb c.

(** The text of a version 4 UUID: 8-4-4-4-12 lower-case hexadecimal digits,
    the version digit 4, and a variant digit among 8, 9, a, b. *)
Definition v4_shape : list (ascii -> bool) :=
  replicate 8 isHex ++ [exactly "-"] ++ replicate 4 isHex ++ [exactly "-"]
  ++ [exactly "4"] ++ replicate 3 isHex ++ [exactly "-"]
  ++ [isVariant] ++ replicate 3 isHex ++ [exactly "-"] ++ replicate 12 isHex.

(** The class that [replace018] leaves at the place of a character. *)
Definition class_of (c : ascii) : ascii -> bool :=
  if matches018 c then (if Ascii.eqb c "8" then isVariant else isHex) else exactly c.

(** The bits of the random byte that the callback keeps, for a character of
    the class: [15 >> c / 4]. *)
Definition mask_of (c : ascii) : Z := Z.shiftr 15 (toNumber c / 4).

(** The masks of the calls of the callback on a string, in order. *)
Fixpoint slots (s : string) : list Z :=
  match s with
  | EmptyString => []
  | String c r => if matches018 c then mask_of c :: slots r else slots r
  end.

End Uuid.

Module Clock.

(** [s.replace(pattern, replacement)] for a pattern of one character: the
    first occurrence only. *)
Fixpoint replace (pattern : ascii) (replacement : string) (s : string) : string :=
  match s with
  | EmptyString => EmptyString
  | String c r =>
      if Ascii.eqb c pattern then replacement +:+ r
      else String c (replace pattern replacement r)
  end.

(** [nowIso()], as a function of [new Date().toISOString()]. *)
Definition nowIso (toISOString : string) : string :=
  replace "Z" "" (replace "T" " " toISOString).

(** A string in which a character does not occur. *)
Fixpoint lacks (c : ascii) (s : string) : bool :=
  match s with
  | EmptyString => true
  | String x r => negb (Ascii.eqb x c) && lacks c r
  end.

End Clock.

(** *** The OCR text (second revision of the page) *)

Module Ocr.

Definition isDigit (c : ascii) : bool :=
  ((48 <=? Ascii.nat_of_ascii c) && (Ascii.nat_of_ascii c <=? 57))%nat.

(** The class [[A-Za-z0-9]]. *)
Definition isAlnum (c : ascii) : bool := Js.isUpper c || Js.isLower c || isDigit c.

(** [s.replace(/class/g, "")] for a class of characters: what is left. *)
Fixpoint remove (cls : ascii -> bool) (s : string) : string :=
  match s with
  | EmptyString => EmptyString
  | String c r => if cls c then remove cls r else String c (remove cls r)
  end.

(** [cleanPlateText(t)]; [None] is [null] or [undefined]. *)
Definition cleanPlateText (t : option string) : string :=
  Js.toUpperCase
    (remove (fun c => negb (isAlnum c))     (* .replace(/[^A-Za-z0-9]/g, "") *)
       (remove Js.isWhiteSpace              (* .replace(/\s+/g, "") *)
          (default EmptyString t))).        (* (t || "") *)

(** What the capture pipeline of [ocrPlateFromVideo] comes to. *)
Inductive Capture :=
| Recognized (raw : option string)   (* window.OCRAD(proc) *)
| NoOcrad                            (* window.OCRAD is missing *)
| Failed.                            (* an exception in the try block *)

(** [ocrPlateFromVideo(videoEl)]. *)
Definition ocrPlateFromVideo (c : Capture) : string :=
  match c with
  | Recognized raw => cleanPlateText raw
  | NoOcrad => cleanPlateText (Some EmptyString)
  | Failed => EmptyString
  end.

(** Capital letters and digits only. *)
Fixpoint plateLike (s : string) : bool :=
  match s with
  | EmptyString => true
  | String c r => (Js.isUpper c || isDigit c) && plateLike r
  end.

(** [shutter.onclick]: the value put in the plate input, and whether the
    message is "Auto-detected. Edit if needed." ([true]) or "Type the
    plate." ([false]). *)
Definition shutter_onclick (c : Capture) : string * bool :=
  let guess := ocrPlateFromVideo c in
  (if Js.truthy guess then guess else EmptyString, Js.truthy guess).

End Ocr.

(** *** Screens and the local profile *)

Inductive Screen :=
| AuthScreen    (* #auth shown, #main hidden *)
| MainScreen.   (* #main shown, #auth hidden *)

(** The page with the screen it shows.  (The calls of [startCamera] and
    [stopCamera] act on the media stream only and are left out.) *)
Record Ui := mkUi {
  page : World;
  screen : Screen
}.

(** [enterBtn.onclick]: [true] when the alert "Please enter a name" is
    raised. *)
Definition enterBtn_onclick (input : string) (u : Ui) : bool * Ui :=
  let name := Js.trim input in
  if negb (Js.truthy name) then (true, u)
  else (false, mkUi (setUser name (page u)) MainScreen).

(** [signOutLocalBtn.onclick]. *)
Definition signOutLocalBtn_onclick (u : Ui) : Ui :=
  mkUi (clearUser (page u)) AuthScreen.

(** The boot sequence at the end of the script: the screen follows the
    profile, whatever the handle reads. *)
Definition boot `{E : Engine} (store : gmap string JsValue)
  : result (Opened Ui (DeadWorld * Screen)) :=
  match initDb store with
  | Ok (Ready w) =>
      Ok (Ready (mkUi w (match getUser w with Some _ => MainScreen | None => AuthScreen end)))
  | Ok (Unreadable u) =>
      Ok (Unreadable (u, match dead_idb u !! USER_KEY with
                         | Some v => if js_truthy v then MainScreen else AuthScreen
                         | None => AuthScreen
                         end))
  | Throw e => Throw e
  end.

(** *** Orders of the leaderboards *)

(** [order by score desc]: no later entry has a higher score. *)
Definition descending (l : list (string * Z)) : Prop :=
  StronglySorted (fun a b => b.2 <= a.2) l.

(** [order by score asc]: no later entry has a lower score. *)
Definition ascending (l : list (string * Z)) : Prop :=
  StronglySorted (fun a b => a.2 <= b.2) l.

(** *** More concrete inputs *)

(** A table of six plates. *)
Definition six_rows : list PlateRow :=
  [mkPlate "A" 1 "t"; mkPlate "B" (-2) "t"; mkPlate "C" 3 "t";
   mkPlate "D" 0 "t"; mkPlate "E" (-1) "t"; mkPlate "F" 3 "t"].

Definition six_db : Database := mkDb (Some six_rows) (Some []) true.

(** A table of 51 plates with the scores 1 to 51. *)
Definition crowded_rows : list PlateRow :=
  (fun i => mkPlate (String (Ascii.ascii_of_nat (32 + i)) "") (Z.of_nat i) "t") <$> seq 1 51.

Definition crowded_db : Database := mkDb (Some crowded_rows) (Some []) true.

(** The votes table after one vote. *)
Definition one_vote : list VoteRow := [mkVote "id1" "ABC123" 1 "t1"].

(** A page whose image is current, on the reference engine. *)
Definition current_page : World :=
  persistDb (E := RefEngine.engine)
    (mkWorld (mkDb (Some [mkPlate "ABC123" 1 "t1"]) (Some one_vote) true) ∅).

(** * Properties *)

(** ** Normalization *)

Example normalize_surrounding : normalize " abc123 " = "ABC123".
Proof. reflexivity. Qed.

Example normalize_inner_space : normalize "abc 123" = "ABC 123".
Proof. reflexivity. Qed.

Example trim_keeps_inner : Js.trim (String "009" "  a b  " +:+ String "010" "") = "a b".
Proof. reflexivity. Qed.

Example normalize_digits_and_marks : normalize "k-9 xy" = "K-9 XY".
Proof. reflexivity. Qed.

(** ** Leaderboards on a small table *)

Example leaderboard_order :
  queryLeaderboard
    (mkDb (Some [mkPlate "A" 1 "t"; mkPlate "B" (-2) "t"; mkPlate "C" 3 "t";
                 mkPlate "D" 0 "t"; mkPlate "E" (-1) "t"; mkPlate "F" 3 "t"])
          (Some []) true)
  = (Ok (mkBoard [("C", 3); ("F", 3); ("A", 1)] [("B", -2); ("E", -1)]),
     mkDb (Some [mkPlate "A" 1 "t"; mkPlate "B" (-2) "t"; mkPlate "C" 3 "t";
                 mkPlate "D" 0 "t"; mkPlate "E" (-1) "t"; mkPlate "F" 3 "t"])
          (Some []) true).
Proof. reflexivity. Qed.

Example leaderboard_nul :
  (queryLeaderboard
     (mkDb (Some [mkPlate (String "A" (String "000" "B")) 1 "t";
                  mkPlate (String "A" (String "000" "C")) 1 "t"])
           (Some []) true)).1
  = Ok (mkBoard [("A", 1); ("A", 1)] []).
Proof. reflexivity. Qed.

Example leaderboard_no_table : (queryLeaderboard new_Database).1 = Throw (NoSuchTable "plates").
Proof. reflexivity. Qed.

Module JsFacts.
Import Js.

Lemma isWhiteSpace_upperChar c : isWhiteSpace (upperChar c) = isWhiteSpace c.
Proof. destruct c as [[] [] [] [] [] [] [] []]; reflexivity. Qed.

Lemma upperChar_idem c : upperChar (upperChar c) = upperChar c.
Proof. destruct c as [[] [] [] [] [] [] [] []]; reflexivity. Qed.

Lemma toUpperCase_idem s : toUpperCase (toUpperCase s) = toUpperCase s.
Proof. induction s as [|c r IH]; simpl; [done|]. by rewrite upperChar_idem, IH. Qed.

Lemma toUpperCase_app s t : toUpperCase (s +:+ t) = toUpperCase s +:+ toUpperCase t.
Proof. induction s as [|c r IH]; simpl; [done|]. by rewrite IH. Qed.

Lemma trimStart_toUpperCase s : trimStart (toUpperCase s) = toUpperCase (trimStart s).
Proof.
  induction s as [|c r IH]; simpl; [done|].
  rewrite isWhiteSpace_upperChar. by destruct (isWhiteSpace c).
Qed.

Lemma trimEnd_toUpperCase s : trimEnd (toUpperCase s) = toUpperCase (trimEnd s).
Proof.
  induction s as [|c r IH]; simpl; [done|].
  rewrite IH, isWhiteSpace_upperChar.
  destruct (trimEnd r); simpl; [by destruct (isWhiteSpace c)|done].
Qed.

Lemma trim_toUpperCase s : trim (toUpperCase s) = toUpperCase (trim s).
Proof. unfold trim. by rewrite trimStart_toUpperCase, trimEnd_toUpperCase. Qed.

Lemma trimEnd_idem s : trimEnd (trimEnd s) = trimEnd s.
Proof.
  induction s as [|c r IH]; simpl; [done|].
  destruct (trimEnd r) as [|c' r'] eqn:Hr.
  - destruct (isWhiteSpace c) eqn:Hc; simpl; [done|]. by rewrite Hc.
  - change (trimEnd (String c (String c' r'))) with
      (match trimEnd (String c' r') with
       | EmptyString => if isWhiteSpace c then EmptyString else String c EmptyString
       | r'' => String c r''
       end).
    by rewrite IH.
Qed.

Lemma trimStart_headed s : headed (trimStart s).
Proof. induction s as [|c r IH]; simpl; [done|]. by destruct (isWhiteSpace c) eqn:Hc. Qed.

Lemma headed_trimStart s : headed s -> trimStart s = s.
Proof. destruct s as [|c r]; simpl; [done|]. by intros ->. Qed.

Lemma headed_trimEnd s : headed s -> headed (trimEnd s).
Proof.
  destruct s as [|c r]; simpl; [done|]. intros Hc.
  rewrite Hc. by destruct (trimEnd r).
Qed.

Lemma trim_idem s : trim (trim s) = trim s.
Proof.
  unfold trim.
  rewrite (headed_trimStart (trimEnd (trimStart s))).
  - apply trimEnd_idem.
  - apply headed_trimEnd, trimStart_headed.
Qed.

Lemma allWhiteSpace_trimStart s : allWhiteSpace s = true -> trimStart s = EmptyString.
Proof.
  induction s as [|c r IH]; simpl; [done|].
  intros [Hc Hr]%andb_prop. rewrite Hc. auto.
Qed.

Lemma allWhiteSpace_trimEnd s : allWhiteSpace s = true -> trimEnd s = EmptyString.
Proof.
  induction s as [|c r IH]; simpl; [done|].
  intros [Hc Hr]%andb_prop. by rewrite IH, Hc.
Qed.

Lemma trimStart_app_l pre s : allWhiteSpace pre = true -> trimStart (pre +:+ s) = trimStart s.
Proof.
  induction pre as [|c r IH]; simpl; [done|].
  intros [Hc Hr]%andb_prop. rewrite Hc. auto.
Qed.

Lemma trimEnd_app_r s post : allWhiteSpace post = true -> trimEnd (s +:+ post) = trimEnd s.
Proof.
  intros Hp. induction s as [|c r IH]; simpl.
  - by apply allWhiteSpace_trimEnd.
  - by rewrite IH.
Qed.

Lemma trim_app_r s post : allWhiteSpace post = true -> trim (s +:+ post) = trim s.
Proof.
  intros Hp. unfold trim. induction s as [|c r IH]; simpl.
  - by rewrite allWhiteSpace_trimStart.
  - destruct (isWhiteSpace c); [done|].
    change (String c (r +:+ post)) with (String c r +:+ post).
    by apply trimEnd_app_r.
Qed.

Lemma trim_surrounding pre s post :
  allWhiteSpace pre = true -> allWhiteSpace post = true ->
  trim (pre +:+ s +:+ post) = trim s.
Proof.
  intros Hpre Hpost. unfold trim at 1. rewrite trimStart_app_l by done.
  by apply trim_app_r.
Qed.

Lemma sameLetter_upperChar a b : sameLetter a b = true -> upperChar a = upperChar b.
Proof.
  unfold sameLetter. destruct (Ascii.eqb a b) eqn:Hab.
  - apply Ascii.eqb_eq in Hab. by subst.
  - unfold upperChar, isLower, isUpper.
    intros [H|H]%orb_prop;
      apply andb_prop in H as [[H1 H2]%andb_prop H3];
      apply Nat.eqb_eq in H3;
      apply andb_prop in H1 as [H1a H1b]; apply andb_prop in H2 as [H2a H2b];
      apply Nat.leb_le in H1a, H1b, H2a, H2b.
    + rewrite H3.
      replace ((97 <=? nat_of_ascii b + 32)%nat && (nat_of_ascii b + 32 <=? 122)%nat) with true
        by (symmetry; apply andb_true_intro; split; apply Nat.leb_le; lia).
      replace ((97 <=? nat_of_ascii b)%nat && (nat_of_ascii b <=? 122)%nat) with false
        by (symmetry; apply andb_false_intro1, Nat.leb_gt; lia).
      replace (nat_of_ascii b + 32 - 32)%nat with (nat_of_ascii b) by lia.
      apply ascii_nat_embedding.
    + rewrite H3.
      replace ((97 <=? nat_of_ascii a + 32)%nat && (nat_of_ascii a + 32 <=? 122)%nat) with true
        by (symmetry; apply andb_true_intro; split; apply Nat.leb_le; lia).
      replace ((97 <=? nat_of_ascii a)%nat && (nat_of_ascii a <=? 122)%nat) with false
        by (symmetry; apply andb_false_intro1, Nat.leb_gt; lia).
      replace (nat_of_ascii a + 32 - 32)%nat with (nat_of_ascii a) by lia.
      symmetry. apply ascii_nat_embedding.
Qed.

Lemma eqIgnoreCase_toUpperCase s t : eqIgnoreCase s t = true -> toUpperCase s = toUpperCase t.
Proof.
  revert t. induction s as [|a s IH]; intros [|b t]; simpl; try done.
  intros [Hab Hst]%andb_prop. f_equal; [by apply sameLetter_upperChar|auto].
Qed.

Lemma truthy_false s : truthy s = false <-> s = EmptyString.
Proof. by destruct s. Qed.

End JsFacts.

Lemma normalize_idem s : normalize (normalize s) = normalize s.
Proof.
  unfold normalize.
  by rewrite JsFacts.trim_toUpperCase, JsFacts.toUpperCase_idem, JsFacts.trim_idem.
Qed.

Lemma normalize_surrounding_case pre post s t :
  Js.allWhiteSpace pre = true -> Js.allWhiteSpace post = true ->
  Js.eqIgnoreCase s t = true ->
  normalize (pre +:+ s +:+ post) = normalize t.
Proof.
  intros Hpre Hpost Hst. unfold normalize.
  rewrite JsFacts.trim_surrounding by done.
  rewrite <- !JsFacts.trim_toUpperCase. f_equal.
  by apply JsFacts.eqIgnoreCase_toUpperCase.
Qed.

Lemma normalize_blank s : Js.allWhiteSpace s = true -> normalize s = "".
Proof.
  intros Hs. unfold normalize, Js.trim. by rewrite JsFacts.allWhiteSpace_trimStart.
Qed.

(** ** One call of addVote *)

(** [addVote] on a store with both tables, statement by statement. *)
Lemma addVote_steps plate v a ps vs ix :
  normalize plate <> "" ->
  addVote plate v a (mkDb (Some ps) (Some vs) ix) =
    let p := normalize plate in
    if negb (value_check v)
    then (Throw (CheckFailed "votes"), mkDb (Some (scored p v a ps)) (Some vs) ix)
    else if bool_decide (uuid a ∈ vote_ids vs)
    then (Throw (UniqueFailed "votes.id"), mkDb (Some (scored p v a ps)) (Some vs) ix)
    else (Ok tt, mkDb (Some (scored p v a ps))
                      (Some (vs ++ [mkVote (uuid a) p v (now_insert a)])) ix).
Proof.
  intros Hp. unfold addVote.
  destruct (Js.truthy (normalize plate)) eqn:Ht.
  2:{ apply JsFacts.truthy_false in Ht. done. }
  cbn [negb]. unfold scored, ensured, ensurePlateRow, bind, select_plate_step,
    insert_plate, update_score, insert_vote, ret. cbn.
  destruct (bool_decide (normalize plate ∈ plate_keys ps)) eqn:Hin; cbn.
  - destruct (value_check v); cbn; [|done].
    by destruct (bool_decide (uuid a ∈ vote_ids vs)).
  - rewrite Hin. cbn.
    destruct (value_check v); cbn; [|done].
    by destruct (bool_decide (uuid a ∈ vote_ids vs)).
Qed.

Lemma addVote_blank plate v a d :
  normalize plate = "" -> addVote plate v a d = (Throw PlateRequired, d).
Proof. intros Hp. unfold addVote. by rewrite Hp. Qed.

Lemma is_delta_check v : is_delta v <-> value_check v = true.
Proof.
  unfold is_delta, value_check. rewrite orb_true_iff, !Z.eqb_eq. tauto.
Qed.

(** A vote of [+1] or [-1] with a new uuid returns. *)
Lemma addVote_ok plate v a ps vs ix :
  normalize plate <> "" -> is_delta v -> uuid a ∉ vote_ids vs ->
  addVote plate v a (mkDb (Some ps) (Some vs) ix)
  = (Ok tt, mkDb (Some (scored (normalize plate) v a ps))
                 (Some (vs ++ [mkVote (uuid a) (normalize plate) v (now_insert a)])) ix).
Proof.
  intros Hp Hv Hid. rewrite addVote_steps by done. cbn zeta.
  apply is_delta_check in Hv as ->. cbn [negb].
  by rewrite bool_decide_eq_false_2.
Qed.

Lemma plate_keys_bump p v t rows : plate_keys (bump p v t <$> rows) = plate_keys rows.
Proof.
  unfold plate_keys. rewrite <- list_fmap_compose. apply list_fmap_ext.
  intros i r _. unfold bump. simpl. by case_bool_decide.
Qed.

Lemma plate_keys_ensured p t rows q :
  q ∈ plate_keys (ensured p t rows) <-> q = p \/ q ∈ plate_keys rows.
Proof.
  unfold ensured. case_bool_decide as Hin.
  - split; [auto|]. intros [->|]; done.
  - unfold plate_keys. rewrite fmap_app, elem_of_app. simpl.
    rewrite list_elem_of_singleton. tauto.
Qed.

Lemma plate_keys_scored p v a rows q :
  q ∈ plate_keys (scored p v a rows) <-> q = p \/ q ∈ plate_keys rows.
Proof. unfold scored. rewrite plate_keys_bump. apply plate_keys_ensured. Qed.

Lemma NoDup_plate_keys_scored p v a rows :
  NoDup (plate_keys rows) -> NoDup (plate_keys (scored p v a rows)).
Proof.
  intros Hnd. unfold scored. rewrite plate_keys_bump. unfold ensured.
  case_bool_decide as Hin; [done|].
  unfold plate_keys. rewrite fmap_app. apply NoDup_app. split_and!; [done| |].
  - intros x Hx ->%list_elem_of_singleton. done.
  - apply NoDup_singleton.
Qed.

Lemma filter_bump_same p v t (rows : list PlateRow) :
  filter (fun r => p_plate_text r = p) (bump p v t <$> rows)
  = bump p v t <$> filter (fun r => p_plate_text r = p) rows.
Proof.
  induction rows as [|r rows IH]; [done|]. rewrite fmap_cons.
  destruct (decide (p_plate_text r = p)) as [Hr|Hr].
  - rewrite !filter_cons_True; [|done|].
    + by rewrite fmap_cons, IH.
    + unfold bump. by case_bool_decide.
  - rewrite !filter_cons_False; [done|done|].
    unfold bump. by case_bool_decide.
Qed.

Lemma filter_bump_other p q v t (rows : list PlateRow) :
  q <> p ->
  filter (fun r => p_plate_text r = q) (bump p v t <$> rows)
  = filter (fun r => p_plate_text r = q) rows.
Proof.
  intros Hq. induction rows as [|r rows IH]; [done|]. rewrite fmap_cons.
  unfold bump at 1. case_bool_decide as Hr.
  - rewrite !filter_cons_False; [done| |]; simpl; congruence.
  - destruct (decide (p_plate_text r = q)).
    + rewrite !filter_cons_True by done. by rewrite IH.
    + rewrite !filter_cons_False by done. done.
Qed.

Lemma filter_absent p (rows : list PlateRow) :
  p ∉ plate_keys rows -> filter (fun r => p_plate_text r = p) rows = [].
Proof.
  intros Hp. induction rows as [|r rows IH]; [done|].
  unfold plate_keys in Hp. rewrite fmap_cons, not_elem_of_cons in Hp.
  destruct Hp as [Hr Hp]. rewrite filter_cons_False by congruence. auto.
Qed.

Lemma row_score_present p rows :
  p ∈ plate_keys rows -> is_Some (row_score p rows).
Proof.
  intros (r & -> & Hr)%list_elem_of_fmap. unfold row_score.
  destruct (filter (fun r0 => p_plate_text r0 = p_plate_text r) rows) as [|x l] eqn:Hf.
  - exfalso. eapply filter_nil_not_elem_of; [exact Hf| |exact Hr]. done.
  - simpl. eauto.
Qed.

Lemma row_score_absent p rows : p ∉ plate_keys rows -> row_score p rows = None.
Proof. intros Hp. unfold row_score. by rewrite filter_absent. Qed.

(** The row of the plate voted for: its score moves by [v], from 0 when the
    row is new. *)
Lemma row_score_scored_same p v a rows :
  row_score p (scored p v a rows) = Some (default 0 (row_score p rows) + v).
Proof.
  unfold scored, row_score. rewrite filter_bump_same. unfold ensured.
  case_bool_decide as Hin.
  - destruct (row_score_present p rows Hin) as [s Hs]. unfold row_score in Hs.
    destruct (filter (fun r => p_plate_text r = p) rows) as [|r l] eqn:Hf; [done|].
    simpl in *. unfold bump. case_bool_decide as Hr; simpl; [congruence|].
    exfalso. apply Hr.
    assert (r ∈ filter (fun r0 => p_plate_text r0 = p) rows) as Hm by (rewrite Hf; left).
    by apply list_elem_of_filter in Hm as [? _].
  - rewrite filter_app, filter_absent by done. simpl.
    rewrite filter_cons_True by done. simpl. unfold bump.
    by case_bool_decide.
Qed.

(** The other rows keep their score. *)
Lemma row_score_scored_other p q v a rows :
  q <> p -> row_score q (scored p v a rows) = row_score q rows.
Proof.
  intros Hq. unfold scored, row_score. rewrite filter_bump_other by done.
  unfold ensured. case_bool_decide; [done|].
  rewrite filter_app. simpl. rewrite filter_cons_False by (simpl; congruence).
  by rewrite app_nil_r.
Qed.

Lemma length_scored p v a rows :
  length (scored p v a rows)
  = (length rows + if bool_decide (p ∈ plate_keys rows) then 0 else 1)%nat.
Proof.
  unfold scored, ensured. rewrite length_fmap.
  case_bool_decide; [lia|]. rewrite length_app. simpl. lia.
Qed.

(** ** Reachable stores *)

Lemma reset_result d : (reset_drop ;; reset_create) d = (Ok tt, fresh_db).
Proof. by destruct d as [[?|] [?|] ?]. Qed.

Lemma queryLeaderboard_pure d : (queryLeaderboard d).2 = d.
Proof.
  unfold queryLeaderboard, bind, select_best, select_worst, ret.
  destruct (plates d) eqn:Hp; simpl; [|done]. by rewrite Hp.
Qed.

Lemma votes_sum_app p vs ws : votes_sum p (vs ++ ws) = votes_sum p vs + votes_sum p ws.
Proof.
  unfold votes_sum. rewrite filter_app, fmap_app.
  generalize (v_value <$> filter (fun r => v_plate_text r = p) vs) as xs.
  intros xs. induction xs as [|x xs IH]; simpl; [done|]. unfold sumZ in *. lia.
Qed.

Lemma votes_sum_one p r :
  votes_sum p [r] = if bool_decide (v_plate_text r = p) then v_value r else 0.
Proof.
  unfold votes_sum. case_bool_decide.
  - rewrite filter_cons_True by done. simpl. lia.
  - by rewrite filter_cons_False.
Qed.

Lemma votes_sum_absent p (vs : list VoteRow) : p ∉ v_plate_text <$> vs -> votes_sum p vs = 0.
Proof.
  intros Hp. unfold votes_sum.
  induction vs as [|r vs IH]; [done|].
  rewrite fmap_cons, not_elem_of_cons in Hp. destruct Hp as [Hr Hp].
  rewrite filter_cons_False by congruence. auto.
Qed.

Lemma consistent_fresh : consistent fresh_db [].
Proof.
  apply (Consistent [] []); try done.
  - apply NoDup_nil_2.
  - apply NoDup_nil_2.
  - intros q Hq. by apply elem_of_nil in Hq.
Qed.

Lemma consistent_vote d l plate v a :
  consistent d l -> is_delta v -> fresh_uuid a d ->
  consistent (addVote plate v a d).2 (logged (addVote plate v a d).1 (normalize plate, v) l).
Proof.
  intros [ps vs Hk Hi Hd Hs Hr] Hv Hf.
  destruct (decide (normalize plate = "")) as [Hp|Hp].
  { rewrite addVote_blank by done. simpl. by constructor. }
  rewrite addVote_steps by done. cbn zeta.
  apply is_delta_check in Hv as Hc. rewrite Hc. cbn [negb].
  unfold fresh_uuid, ids_of in Hf. simpl in Hf.
  rewrite bool_decide_eq_false_2 by done. simpl.
  set (p := normalize plate) in *.
  replace (log_of vs ++ [(p, v)])
    with (log_of (vs ++ [mkVote (uuid a) p v (now_insert a)]))
    by (unfold log_of; by rewrite fmap_app).
  apply Consistent.
  - by apply NoDup_plate_keys_scored.
  - unfold vote_ids. rewrite fmap_app. apply NoDup_app. split_and!; [done| |].
    + intros x Hx ->%list_elem_of_singleton. done.
    + apply NoDup_singleton.
  - apply Forall_app. split; [done|]. by apply Forall_singleton.
  - intros q Hq. rewrite votes_sum_app, votes_sum_one. simpl.
    destruct (decide (q = p)) as [->|Hqp].
    + rewrite row_score_scored_same, bool_decide_eq_true_2 by done.
      destruct (decide (p ∈ plate_keys ps)) as [Hin|Hin].
      * by rewrite (Hs p Hin).
      * rewrite row_score_absent by done. simpl.
        rewrite votes_sum_absent; [done|]. by rewrite <- Hr.
    + apply plate_keys_scored in Hq as [?|Hq]; [done|].
      rewrite row_score_scored_other, bool_decide_eq_false_2 by done.
      rewrite (Hs q Hq). f_equal. lia.
  - intros q. rewrite plate_keys_scored, fmap_app, elem_of_app, Hr. simpl.
    rewrite list_elem_of_singleton. tauto.
Qed.

Lemma reachable_consistent d l : reachable d l -> consistent d l.
Proof.
  induction 1 as [|d l plate v a _ IH Hv Hf|d l _ IH|d l _ IH].
  - apply consistent_fresh.
  - by apply consistent_vote.
  - by rewrite queryLeaderboard_pure.
  - rewrite reset_result. apply consistent_fresh.
Qed.

Lemma row_score_member (ps : list PlateRow) r :
  NoDup (plate_keys ps) -> r ∈ ps -> row_score (p_plate_text r) ps = Some (p_score r).
Proof.
  unfold row_score. induction ps as [|x ps IH]; intros Hnd Hr.
  - by apply elem_of_nil in Hr.
  - unfold plate_keys in Hnd. rewrite fmap_cons in Hnd. apply NoDup_cons in Hnd as [Hx Hnd].
    apply elem_of_cons in Hr as [->|Hr].
    + by rewrite filter_cons_True.
    + rewrite filter_cons_False; [by apply IH|].
      intros Heq. apply Hx. rewrite Heq. by apply list_elem_of_fmap_2.
Qed.

Lemma sumZ_bound (l : list Z) :
  Forall (fun x => x = 1 \/ x = -1) l -> Z.abs (sumZ l) <= Z.of_nat (length l).
Proof.
  induction 1 as [|x l Hx _ IH]; simpl; [lia|]. unfold sumZ in *. lia.
Qed.

(** X7. In every reachable store the score of a plate does not exceed, in
    absolute value, the number of votes recorded: scores stay far inside the
    64-bit integers of the engine. *)
Lemma reachable_score_bound d l r :
  reachable d l -> r ∈ default [] (plates d) -> Z.abs (p_score r) <= Z.of_nat (vote_count d).
Proof.
  intros [ps vs Hk Hi Hd Hs Hr]%reachable_consistent Hin. simpl in *.
  unfold vote_count. simpl.
  pose proof (row_score_member ps r Hk Hin) as Hsc.
  rewrite Hs in Hsc by (by apply list_elem_of_fmap_2).
  injection Hsc as <-. unfold votes_sum.
  etrans.
  - apply sumZ_bound. apply Forall_fmap, Forall_forall.
    intros x [_ Hx]%list_elem_of_filter. rewrite Forall_forall in Hd. by apply Hd.
  - rewrite length_fmap. pose proof (length_filter (fun r0 => v_plate_text r0 = p_plate_text r) vs).
    lia.
Qed.

Lemma score_of_tables p ps vs ix : score_of p (mkDb (Some ps) vs ix) = row_score p ps.
Proof. done. Qed.

(** A run of votes on one plate, from any store with both tables. *)
Lemma addVotes_score p (vs : list (Z * Ambient)) :
  normalize p = p -> p <> "" ->
  Forall (fun va => is_delta va.1) vs ->
  NoDup (uuid ∘ snd <$> vs) ->
  forall ps ws ix,
    (forall i, i ∈ uuid ∘ snd <$> vs -> i ∉ vote_ids ws) ->
    exists ps' ws',
      addVotes p vs (mkDb (Some ps) (Some ws) ix) = (Ok tt, mkDb (Some ps') (Some ws') ix)
      /\ row_score p ps' =
           match vs with
           | [] => row_score p ps
           | _ => Some (default 0 (row_score p ps) + sumZ (fst <$> vs))
           end.
Proof.
  intros Hn Hp Hd. induction Hd as [|[v a] vs Hv _ IH]; intros Hnd ps ws ix Hfresh.
  - exists ps, ws. done.
  - rewrite fmap_cons in Hnd. apply NoDup_cons in Hnd as [Ha Hnd]. simpl in Ha, Hv.
    simpl. unfold bind. rewrite addVote_steps by congruence. cbn zeta.
    apply is_delta_check in Hv as ->. cbn [negb].
    rewrite bool_decide_eq_false_2 by (apply Hfresh; rewrite fmap_cons; left).
    rewrite Hn.
    destruct (IH Hnd (scored p v a ps) (ws ++ [mkVote (uuid a) p v (now_insert a)]) ix)
      as (ps' & ws' & Hrun & Hscore).
    { intros i Hi. unfold vote_ids. rewrite fmap_app, elem_of_app. simpl.
      rewrite list_elem_of_singleton. intros [Hw| ->].
      - revert Hw. apply Hfresh. rewrite fmap_cons. by right.
      - done. }
    exists ps', ws'. split; [done|].
    rewrite Hscore, row_score_scored_same.
    destruct vs as [|va vs']; simpl.
    + f_equal. lia.
    + f_equal. unfold sumZ. simpl. lia.
Qed.

(** C1. For every normalized plate [p] and every run of votes [d1..dn] of
    [+1] and [-1] recorded by [addVote] from the first boot (each with a new
    uuid), every call returns and the score of the plates row of [p] is
    [d1 + ... + dn]; and in every reachable store the score of each plates
    row is the sum of [value] over the votes rows with its [plate_text]. *)
Theorem score_is_sum_of_votes :
  (forall p (vs : list (Z * Ambient)),
     normalize p = p -> p <> "" -> vs <> [] ->
     Forall (fun va => is_delta va.1) vs ->
     NoDup (uuid ∘ snd <$> vs) ->
     (addVotes p vs fresh_db).1 = Ok tt
     /\ score_of p (addVotes p vs fresh_db).2 = Some (sumZ (fst <$> vs)))
  /\ (forall d l, reachable d l ->
      forall r, r ∈ default [] (plates d) ->
        p_score r = votes_sum (p_plate_text r) (default [] (votes d))).
Proof.
  split.
  - intros p vs Hn Hp Hne Hd Hnd.
    destruct (addVotes_score p vs Hn Hp Hd Hnd [] [] true) as (ps' & ws' & Hrun & Hs).
    { intros i _ Hi. by apply elem_of_nil in Hi. }
    change fresh_db with (mkDb (Some []) (Some []) true). rewrite Hrun. simpl.
    split; [done|]. rewrite score_of_tables, Hs. destruct vs; [done|].
    simpl. f_equal.
  - intros d l [ps vs Hk Hi Hd Hs Hr]%reachable_consistent r Hin. simpl in *.
    pose proof (row_score_member ps r Hk Hin) as Hsc.
    rewrite Hs in Hsc by (by apply list_elem_of_fmap_2). congruence.
Qed.

(** C4. In every reachable store, a plates row with a given [plate_text]
    exists if and only if a vote on that plate has been recorded since the
    last reset (or the first boot); the votes table holds exactly these
    votes. *)
Theorem plate_row_iff_vote_recorded d l :
  reachable d l ->
  exists ps vs,
    plates d = Some ps /\ votes d = Some vs /\ log_of vs = l
    /\ forall p, p ∈ plate_keys ps <-> exists v, (p, v) ∈ l.
Proof.
  intros [ps vs Hk Hi Hd Hs Hr]%reachable_consistent.
  exists ps, vs. split_and!; try done.
  intros p. rewrite Hr. unfold log_of. split.
  - intros (r & -> & Hin)%list_elem_of_fmap. exists (v_value r).
    apply list_elem_of_fmap. by exists r.
  - intros (v & (r & [= -> ->] & Hin)%list_elem_of_fmap).
    by apply list_elem_of_fmap_2.
Qed.

(** C7. For every input that is empty or white space only, that is, whose
    normal form is empty, [addVote] throws "Plate required" (InvalidInput)
    and the store is the one before the call: same plates and votes, same
    row counts. *)
Theorem blank_plate_rejected plate v a d :
  Js.allWhiteSpace plate = true \/ normalize plate = "" ->
  normalize plate = ""
  /\ (addVote plate v a d).1 = Throw PlateRequired
  /\ InvalidInput PlateRequired
  /\ (addVote plate v a d).2 = d
  /\ plate_count (addVote plate v a d).2 = plate_count d
  /\ vote_count (addVote plate v a d).2 = vote_count d.
Proof.
  intros H.
  assert (normalize plate = "") as Hn by (destruct H; [by apply normalize_blank|done]).
  rewrite addVote_blank by done. done.
Qed.

(** ** Plate text: code points, their normal form and their bytes *)

Module UnicodeFacts.
(* The store's [normalize] and [addVote], which [Unicode] has under the same names. *)
Local Notation store_normalize := normalize (only parsing).
Local Notation store_addVote := addVote (only parsing).
Import Unicode.
Local Open Scope N_scope.

Lemma upper_table_ok : casing_ok upper_table = true.
Proof. by vm_compute. Qed.

Lemma assoc_elem c t l : assoc c t = Some l -> (c, l) ∈ t.
Proof.
  induction t as [|[k l'] t IH]; simpl; [done|].
  destruct (N.eqb_spec k c) as [->|_].
  - intros [= ->]. left.
  - intros H. right. auto.
Qed.

(** Trimming. *)

Lemma cp_trimStart_letters xs ys :
  forallb (fun c => negb (isWhiteSpace c)) xs = true -> xs <> [] ->
  trimStart (xs ++ ys) = xs ++ ys.
Proof.
  destruct xs as [|x xs]; [done|]. simpl.
  intros [Hx _]%andb_prop _. apply negb_true_iff in Hx. by rewrite Hx.
Qed.

Lemma cp_trimEnd_letters xs ys :
  forallb (fun c => negb (isWhiteSpace c)) xs = true ->
  trimEnd (xs ++ ys) = xs ++ trimEnd ys.
Proof.
  induction xs as [|x xs IH]; simpl; [done|].
  intros [Hx Hxs]%andb_prop. apply negb_true_iff in Hx.
  rewrite IH by done. rewrite Hx. by destruct (xs ++ trimEnd ys).
Qed.

Lemma cp_trimEnd_idem s : trimEnd (trimEnd s) = trimEnd s.
Proof.
  induction s as [|c r IH]; simpl; [done|].
  destruct (trimEnd r) as [|c' r'] eqn:Hr.
  - destruct (isWhiteSpace c) eqn:Hc; simpl; [done|]. by rewrite Hc.
  - change (trimEnd (c :: c' :: r')) with
      (match trimEnd (c' :: r') with
       | [] => if isWhiteSpace c then [] else [c]
       | r'' => c :: r''
       end).
    by rewrite IH.
Qed.

Lemma cp_trimStart_headed s : headed (trimStart s).
Proof. induction s as [|c r IH]; simpl; [done|]. by destruct (isWhiteSpace c) eqn:Hc. Qed.

Lemma cp_headed_trimStart s : headed s -> trimStart s = s.
Proof. destruct s as [|c r]; simpl; [done|]. by intros ->. Qed.

Lemma cp_headed_trimEnd s : headed s -> headed (trimEnd s).
Proof.
  destruct s as [|c r]; simpl; [done|]. intros Hc.
  rewrite Hc. by destruct (trimEnd r).
Qed.

Lemma cp_trim_headed s : headed (trim s).
Proof. apply cp_headed_trimEnd, cp_trimStart_headed. Qed.

Lemma cp_trim_idem s : trim (trim s) = trim s.
Proof.
  unfold trim at 1. rewrite (cp_headed_trimStart (trim s)) by apply cp_trim_headed.
  apply cp_trimEnd_idem.
Qed.

Lemma cp_allWhiteSpace_trimStart s : allWhiteSpace s = true -> trimStart s = [].
Proof.
  induction s as [|c r IH]; simpl; [done|].
  intros [Hc Hr]%andb_prop. rewrite Hc. auto.
Qed.

Lemma cp_allWhiteSpace_trimEnd s : allWhiteSpace s = true -> trimEnd s = [].
Proof.
  induction s as [|c r IH]; simpl; [done|].
  intros [Hc Hr]%andb_prop. by rewrite IH, Hc.
Qed.

Lemma cp_trimStart_app_l pre s :
  allWhiteSpace pre = true -> trimStart (pre ++ s) = trimStart s.
Proof.
  induction pre as [|c r IH]; simpl; [done|].
  intros [Hc Hr]%andb_prop. rewrite Hc. auto.
Qed.

Lemma cp_trimEnd_app_r s post :
  allWhiteSpace post = true -> trimEnd (s ++ post) = trimEnd s.
Proof.
  intros Hp. induction s as [|c r IH]; simpl.
  - by apply cp_allWhiteSpace_trimEnd.
  - by rewrite IH.
Qed.

Lemma cp_trim_app_r s post : allWhiteSpace post = true -> trim (s ++ post) = trim s.
Proof.
  intros Hp. unfold trim. induction s as [|c r IH]; simpl.
  - by rewrite cp_allWhiteSpace_trimStart.
  - destruct (isWhiteSpace c); [done|].
    change (c :: r ++ post) with ((c :: r) ++ post).
    by apply cp_trimEnd_app_r.
Qed.

Lemma cp_trim_surrounding pre s post :
  allWhiteSpace pre = true -> allWhiteSpace post = true ->
  trim (pre ++ s ++ post) = trim s.
Proof.
  intros Hpre Hpost. unfold trim at 1. rewrite cp_trimStart_app_l by done.
  by apply cp_trim_app_r.
Qed.

Lemma wellFormed_trimStart s : wellFormed s = true -> wellFormed (trimStart s) = true.
Proof.
  induction s as [|c r IH]; simpl; [done|].
  intros [Hc Hr]%andb_prop. destruct (isWhiteSpace c); [auto|].
  simpl. by rewrite Hc, Hr.
Qed.

Lemma wellFormed_trimEnd s : wellFormed s = true -> wellFormed (trimEnd s) = true.
Proof.
  induction s as [|c r IH]; simpl; [done|].
  intros [Hc Hr]%andb_prop. specialize (IH Hr).
  destruct (trimEnd r) as [|c' r'].
  - destruct (isWhiteSpace c); simpl; [done|]. by rewrite Hc.
  - change (wellFormed (c :: c' :: r')) with (isScalar c && wellFormed (c' :: r')).
    by rewrite Hc, IH.
Qed.

(** Bytes and characters of the store. *)

Lemma high_char a :
  (128 <=? N_of_ascii a) = true -> Js.isWhiteSpace a = false /\ Js.upperChar a = a.
Proof.
  destruct a as [[] [] [] [] [] [] [] []]; intros H; vm_compute in H;
    try discriminate H; split; reflexivity.
Qed.

Lemma low_char a :
  (nat_of_ascii a <? 128)%nat = true ->
  Js.isWhiteSpace a = isWhiteSpace (N_of_ascii a)
  /\ N_of_ascii (Js.upperChar a) = asciiUpper (N_of_ascii a).
Proof.
  destruct a as [[] [] [] [] [] [] [] []]; intros H; vm_compute in H;
    try discriminate H; split; reflexivity.
Qed.

Lemma low_nat a : (nat_of_ascii a <? 128)%nat = true -> N_of_ascii a < 128.
Proof. unfold nat_of_ascii. intros H%Nat.ltb_lt. lia. Qed.

Lemma high_ws n : 128 <= n < 256 -> Js.isWhiteSpace (ascii_of_N n) = false.
Proof.
  intros [H1 H2]. apply high_char. rewrite N_ascii_embedding by done. by apply N.leb_le.
Qed.

Lemma high_up n : 128 <= n < 256 -> Js.upperChar (ascii_of_N n) = ascii_of_N n.
Proof.
  intros [H1 H2]. apply high_char. rewrite N_ascii_embedding by done. by apply N.leb_le.
Qed.

Lemma low_byte n :
  n < 128 ->
  Js.isWhiteSpace (ascii_of_N n) = isWhiteSpace n
  /\ N_of_ascii (Js.upperChar (ascii_of_N n)) = asciiUpper n.
Proof.
  intros Hn. assert (N_of_ascii (ascii_of_N n) = n) as He
    by (apply N_ascii_embedding; lia).
  rewrite <- He at 2 4. apply low_char. unfold nat_of_ascii. rewrite He.
  apply Nat.ltb_lt. lia.
Qed.

Lemma lead2 u : u <= 2047 -> 128 <= 192 + u / 64 < 256.
Proof.
  intros. assert (u / 64 < 32) by (apply N.Div0.div_lt_upper_bound; lia).
  generalize dependent (u / 64). intros; lia.
Qed.

Lemma lead3 u : u <= 65535 -> 128 <= 224 + u / 4096 < 256.
Proof.
  intros. assert (u / 4096 < 16) by (apply N.Div0.div_lt_upper_bound; lia).
  generalize dependent (u / 4096). intros; lia.
Qed.

Lemma lead4 u : 128 <= 240 + u mod 8 < 256.
Proof.
  pose proof (N.mod_upper_bound u 8). generalize dependent (u mod 8). intros; lia.
Qed.

Lemma cont u : 128 <= 128 + u mod 64 < 256.
Proof.
  pose proof (N.mod_upper_bound u 64). generalize dependent (u mod 64). intros; lia.
Qed.

Ltac high_bound :=
  first [ apply cont | apply lead4 | apply lead2; lia | apply lead3; lia ].

Lemma trimEnd_letter b k :
  Js.isWhiteSpace b = false -> Js.trimEnd (String b k) = String b (Js.trimEnd k).
Proof. intros Hb. simpl. rewrite Hb. by destruct (Js.trimEnd k). Qed.

Lemma utf8_low c k : c <= 127 -> utf8 c k = String (ascii_of_N c) k.
Proof. intros Hc. unfold utf8. by rewrite (proj2 (N.leb_le _ _) Hc). Qed.

Lemma utf8_truthy c k : Js.truthy (utf8 c k) = true.
Proof. unfold utf8. by repeat case_match. Qed.

Lemma encode_truthy s : Js.truthy (encode s) = truthy s.
Proof. destruct s as [|c r]; simpl; [done|]. apply utf8_truthy. Qed.

Lemma trimStart_utf8 c k : isWhiteSpace c = false -> Js.trimStart (utf8 c k) = utf8 c k.
Proof.
  intros Hc. unfold utf8. destruct (N.leb_spec c 127).
  - cbn [Js.trimStart]. destruct (low_byte c) as [-> _]; [lia|]. by rewrite Hc.
  - destruct (N.leb_spec c 2047); [|destruct (N.leb_spec c 65535)];
      cbn [Js.trimStart]; by rewrite high_ws by high_bound.
Qed.

Lemma trimEnd_utf8 c k :
  (c <= 127 -> isWhiteSpace c = false) ->
  Js.trimEnd (utf8 c k) = utf8 c (Js.trimEnd k).
Proof.
  intros Hc. unfold utf8. destruct (N.leb_spec c 127).
  - apply trimEnd_letter. destruct (low_byte c) as [-> _]; [lia|]. auto.
  - destruct (N.leb_spec c 2047); [|destruct (N.leb_spec c 65535)];
      by rewrite !trimEnd_letter by (apply high_ws; high_bound).
Qed.

Lemma trimStart_encode s : headed s -> Js.trimStart (encode s) = encode s.
Proof. destruct s as [|c r]; simpl; [done|]. apply trimStart_utf8. Qed.

Lemma trimEnd_encode s : trimEnd s = s -> Js.trimEnd (encode s) = encode s.
Proof.
  induction s as [|c r IH]; [done|]. intros H. cbn [trimEnd] in H.
  assert (trimEnd r = r) as Hr.
  { destruct (trimEnd r) as [|c' r'] eqn:E.
    - destruct (isWhiteSpace c); [done|]. by injection H as H.
    - by injection H as H. }
  cbn [encode]. destruct (N.leb_spec c 127) as [Hlow|Hhigh].
  - destruct (isWhiteSpace c) eqn:Hc.
    + rewrite utf8_low by done. cbn [Js.trimEnd]. rewrite (IH Hr).
      rewrite Hr in H. destruct r as [|c' r']; [done|].
      pose proof (utf8_truthy c' (encode r')) as Ht. cbn [encode].
      by destruct (utf8 c' (encode r')).
    + rewrite trimEnd_utf8 by done. by rewrite (IH Hr).
  - rewrite trimEnd_utf8 by lia. by rewrite (IH Hr).
Qed.

Lemma ascii_space c :
  (nat_of_ascii c <? 128)%nat = true -> isWhiteSpace (N_of_ascii c) = Js.isWhiteSpace c.
Proof. intros H. by destruct (low_char c H) as [-> _]. Qed.

Lemma codes_trimStart s :
  Js.isAscii s = true ->
  trimStart (codes s) = codes (Js.trimStart s) /\ Js.isAscii (Js.trimStart s) = true.
Proof.
  induction s as [|c s IH]; simpl; [done|].
  intros [Hc Hs]%andb_prop. rewrite ascii_space by done.
  destruct (Js.isWhiteSpace c); [auto|]. simpl. by rewrite Hc, Hs.
Qed.

Lemma codes_trimEnd s :
  Js.isAscii s = true ->
  trimEnd (codes s) = codes (Js.trimEnd s) /\ Js.isAscii (Js.trimEnd s) = true.
Proof.
  induction s as [|c s IH]; simpl; [done|].
  intros [Hc Hs]%andb_prop. destruct (IH Hs) as [-> Ha]. rewrite ascii_space by done.
  destruct (Js.trimEnd s) as [|c' r'] eqn:Hr; simpl.
  - destruct (Js.isWhiteSpace c); simpl; [done|]. by rewrite Hc.
  - simpl in Ha. by rewrite Hc, Ha.
Qed.

(** Upper case, for a mapping that passes the check. *)

Section Casing.
Variable t : Casing.
Hypothesis Hok : casing_ok t = true.

Lemma table_entry c l : assoc c t = Some l -> entry_ok t (c, l) = true.
Proof.
  intros H%assoc_elem%list_elem_of_In.
  pose proof Hok as [H1 _]%andb_prop.
  by apply (proj1 (forallb_forall (entry_ok t) t) H1).
Qed.

Lemma ascii_entry c : c < 128 -> toUppercase t c = [asciiUpper c].
Proof.
  intros Hc. pose proof Hok as [_ H2]%andb_prop.
  apply (bool_decide_eq_true_1 (toUppercase t c = [asciiUpper c])).
  apply (proj1 (forallb_forall _ ascii_range) H2).
  apply list_elem_of_In, list_elem_of_fmap. exists (N.to_nat c). split; [lia|].
  apply elem_of_seq. lia.
Qed.

Lemma toUppercase_space c : isWhiteSpace c = true -> toUppercase t c = [c].
Proof.
  intros Hc. unfold toUppercase. destruct (assoc c t) as [l|] eqn:Hl; [|done].
  apply table_entry in Hl. unfold entry_ok in Hl. simpl in Hl. by rewrite Hc in Hl.
Qed.

Lemma toUppercase_letter c :
  isWhiteSpace c = false ->
  exists x xs, toUppercase t c = x :: xs
               /\ forallb (fun c => negb (isWhiteSpace c)) (x :: xs) = true.
Proof.
  intros Hc. unfold toUppercase. destruct (assoc c t) as [l|] eqn:Hl.
  - apply table_entry in Hl. unfold entry_ok in Hl. simpl in Hl.
    apply andb_prop in Hl as [[[[_ Hne]%andb_prop Hws]%andb_prop _]%andb_prop _].
    destruct l as [|x xs]; [done|]. eauto.
  - exists c, []. split; [done|]. simpl. by rewrite Hc.
Qed.

Lemma toUppercase_nonempty c : toUppercase t c <> [].
Proof.
  destruct (isWhiteSpace c) eqn:Hc.
  - by rewrite toUppercase_space.
  - by destruct (toUppercase_letter c Hc) as (x & xs & -> & _).
Qed.

Lemma toUppercase_scalar c :
  isScalar c = true -> forallb isScalar (toUppercase t c) = true.
Proof.
  intros Hc. unfold toUppercase. destruct (assoc c t) as [l|] eqn:Hl.
  - apply table_entry in Hl. unfold entry_ok in Hl. simpl in Hl.
    by apply andb_prop in Hl as [_ Hl].
  - simpl. by rewrite Hc.
Qed.

Lemma cp_toUpperCase_app s u :
  toUpperCase t (s ++ u) = toUpperCase t s ++ toUpperCase t u.
Proof. induction s as [|c s IH]; simpl; [done|]. by rewrite IH, app_assoc. Qed.

Lemma toUppercase_idem c : toUpperCase t (toUppercase t c) = toUppercase t c.
Proof.
  unfold toUppercase. destruct (assoc c t) as [l|] eqn:Hl.
  - apply table_entry in Hl. unfold entry_ok in Hl. simpl in Hl.
    apply andb_prop in Hl as [[_ Hl]%andb_prop _]. by apply bool_decide_eq_true in Hl.
  - simpl. unfold toUppercase. by rewrite Hl.
Qed.

Lemma cp_toUpperCase_idem s : toUpperCase t (toUpperCase t s) = toUpperCase t s.
Proof.
  induction s as [|c s IH]; simpl; [done|].
  by rewrite cp_toUpperCase_app, toUppercase_idem, IH.
Qed.

Lemma cp_trimStart_toUpperCase s :
  trimStart (toUpperCase t s) = toUpperCase t (trimStart s).
Proof.
  induction s as [|c s IH]; simpl; [done|].
  destruct (isWhiteSpace c) eqn:Hc.
  - rewrite toUppercase_space by done. simpl. by rewrite Hc.
  - destruct (toUppercase_letter c Hc) as (x & xs & Hu & Hws).
    simpl. rewrite Hu. rewrite cp_trimStart_letters; done.
Qed.

Lemma cp_trimEnd_toUpperCase s :
  trimEnd (toUpperCase t s) = toUpperCase t (trimEnd s).
Proof.
  induction s as [|c s IH]; simpl; [done|].
  destruct (isWhiteSpace c) eqn:Hc.
  - rewrite toUppercase_space by done. simpl. rewrite IH.
    destruct (trimEnd s) as [|c' r'] eqn:Hr; simpl.
    + by rewrite Hc.
    + rewrite (toUppercase_space c) by done.
      pose proof (toUppercase_nonempty c') as Hne.
      by destruct (toUppercase t c' ++ toUpperCase t r') eqn:Happ;
        [apply app_eq_nil in Happ as [? _]|].
  - destruct (toUppercase_letter c Hc) as (x & xs & Hu & Hws).
    rewrite Hu, cp_trimEnd_letters, IH by done.
    destruct (trimEnd s) as [|c' r'] eqn:Hr; simpl; by rewrite Hu.
Qed.

Lemma cp_trim_toUpperCase s : trim (toUpperCase t s) = toUpperCase t (trim s).
Proof. unfold trim. by rewrite cp_trimStart_toUpperCase, cp_trimEnd_toUpperCase. Qed.

Lemma cp_normalize_idem s : normalize t (normalize t s) = normalize t s.
Proof.
  unfold normalize. by rewrite <- cp_trim_toUpperCase, cp_toUpperCase_idem,
    cp_trim_toUpperCase, cp_trim_idem.
Qed.

Lemma sameLetter_toUppercase a b :
  sameLetter t a b = true -> toUppercase t a = toUppercase t b.
Proof.
  assert (forall x y, toUppercase t x = [y] -> toUppercase t x = toUppercase t y) as Hup.
  { intros x y Hx. pose proof (toUppercase_idem x) as Hi. rewrite Hx in Hi.
    simpl in Hi. rewrite app_nil_r in Hi. congruence. }
  unfold sameLetter. intros [[Hab|Hab]%orb_prop|Hab]%orb_prop.
  - by apply N.eqb_eq in Hab as ->.
  - apply bool_decide_eq_true in Hab. by apply Hup.
  - apply bool_decide_eq_true in Hab. symmetry. by apply Hup.
Qed.

Lemma cp_eqIgnoreCase_toUpperCase s u :
  eqIgnoreCase t s u = true -> toUpperCase t s = toUpperCase t u.
Proof.
  revert u. induction s as [|a s IH]; intros [|b u]; simpl; try done.
  intros [Hab Hsu]%andb_prop. f_equal; [by apply sameLetter_toUppercase|auto].
Qed.

Lemma cp_normalize_surrounding_case pre post s u :
  allWhiteSpace pre = true -> allWhiteSpace post = true -> eqIgnoreCase t s u = true ->
  normalize t (pre ++ s ++ post) = normalize t u.
Proof.
  intros Hpre Hpost Hsu. unfold normalize. rewrite cp_trim_surrounding by done.
  rewrite <- !cp_trim_toUpperCase. f_equal. by apply cp_eqIgnoreCase_toUpperCase.
Qed.

Lemma wellFormed_toUpperCase s :
  wellFormed s = true -> wellFormed (toUpperCase t s) = true.
Proof.
  induction s as [|c r IH]; simpl; [done|].
  intros [Hc Hr]%andb_prop. unfold wellFormed. rewrite forallb_app.
  rewrite toUppercase_scalar by done. by apply IH.
Qed.

Lemma wellFormed_normalize s : wellFormed s = true -> wellFormed (normalize t s) = true.
Proof.
  intros Hs. by apply wellFormed_toUpperCase, wellFormed_trimEnd, wellFormed_trimStart.
Qed.

(** A text that is its own upper case is made of code points that are. *)
Lemma length_toUpperCase s : (length s <= length (toUpperCase t s))%nat.
Proof.
  induction s as [|c r IH]; simpl; [lia|].
  rewrite length_app. pose proof (toUppercase_nonempty c).
  destruct (toUppercase t c); [done|]. simpl. lia.
Qed.

Lemma toUpperCase_fixed s :
  toUpperCase t s = s -> Forall (fun c => toUppercase t c = [c]) s.
Proof.
  induction s as [|c r IH]; simpl; [constructor|].
  intros H. pose proof (toUppercase_nonempty c) as Hne.
  destruct (toUppercase t c) as [|x xs] eqn:Hu; [done|].
  injection H as -> Hr. pose proof (length_toUpperCase r) as Hlen.
  assert (xs = []) as ->.
  { apply (f_equal length) in Hr. rewrite length_app in Hr.
    destruct xs; [done|]. simpl in Hr. lia. }
  constructor; [done|]. by apply IH.
Qed.

(** On ASCII text the normalization is that of the store. *)

Lemma ascii_upper c :
  (nat_of_ascii c <? 128)%nat = true ->
  toUppercase t (N_of_ascii c) = [N_of_ascii (Js.upperChar c)].
Proof.
  intros H. rewrite ascii_entry by by apply low_nat.
  by destruct (low_char c H) as [_ ->].
Qed.

Lemma codes_toUpperCase s :
  Js.isAscii s = true -> toUpperCase t (codes s) = codes (Js.toUpperCase s).
Proof.
  induction s as [|c s IH]; simpl; [done|].
  intros [Hc Hs]%andb_prop. by rewrite ascii_upper, IH.
Qed.

Lemma codes_normalize s :
  Js.isAscii s = true -> normalize t (codes s) = codes (store_normalize s).
Proof.
  intros Hs. unfold normalize, store_normalize, trim, Js.trim.
  destruct (codes_trimStart s Hs) as [-> Hs1].
  destruct (codes_trimEnd _ Hs1) as [-> Hs2].
  by apply codes_toUpperCase.
Qed.

(** The store, on the bytes of a normalized text, does what the page does
    on the text. *)

Lemma toUpperCase_utf8 c k :
  toUppercase t c = [c] -> Js.toUpperCase (utf8 c k) = utf8 c (Js.toUpperCase k).
Proof.
  intros Hc. unfold utf8. destruct (N.leb_spec c 127).
  - cbn [Js.toUpperCase]. f_equal.
    rewrite ascii_entry in Hc by lia. injection Hc as Hc.
    destruct (low_byte c) as [_ Hu]; [lia|]. rewrite Hc in Hu.
    by rewrite <- (ascii_N_embedding (Js.upperChar _)), Hu.
  - destruct (N.leb_spec c 2047); [|destruct (N.leb_spec c 65535)];
      cbn [Js.toUpperCase]; by rewrite !high_up by high_bound.
Qed.

Lemma toUpperCase_encode s :
  Forall (fun c => toUppercase t c = [c]) s -> Js.toUpperCase (encode s) = encode s.
Proof.
  induction 1 as [|c r Hc Hr IH]; simpl; [done|].
  by rewrite toUpperCase_utf8, IH.
Qed.

Lemma normalize_encode plate :
  store_normalize (encode (normalize t plate)) = encode (normalize t plate).
Proof.
  unfold store_normalize, Js.trim.
  assert (normalize t plate = trim (toUpperCase t plate)) as Hn
    by (unfold normalize; by rewrite cp_trim_toUpperCase).
  rewrite trimStart_encode by (rewrite Hn; apply cp_trim_headed).
  rewrite trimEnd_encode by (rewrite Hn; apply cp_trimEnd_idem).
  apply toUpperCase_encode, toUpperCase_fixed. unfold normalize.
  apply cp_toUpperCase_idem.
Qed.

Lemma addVote_encode plate value a :
  addVote t plate value a = store_addVote (encode (normalize t plate)) value a.
Proof.
  unfold addVote, store_addVote. cbv zeta.
  by rewrite normalize_encode, encode_truthy.
Qed.

End Casing.

End UnicodeFacts.

Lemma scored_nil p v a : scored p v a [] = [mkPlate p v (now_update a)].
Proof.
  unfold scored, ensured. rewrite bool_decide_eq_false_2 by apply not_elem_of_nil.
  simpl. unfold bump. simpl. by rewrite bool_decide_eq_true_2.
Qed.

Lemma scored_single p s t v a :
  scored p v a [mkPlate p s t] = [mkPlate p (s + v) (now_update a)].
Proof.
  unfold scored, ensured. rewrite bool_decide_eq_true_2 by (simpl; left).
  simpl. unfold bump. simpl. by rewrite bool_decide_eq_true_2.
Qed.

Lemma addVote_twice raw1 raw2 v1 v2 a1 a2 :
  normalize raw1 = normalize raw2 -> normalize raw1 <> "" ->
  is_delta v1 -> is_delta v2 -> uuid a1 <> uuid a2 ->
  (addVote raw1 v1 a1 ;; addVote raw2 v2 a2) fresh_db
  = (Ok tt,
     mkDb (Some [mkPlate (normalize raw1) (v1 + v2) (now_update a2)])
          (Some [mkVote (uuid a1) (normalize raw1) v1 (now_insert a1);
                 mkVote (uuid a2) (normalize raw1) v2 (now_insert a2)])
          true).
Proof.
  intros Hn Hne Hv1 Hv2 Hid.
  change fresh_db with (mkDb (Some []) (Some []) true). unfold bind.
  rewrite addVote_steps by done. cbn zeta.
  apply is_delta_check in Hv1 as ->. cbn [negb].
  rewrite bool_decide_eq_false_2 by (intros H; by apply elem_of_nil in H).
  rewrite addVote_steps by congruence. cbn zeta.
  apply is_delta_check in Hv2 as ->. cbn [negb].
  rewrite bool_decide_eq_false_2.
  2:{ simpl. rewrite list_elem_of_singleton. congruence. }
  rewrite <- Hn. by rewrite scored_nil, scored_single.
Qed.

(** C8. On the text the page reads, a sequence of Unicode code points, and
    for every upper-case mapping that passes the check [casing_ok], as the
    mapping of Unicode 14.0 does: normalization is idempotent; raw inputs
    that differ in letter case or in surrounding white space only have the
    same normal form; the normal form of a well-formed text is well formed;
    on ASCII text the normalization is the [normalize] of the store; and
    two votes on well-formed inputs of the same normal form accumulate on
    one plates row, keyed by the UTF-8 bytes of that normal form. *)
Theorem normalize_identity :
  Unicode.casing_ok Unicode.upper_table = true
  /\ (forall t, Unicode.casing_ok t = true ->
        (forall s, Unicode.normalize t (Unicode.normalize t s) = Unicode.normalize t s)
        /\ (forall pre1 post1 pre2 post2 s u,
              Unicode.allWhiteSpace pre1 = true -> Unicode.allWhiteSpace post1 = true ->
              Unicode.allWhiteSpace pre2 = true -> Unicode.allWhiteSpace post2 = true ->
              Unicode.eqIgnoreCase t s u = true ->
              Unicode.normalize t (pre1 ++ s ++ post1)
              = Unicode.normalize t (pre2 ++ u ++ post2))
        /\ (forall s, Unicode.wellFormed s = true ->
              Unicode.wellFormed (Unicode.normalize t s) = true)
        /\ (forall s, Js.isAscii s = true ->
              Unicode.normalize t (Unicode.codes s) = Unicode.codes (normalize s))
        /\ (forall raw1 raw2 v1 v2 a1 a2,
              Unicode.wellFormed raw1 = true -> Unicode.wellFormed raw2 = true ->
              Unicode.normalize t raw1 = Unicode.normalize t raw2 ->
              Unicode.normalize t raw1 <> [] ->
              is_delta v1 -> is_delta v2 -> uuid a1 <> uuid a2 ->
              (Unicode.addVote t raw1 v1 a1 ;; Unicode.addVote t raw2 v2 a2) fresh_db
              = (Ok tt,
                 mkDb (Some [mkPlate (Unicode.encode (Unicode.normalize t raw1))
                               (v1 + v2) (now_update a2)])
                      (Some [mkVote (uuid a1) (Unicode.encode (Unicode.normalize t raw1))
                               v1 (now_insert a1);
                             mkVote (uuid a2) (Unicode.encode (Unicode.normalize t raw1))
                               v2 (now_insert a2)])
                      true)))
  /\ Unicode.normalize Unicode.upper_table (Unicode.codes " abc123 ")
     = Unicode.codes "ABC123"
  /\ normalize " abc123 " = normalize "ABC123".
Proof.
  split_and!; [apply UnicodeFacts.upper_table_ok| |by vm_compute|reflexivity].
  intros t Hok. split_and!.
  - by apply UnicodeFacts.cp_normalize_idem.
  - intros pre1 post1 pre2 post2 s u H1 H2 H3 H4 Hsu. unfold Unicode.normalize.
    rewrite !UnicodeFacts.cp_trim_surrounding by done.
    rewrite <- !UnicodeFacts.cp_trim_toUpperCase by done. f_equal.
    by apply UnicodeFacts.cp_eqIgnoreCase_toUpperCase.
  - by apply UnicodeFacts.wellFormed_normalize.
  - by apply UnicodeFacts.codes_normalize.
  - intros raw1 raw2 v1 v2 a1 a2 _ _ Hn Hne Hv1 Hv2 Hid.
    rewrite !UnicodeFacts.addVote_encode by done.
    rewrite <- (UnicodeFacts.normalize_encode t Hok raw1) at 2 3 4.
    apply addVote_twice; try done.
    + rewrite !UnicodeFacts.normalize_encode by done. by rewrite Hn.
    + rewrite UnicodeFacts.normalize_encode by done.
      intros He. apply Hne. pose proof (UnicodeFacts.encode_truthy (Unicode.normalize t raw1)) as Ht.
      rewrite He in Ht. by destruct (Unicode.normalize t raw1).
Qed.

(** C3, as stated, fails: the space inside "abc 123" is not removed by
    [trim], so the first two votes go to two plates. *)
Lemma scenario_not_merged :
  (scenario (amb "t1" "id1") (amb "t2" "id2") (amb "t3" "id3") fresh_db).1
  = Ok (mkBoard [("ABC 123", 1); ("ABC123", 1)] [("XYZ999", -1)])
  /\ (scenario (amb "t1" "id1") (amb "t2" "id2") (amb "t3" "id3") fresh_db).1
     <> Ok (mkBoard [("ABC123", 2)] [("XYZ999", -1)]).
Proof. split; [vm_compute; reflexivity|vm_compute; discriminate]. Qed.

(** C3, amended. From the first boot, the votes "abc 123" +1, "ABC123" +1
    and "xyz999" -1 (with three different uuids) all return; the positive
    leaderboard holds the two entries ("ABC 123", 1) and ("ABC123", 1), and
    the negative leaderboard is [("XYZ999", -1)]. *)
Theorem scenario_leaderboards a1 a2 a3 :
  uuid a1 <> uuid a2 -> uuid a1 <> uuid a3 -> uuid a2 <> uuid a3 ->
  exists b,
    (scenario a1 a2 a3 fresh_db).1 = Ok b
    /\ best b ≡ₚ [("ABC 123", 1); ("ABC123", 1)]
    /\ worst b = [("XYZ999", -1)].
Proof.
  intros H12 H13 H23. eexists. split; [|split].
  - unfold scenario. change fresh_db with (mkDb (Some []) (Some []) true). unfold bind.
    rewrite addVote_ok; [|done|by left|apply not_elem_of_nil].
    rewrite addVote_ok; [|done|by left|].
    2:{ simpl. rewrite list_elem_of_singleton. congruence. }
    rewrite addVote_ok; [|done|by right|].
    2:{ simpl. rewrite !elem_of_cons. intros [?|[?|H]]; [congruence|congruence|].
        by apply elem_of_nil in H. }
    vm_compute. reflexivity.
  - simpl. reflexivity.
  - reflexivity.
Qed.

(** C2, as stated, fails: a vote of 2 on a new plate throws a constraint
    violation after the plates row was inserted and its score raised, so the
    row count of the plates table is not the one before the call. *)
Lemma bad_delta_leaves_plate_row :
  (addVote "ABC123" 2 (amb "t1" "id1") fresh_db).1 = Throw (CheckFailed "votes")
  /\ ConstraintViolation (CheckFailed "votes")
  /\ plate_count (addVote "ABC123" 2 (amb "t1" "id1") fresh_db).2 <> plate_count fresh_db
  /\ plates (addVote "ABC123" 2 (amb "t1" "id1") fresh_db).2
     = Some [mkPlate "ABC123" 2 "t1"].
Proof. split_and!; [reflexivity|exact I|vm_compute; discriminate|reflexivity]. Qed.

(** C2, amended. On a store with both tables, [addVote] with an integer
    value outside [{+1,-1}] that sql.js binds as an integer (a 32-bit
    integer) and a plate of non-empty normal form [p] throws the CHECK
    failure of the votes table (a ConstraintViolation) from its last
    statement.  The votes table is unchanged; the first two statements stay
    applied: the plates row of [p] exists (the row count grows by one when it
    was missing) and its score has moved by the value, within the 64-bit
    integers of the engine; the scores of the other plates are unchanged. *)
Theorem bad_delta_partial plate v a d ps vs :
  plates d = Some ps -> votes d = Some vs ->
  ~ is_delta v -> bound_as_integer v -> normalize plate <> "" ->
  (forall r, r ∈ ps -> p_plate_text r = normalize plate ->
             int64 (p_score r) /\ int64 (p_score r + v)) ->
  (addVote plate v a d).1 = Throw (CheckFailed "votes")
  /\ ConstraintViolation (CheckFailed "votes")
  /\ votes (addVote plate v a d).2 = votes d
  /\ vote_count (addVote plate v a d).2 = vote_count d
  /\ score_of (normalize plate) (addVote plate v a d).2
     = Some (default 0 (score_of (normalize plate) d) + v)
  /\ (forall q, q <> normalize plate -> score_of q (addVote plate v a d).2 = score_of q d)
  /\ plate_count (addVote plate v a d).2
     = (plate_count d + if bool_decide (normalize plate ∈ plate_keys ps) then 0 else 1)%nat.
Proof.
  destruct d as [ps' vs' ix]. simpl. intros -> -> Hv _ Hp _.
  rewrite addVote_steps by done. cbn zeta.
  destruct (value_check v) eqn:Hc; [by apply is_delta_check in Hc|].
  cbn [negb fst snd votes]. split_and!; try done.
  - rewrite !score_of_tables. apply row_score_scored_same.
  - intros q Hq. rewrite !score_of_tables. by apply row_score_scored_other.
  - unfold plate_count. simpl. apply length_scored.
Qed.

(** ** The reference engine is faithful *)

Module RefEngineFacts.
Import RefEngine.

Lemma reads_nat : reads enc_nat dec_nat.
Proof.
  intros n r. unfold enc_nat. induction n as [|n IH]; simpl; [done|].
  simpl in IH. by rewrite IH.
Qed.

Lemma reads_Z : reads enc_Z dec_Z.
Proof.
  intros z r. unfold enc_Z. destruct (z <? 0) eqn:Hz; simpl.
  - rewrite reads_nat. simpl. do 2 f_equal. apply Z.ltb_lt in Hz. lia.
  - rewrite reads_nat. simpl. do 2 f_equal. apply Z.ltb_ge in Hz. lia.
Qed.

Lemma length_list_byte_of_string s : length (list_byte_of_string s) = String.length s.
Proof. induction s as [|c s IH]; simpl; [done|]. by rewrite <- IH. Qed.

Lemma reads_string : reads enc_string dec_string.
Proof.
  intros s r. unfold enc_string, dec_string. rewrite <- app_assoc, reads_nat. simpl.
  pose proof (length_list_byte_of_string s) as Hlen.
  destruct (Nat.leb_spec (String.length s) (length (list_byte_of_string s ++ r))) as [_|Hlt].
  - rewrite take_app_length', drop_app_length' by done.
    by rewrite string_of_list_byte_of_string.
  - rewrite length_app in Hlt. lia.
Qed.

Lemma reads_bool : reads enc_bool dec_bool.
Proof. by intros [] r. Qed.

Lemma reads_n {A} (enc : A -> list byte) (dec : Decoder A) (l : list A) r :
  reads enc dec -> dec_n dec (length l) (concat (enc <$> l) ++ r) = Some (l, r).
Proof.
  intros Hr. induction l as [|x l IH]; csimpl; [done|].
  rewrite <- app_assoc, Hr. csimpl. by rewrite IH.
Qed.

Lemma reads_rows {A} (enc : A -> list byte) (dec : Decoder A) :
  reads enc dec -> reads (enc_rows enc) (dec_rows dec).
Proof.
  intros Hr l r. unfold enc_rows, dec_rows. rewrite <- app_assoc, reads_nat. simpl.
  by apply reads_n.
Qed.

Lemma reads_table {A} (enc : A -> list byte) (dec : Decoder A) :
  reads enc dec -> reads (enc_table enc) (dec_table dec).
Proof.
  intros Hr [l|] r; simpl; [|done]. by rewrite (reads_rows enc dec Hr).
Qed.

Lemma reads_bind {A B} (enc : A -> list byte) (dec : Decoder A) x r (k : A * list byte -> option B) :
  reads enc dec -> dec (enc x ++ r) ≫= k = k (x, r).
Proof. intros Hr. by rewrite Hr. Qed.

Lemma reads_plate : reads enc_plate dec_plate.
Proof.
  intros x r. unfold enc_plate, dec_plate.
  rewrite <- app_assoc, (reads_bind _ _ _ _ _ reads_string).
  rewrite <- app_assoc, (reads_bind _ _ _ _ _ reads_Z).
  rewrite (reads_bind _ _ _ _ _ reads_string). by destruct x.
Qed.

Lemma reads_vote : reads enc_vote dec_vote.
Proof.
  intros x r. unfold enc_vote, dec_vote.
  rewrite <- app_assoc, (reads_bind _ _ _ _ _ reads_string).
  rewrite <- app_assoc, (reads_bind _ _ _ _ _ reads_string).
  rewrite <- app_assoc, (reads_bind _ _ _ _ _ reads_Z).
  rewrite (reads_bind _ _ _ _ _ reads_string). by destruct x.
Qed.

Lemma faithful : Faithful engine.
Proof.
  intros d. change (import_db (export_db d) = Some d). unfold export_db, import_db.
  rewrite (reads_bind _ _ _ _ _ (reads_table _ _ reads_plate)).
  rewrite (reads_bind _ _ _ _ _ (reads_table _ _ reads_vote)).
  rewrite <- (app_nil_r (enc_bool _)), (reads_bind _ _ _ _ _ reads_bool).
  by destruct d.
Qed.

Example empty_image_refused : import_db [] = None.
Proof. reflexivity. Qed.

End RefEngineFacts.

(** ** Persistence *)

Lemma keys_differ : USER_KEY <> DB_KEY.
Proof. discriminate. Qed.

Lemma boot_schema_result : boot_schema new_Database = (Ok tt, fresh_db).
Proof. reflexivity. Qed.

Lemma queryLeaderboard_fresh : queryLeaderboard fresh_db = (Ok (mkBoard [] []), fresh_db).
Proof. reflexivity. Qed.

Section PersistenceFacts.
Context {E : Engine}.

Lemma initDb_image store bytes :
  store !! DB_KEY = Some (JUint8Array bytes) \/ store !! DB_KEY = Some (JBuffered bytes) ->
  initDb store = Ok (open_Database bytes store).
Proof. unfold initDb. by intros [-> | ->]. Qed.

Lemma initDb_no_image store :
  match store !! DB_KEY with None => True | Some v => image_shaped v = false end ->
  initDb store = Ok (Ready (persistDb (mkWorld fresh_db store))).
Proof.
  unfold initDb. rewrite boot_schema_result.
  destruct (store !! DB_KEY) as [[bytes|bytes|s|b]|]; simpl; done.
Qed.

Lemma initDb_current w :
  Faithful E -> idb w !! DB_KEY = Some (JUint8Array (export (db w))) ->
  initDb (idb w) = Ok (Ready w).
Proof.
  intros HE Hk. rewrite (initDb_image _ (export (db w))) by auto.
  unfold open_Database. rewrite HE. by destruct w.
Qed.

Lemma persistDb_current w :
  idb (persistDb w) !! DB_KEY = Some (JUint8Array (export (db (persistDb w)))).
Proof. unfold persistDb. simpl. apply lookup_insert_eq. Qed.

Lemma resetDbBtn_onclick_confirmed w :
  resetDbBtn_onclick true w = (Ok tt, persistDb (mkWorld fresh_db (idb w))).
Proof. unfold resetDbBtn_onclick. cbn [negb]. by rewrite reset_result. Qed.

(** On a reachable store a vote click with a new uuid records the vote and
    persists, or rejects a blank input and changes nothing. *)
Lemma vote_onclick_reachable delta input a w l :
  reachable (db w) l -> is_delta delta -> fresh_uuid a (db w) ->
  (normalize input = "" /\ vote_onclick delta input a w = (ConfirmMsg PlateRequired, w))
  \/ (exists d', addVote (normalize input) delta a (db w) = (Ok tt, d')
                 /\ vote_onclick delta input a w
                    = (Alert (normalize input), persistDb (mkWorld d' (idb w)))).
Proof.
  intros Hr Hv Hf. unfold vote_onclick.
  destruct (Js.truthy (normalize input)) eqn:Ht; cbn [negb].
  - right. apply reachable_consistent in Hr as Hc. destruct w as [d store]. simpl in *.
    destruct Hc as [ps vs Hk Hi Hd Hs Hr'].
    assert (normalize input <> "") as Hne by (intros Heq; by rewrite Heq in Ht).
    eexists. rewrite addVote_ok; [done| |done|done].
    by rewrite normalize_idem.
  - left. apply JsFacts.truthy_false in Ht. done.
Qed.

(** In every reachable page the store is reachable and the image under the
    database key is the current one. *)
Lemma page_reachable_current w :
  Faithful E -> page_reachable w ->
  (exists l, reachable (db w) l)
  /\ idb w !! DB_KEY = Some (JUint8Array (export (db w))).
Proof.
  intros HE. induction 1 as [w Hb|w delta input a _ [[l Hl] Hk] Hv Hf
    |w c _ [[l Hl] Hk]|w _ [[l Hl] Hk]|w name _ [[l Hl] Hk]|w _ [[l Hl] Hk]
    |w w' _ [[l Hl] Hk] Hb].
  - rewrite initDb_no_image in Hb by (by rewrite lookup_empty).
    injection Hb as <-. split; [|apply persistDb_current].
    exists []. apply reach_boot.
  - destruct (vote_onclick_reachable delta input a w l Hl Hv Hf)
      as [[_ ->]|(d' & Hd' & ->)]; simpl.
    + eauto.
    + split; [|apply (persistDb_current (mkWorld d' (idb w)))].
      eexists. replace d' with (addVote (normalize input) delta a (db w)).2 by (by rewrite Hd').
      by apply reach_vote.
  - destruct c.
    + rewrite resetDbBtn_onclick_confirmed. simpl.
      split; [|apply (persistDb_current (mkWorld fresh_db (idb w)))].
      exists []. apply reach_boot.
    + simpl. eauto.
  - split; [eauto|apply persistDb_current].
  - simpl. split; [eauto|]. by rewrite lookup_insert_ne by apply keys_differ.
  - simpl. split; [eauto|]. by rewrite lookup_delete_ne by apply keys_differ.
  - rewrite initDb_current in Hb by done. injection Hb as <-. eauto.
Qed.

End PersistenceFacts.

(** C5. With an engine whose images open as the database they were exported
    from, for every reachable page: opening a store from what [persistDb]
    wrote ([initDb], restore path) returns, and the store it yields has the
    plates and votes of the store that was persisted, row for row; the page
    itself already holds its current image, so a reload restores it. *)
Theorem persist_open_roundtrip (E : Engine) (w : World) :
  Faithful E -> page_reachable w ->
  (exists w', initDb (idb (persistDb w)) = Ok (Ready w')
              /\ plates (db w') = plates (db w)
              /\ votes (db w') = votes (db w)
              /\ db w' = db w)
  /\ initDb (idb w) = Ok (Ready w).
Proof.
  intros HE Hw. split.
  - exists (persistDb w). split; [|done].
    apply initDb_current; [done|apply persistDb_current].
  - apply initDb_current; [done|]. by apply page_reachable_current.
Qed.

(** C6. A confirmed reset returns, on any page: the store is the one of
    first-boot initialization, both leaderboards are empty (and stay so, a
    query changes nothing), the image of that store is written under the
    database key whatever was there, and opening a store from it yields the
    empty schema: both tables, no rows. *)
Theorem reset_empties (E : Engine) (w : World) :
  Faithful E ->
  (resetDbBtn_onclick true w).1 = Ok tt
  /\ db (resetDbBtn_onclick true w).2 = (boot_schema new_Database).2
  /\ queryLeaderboard (db (resetDbBtn_onclick true w).2)
     = (Ok (mkBoard [] []), db (resetDbBtn_onclick true w).2)
  /\ idb (resetDbBtn_onclick true w).2 !! DB_KEY
     = Some (JUint8Array (export (boot_schema new_Database).2))
  /\ exists w', initDb (idb (resetDbBtn_onclick true w).2) = Ok (Ready w')
                /\ plates (db w') = Some [] /\ votes (db w') = Some []
                /\ idx_votes_plate (db w') = true.
Proof.
  intros HE. rewrite resetDbBtn_onclick_confirmed. cbn [fst snd].
  split_and!; try done.
  - apply (persistDb_current (mkWorld fresh_db (idb w))).
  - exists (persistDb (mkWorld fresh_db (idb w))). split; [|done].
    apply initDb_current; [done|apply persistDb_current].
Qed.



(** C10. The reset handler, confirmed or not, changes no key of IndexedDB
    other than the database key: the value under the profile key is the one
    before, and [getUser] returns what it returned before. *)
Theorem reset_keeps_profile (E : Engine) (confirmed : bool) (w : World) :
  (forall k, k <> DB_KEY ->
             idb (resetDbBtn_onclick confirmed w).2 !! k = idb w !! k)
  /\ idb (resetDbBtn_onclick confirmed w).2 !! USER_KEY = idb w !! USER_KEY
  /\ getUser (resetDbBtn_onclick confirmed w).2 = getUser w.
Proof.
  assert (forall k, k <> DB_KEY ->
            idb (resetDbBtn_onclick confirmed w).2 !! k = idb w !! k) as Hk.
  { intros k Hne. destruct confirmed; [|done].
    rewrite resetDbBtn_onclick_confirmed. simpl. by rewrite lookup_insert_ne. }
  split_and!; [done|apply Hk, keys_differ|].
  unfold getUser. by rewrite (Hk USER_KEY keys_differ).
Qed.

(** ** The theorems at concrete inputs *)

Lemma one_vote_reachable : reachable one_vote_db [("ABC123", 1)].
Proof.
  apply (reach_vote fresh_db [] "abc123" 1 (amb "t1" "id1")).
  - apply reach_boot.
  - by left.
  - unfold fresh_uuid. by_computation.
Defined.

(** "ABC123" voted +1, -1, -1: the score is -1. *)
Lemma score_is_sum_of_votes_witness :
  score_of "ABC123" (addVotes "ABC123" three_votes fresh_db).2 = Some (-1)
  /\ (forall r, r ∈ default [] (plates one_vote_db) ->
        p_score r = votes_sum (p_plate_text r) (default [] (votes one_vote_db))).
Proof.
  destruct score_is_sum_of_votes as [H1 H2]. split.
  - apply (H1 "ABC123" three_votes).
    + reflexivity.
    + discriminate.
    + discriminate.
    + constructor; [by left|]. constructor; [by right|]. constructor; [by right|].
      constructor.
    + by_computation.
  - apply (H2 one_vote_db [("ABC123", 1)]). apply one_vote_reachable.
Defined.

Lemma bad_delta_partial_witness :
  (addVote "ABC123" 2 (amb "t1" "id1") fresh_db).1 = Throw (CheckFailed "votes")
  /\ votes (addVote "ABC123" 2 (amb "t1" "id1") fresh_db).2 = votes fresh_db
  /\ score_of "ABC123" (addVote "ABC123" 2 (amb "t1" "id1") fresh_db).2 = Some 2.
Proof.
  destruct (bad_delta_partial "ABC123" 2 (amb "t1" "id1") fresh_db [] [])
    as (H1 & _ & H2 & _ & H3 & _).
  - reflexivity.
  - reflexivity.
  - unfold is_delta. lia.
  - unfold bound_as_integer. lia.
  - discriminate.
  - intros r Hr. by apply elem_of_nil in Hr.
  - split_and!; [exact H1|exact H2|exact H3].
Defined.

Lemma scenario_leaderboards_witness :
  exists b,
    (scenario (amb "t1" "id1") (amb "t2" "id2") (amb "t3" "id3") fresh_db).1 = Ok b
    /\ best b ≡ₚ [("ABC 123", 1); ("ABC123", 1)]
    /\ worst b = [("XYZ999", -1)].
Proof.
  apply (scenario_leaderboards (amb "t1" "id1") (amb "t2" "id2") (amb "t3" "id3"));
    discriminate.
Defined.

Lemma plate_row_iff_vote_recorded_witness :
  exists ps vs,
    plates one_vote_db = Some ps /\ votes one_vote_db = Some vs
    /\ log_of vs = [("ABC123", 1)]
    /\ forall p, p ∈ plate_keys ps <-> exists v, (p, v) ∈ [("ABC123", 1)].
Proof.
  apply (plate_row_iff_vote_recorded one_vote_db [("ABC123", 1)]).
  apply one_vote_reachable.
Defined.

Lemma blank_plate_rejected_witness :
  Js.allWhiteSpace "   " = true
  /\ (addVote "   " 1 (amb "t1" "id1") one_vote_db).1 = Throw PlateRequired
  /\ (addVote "   " 1 (amb "t1" "id1") one_vote_db).2 = one_vote_db.
Proof.
  destruct (blank_plate_rejected "   " 1 (amb "t1" "id1") one_vote_db)
    as (_ & H1 & _ & H2 & _).
  - left. reflexivity.
  - split_and!; [reflexivity|exact H1|exact H2].
Defined.

Lemma normalize_identity_witness :
  Unicode.normalize Unicode.upper_table ([160] ++ [109; 252] ++ [32])%N
  = Unicode.normalize Unicode.upper_table ([] ++ [77; 220] ++ [])%N
  /\ Unicode.normalize Unicode.upper_table [160; 109; 252; 32]%N = [77; 220]%N
  /\ (Unicode.addVote Unicode.upper_table [160; 109; 252; 32]%N 1 (amb "t1" "id1") ;;
      Unicode.addVote Unicode.upper_table [77; 220]%N 1 (amb "t2" "id2")) fresh_db
     = (Ok tt,
        mkDb (Some [mkPlate
                      (Unicode.encode
                         (Unicode.normalize Unicode.upper_table [160; 109; 252; 32]%N))
                      2 "t2"])
             (Some [mkVote "id1"
                      (Unicode.encode
                         (Unicode.normalize Unicode.upper_table [160; 109; 252; 32]%N))
                      1 "t1";
                    mkVote "id2"
                      (Unicode.encode
                         (Unicode.normalize Unicode.upper_table [160; 109; 252; 32]%N))
                      1 "t2"])
             true).
Proof.
  destruct normalize_identity as (Hok & H & _).
  destruct (H Unicode.upper_table Hok) as (_ & H2 & _ & _ & H5). split_and!.
  - apply (H2 [160] [32] [] [] [109; 252] [77; 220])%N; by vm_compute.
  - by vm_compute.
  - apply (H5 [160; 109; 252; 32]%N [77; 220]%N 1 1 (amb "t1" "id1") (amb "t2" "id2")).
    + by vm_compute.
    + by vm_compute.
    + by vm_compute.
    + by vm_compute.
    + by left.
    + by left.
    + discriminate.
Defined.

Lemma voted_page_reachable : page_reachable (E := RefEngine.engine) voted_page.
Proof.
  apply page_setUser, page_vote.
  - apply page_boot. reflexivity.
  - by left.
  - unfold fresh_uuid. by_computation.
Defined.

Lemma persist_open_roundtrip_witness :
  (exists w',
     initDb (E := RefEngine.engine) (idb (persistDb (E := RefEngine.engine) voted_page))
     = Ok (Ready w')
     /\ plates (db w') = Some [mkPlate "ABC123" 1 "t1"]
     /\ votes (db w') = Some [mkVote "id1" "ABC123" 1 "t1"])
  /\ initDb (E := RefEngine.engine) (idb voted_page) = Ok (Ready voted_page).
Proof.
  destruct (persist_open_roundtrip RefEngine.engine voted_page)
    as [(w' & H1 & H2 & H3 & _) H4].
  - apply RefEngineFacts.faithful.
  - apply voted_page_reachable.
  - split; [|exact H4]. exists w'. split_and!; [exact H1|by rewrite H2|by rewrite H3].
Defined.

Lemma reset_empties_witness :
  (resetDbBtn_onclick (E := RefEngine.engine) true voted_page).1 = Ok tt
  /\ queryLeaderboard (db (resetDbBtn_onclick (E := RefEngine.engine) true voted_page).2)
     = (Ok (mkBoard [] []), fresh_db)
  /\ exists w',
       initDb (E := RefEngine.engine)
         (idb (resetDbBtn_onclick (E := RefEngine.engine) true voted_page).2) = Ok (Ready w')
       /\ plates (db w') = Some [] /\ votes (db w') = Some [].
Proof.
  destruct (reset_empties RefEngine.engine voted_page RefEngineFacts.faithful)
    as (H1 & _ & H2 & _ & w' & H3 & H4 & H5 & _).
  split_and!; [exact H1|exact H2|]. exists w'. by split_and!.
Defined.


Lemma reset_keeps_profile_witness :
  getUser voted_page = Some (JString "sam")
  /\ idb (resetDbBtn_onclick (E := RefEngine.engine) true voted_page).2 !! USER_KEY
     = Some (JString "sam")
  /\ getUser (resetDbBtn_onclick (E := RefEngine.engine) true voted_page).2
     = Some (JString "sam").
Proof.
  destruct (reset_keeps_profile RefEngine.engine true voted_page) as (H1 & _ & H3).
  split_and!.
  - reflexivity.
  - rewrite (H1 USER_KEY) by discriminate. reflexivity.
  - rewrite H3. reflexivity.
Defined.

(** * Further properties of the page *)

(** ** Leaderboards *)

Section OrderBy.
Variable before : Z -> Z -> bool.
Hypothesis before_asym : forall a b, before a b = true -> before b a = false.
Hypothesis before_chain :
  forall a b c, before b a = false -> before c b = false -> before c a = false.

Lemma insert_by_perm r l : insert_by before r l ≡ₚ r :: l.
Proof using Type.
  induction l as [|x l IH]; simpl; [done|].
  destruct (before (p_score x) (p_score r)); [|done].
  rewrite IH. apply Permutation_swap.
Qed.

Lemma order_by_perm l : order_by before l ≡ₚ l.
Proof using Type.
  unfold order_by. induction l as [|x l IH]; simpl; [done|].
  by rewrite insert_by_perm, IH.
Qed.

Lemma insert_by_sorted r l :
  StronglySorted (fun x y => before (p_score y) (p_score x) = false) l ->
  StronglySorted (fun x y => before (p_score y) (p_score x) = false) (insert_by before r l).
Proof using before_asym before_chain.
  induction 1 as [|x l Hl IH Hx]; simpl.
  - repeat constructor.
  - destruct (before (p_score x) (p_score r)) eqn:Hb.
    + constructor; [done|]. rewrite insert_by_perm. constructor; [|done].
      by apply before_asym.
    + constructor; [by constructor|]. constructor; [done|].
      eapply Forall_impl; [exact Hx|]. intros y Hy. simpl in *.
      by apply (before_chain _ (p_score x)).
Qed.

Lemma order_by_sorted l :
  StronglySorted (fun x y => before (p_score y) (p_score x) = false) (order_by before l).
Proof using before_asym before_chain.
  unfold order_by. induction l as [|x l IH]; simpl; [constructor|].
  by apply insert_by_sorted.
Qed.

End OrderBy.

Lemma StronglySorted_take {A} (R : relation A) n l :
  StronglySorted R l -> StronglySorted R (take n l).
Proof.
  intros Hl. rewrite <- (take_drop n l) in Hl. by apply StronglySorted_app_1_l in Hl.
Qed.

(** The rows behind the two lists of the leaderboard. *)
Lemma queryLeaderboard_rows d rows :
  plates d = Some rows ->
  queryLeaderboard d
  = (Ok (mkBoard
           (project <$> take 50 (order_by Z.gtb (filter (fun r => 0 < p_score r) rows)))
           (project <$> take 50 (order_by Z.ltb (filter (fun r => p_score r < 0) rows)))),
     d).
Proof.
  intros Hp. unfold queryLeaderboard, bind, select_best, select_worst, ret.
  rewrite Hp. simpl. by rewrite Hp.
Qed.

Lemma elem_of_project_take before n P `{!forall r, Decision (P r)} (rows : list PlateRow) p s :
  (p, s) ∈ project <$> take n (order_by before (filter P rows)) ->
  exists r, r ∈ rows /\ P r /\ project r = (p, s).
Proof.
  intros (r & Heq & Hr)%list_elem_of_fmap.
  apply subseteq_take in Hr. rewrite order_by_perm in Hr.
  apply list_elem_of_filter in Hr as [HP Hr]. eauto.
Qed.

(** X1. On a store with a plates table whose scores are safe integers,
    [queryLeaderboard] returns and leaves the store as it was; each list has
    at most 50 entries; every entry of [best] is the plate, as the engine
    returns the text (up to its first NUL), and the score of a row with a
    positive score, every entry of [worst] those of a row with a negative
    score. *)
Theorem leaderboard_entries d rows :
  plates d = Some rows ->
  Forall (fun r => safe_integer (p_score r)) rows ->
  exists b,
    queryLeaderboard d = (Ok b, d)
    /\ (length (best b) <= 50)%nat /\ (length (worst b) <= 50)%nat
    /\ (forall p s, (p, s) ∈ best b ->
          0 < s /\ exists r, r ∈ rows /\ UTF8ToString (p_plate_text r) = p /\ p_score r = s)
    /\ (forall p s, (p, s) ∈ worst b ->
          s < 0 /\ exists r, r ∈ rows /\ UTF8ToString (p_plate_text r) = p /\ p_score r = s).
Proof.
  intros Hp _. eexists. split; [by apply queryLeaderboard_rows|]. simpl.
  split_and!.
  - rewrite length_fmap, length_take. lia.
  - rewrite length_fmap, length_take. lia.
  - intros p s (r & Hin & Hs & [= <- <-])%elem_of_project_take. simpl in Hs. eauto.
  - intros p s (r & Hin & Hs & [= <- <-])%elem_of_project_take. simpl in Hs. eauto.
Qed.

(** X2. The list [best] is in descending order of score and the list
    [worst] in ascending order. *)
Theorem leaderboard_sorted d rows b :
  plates d = Some rows -> (queryLeaderboard d).1 = Ok b ->
  descending (best b) /\ ascending (worst b).
Proof.
  intros Hp. rewrite (queryLeaderboard_rows d rows Hp). simpl. intros [= <-]. simpl.
  split.
  - apply (StronglySorted_fmap _ (fun x y => Z.gtb (p_score y) (p_score x) = false)).
    + intros x y Hxy. simpl in *. lia.
    + apply StronglySorted_take, order_by_sorted; intros; lia.
  - apply (StronglySorted_fmap _ (fun x y => Z.ltb (p_score y) (p_score x) = false)).
    + intros x y Hxy. simpl in *. lia.
    + apply StronglySorted_take, order_by_sorted; intros; lia.
Qed.

(** X3. On a plates table whose scores are safe integers: when at most 50
    rows have a positive score, [best] lists all of them, each once: it is a
    rearrangement of their plates, as the engine returns the text (up to its
    first NUL), and scores.  The same holds of [worst] and the rows with a
    negative score. *)
Theorem leaderboard_complete d rows b :
  plates d = Some rows ->
  Forall (fun r => safe_integer (p_score r)) rows ->
  (queryLeaderboard d).1 = Ok b ->
  ((length (filter (fun r => (0 < p_score r)%Z) rows) <= 50)%nat ->
   best b ≡ₚ project <$> filter (fun r => 0 < p_score r) rows)
  /\ ((length (filter (fun r => (p_score r < 0)%Z) rows) <= 50)%nat ->
      worst b ≡ₚ project <$> filter (fun r => p_score r < 0) rows).
Proof.
  intros Hp _. rewrite (queryLeaderboard_rows d rows Hp). simpl. intros [= <-]. simpl.
  split; intros Hlen.
  - rewrite take_ge by (by rewrite order_by_perm). by rewrite order_by_perm.
  - rewrite take_ge by (by rewrite order_by_perm). by rewrite order_by_perm.
Qed.

Lemma cut_keeps_first before n P `{!forall r, Decision (P r)} (rows : list PlateRow) r :
  (forall a b, before a b = true -> before b a = false) ->
  (forall a b c, before b a = false -> before c b = false -> before c a = false) ->
  r ∈ rows -> P r ->
  r ∉ take n (order_by before (filter P rows)) ->
  length (take n (order_by before (filter P rows))) = n
  /\ forall x, x ∈ take n (order_by before (filter P rows)) ->
               before (p_score r) (p_score x) = false.
Proof.
  intros H1 H2 Hr HP Hout.
  set (S := order_by before (filter P rows)) in *.
  assert (r ∈ S) as HrS by (unfold S; rewrite order_by_perm; by apply list_elem_of_filter).
  rewrite <- (take_drop n S) in HrS. apply elem_of_app in HrS as [?|Hd]; [done|].
  split.
  - apply length_take_le. destruct (decide (n ≤ length S)%nat) as [|Hn]; [done|].
    rewrite drop_ge in Hd by lia. by apply elem_of_nil in Hd.
  - intros x Hx.
    pose proof (order_by_sorted before H1 H2 (filter P rows)) as Hs. fold S in Hs.
    rewrite <- (take_drop n S) in Hs.
    apply (StronglySorted_app_1_elem_of _ _ _ x r Hs Hx Hd).
Qed.

(** X4. The limit of 50 cuts from the low end: a row with a positive score
    that [best] does not list means that [best] is full and that no listed
    score is lower than the score of that row.  Likewise a row with a
    negative score that [worst] does not list. *)
Theorem leaderboard_cut d rows b :
  plates d = Some rows -> (queryLeaderboard d).1 = Ok b ->
  (forall r, r ∈ rows -> 0 < p_score r -> project r ∉ best b ->
     length (best b) = 50%nat /\ forall e, e ∈ best b -> p_score r <= e.2)
  /\ (forall r, r ∈ rows -> p_score r < 0 -> project r ∉ worst b ->
        length (worst b) = 50%nat /\ forall e, e ∈ worst b -> e.2 <= p_score r).
Proof.
  intros Hp. rewrite (queryLeaderboard_rows d rows Hp). simpl. intros [= <-]. simpl.
  split; intros r Hr Hs Hout.
  - destruct (cut_keeps_first Z.gtb 50 (fun r => 0 < p_score r) rows r) as [Hlen Hle];
      [intros; lia|intros; lia|done|done| |].
    { intros Hin. apply Hout. by apply list_elem_of_fmap_2. }
    split; [by rewrite length_fmap|].
    intros e (x & -> & Hx)%list_elem_of_fmap. specialize (Hle x Hx). simpl. lia.
  - destruct (cut_keeps_first Z.ltb 50 (fun r => p_score r < 0) rows r) as [Hlen Hle];
      [intros; lia|intros; lia|done|done| |].
    { intros Hin. apply Hout. by apply list_elem_of_fmap_2. }
    split; [by rewrite length_fmap|].
    intros e (x & -> & Hx)%list_elem_of_fmap. specialize (Hle x Hx). simpl. lia.
Qed.

Lemma same_key_same_row (rows : list PlateRow) x y :
  NoDup (plate_keys rows) -> x ∈ rows -> y ∈ rows ->
  p_plate_text x = p_plate_text y -> x = y.
Proof.
  unfold plate_keys. induction rows as [|h rows IH]; intros Hnd Hx Hy Hk.
  - by apply elem_of_nil in Hx.
  - rewrite fmap_cons in Hnd. apply NoDup_cons in Hnd as [Hh Hnd].
    apply elem_of_cons in Hx as [->|Hx]; apply elem_of_cons in Hy as [->|Hy].
    + done.
    + exfalso. apply Hh. rewrite Hk. by apply list_elem_of_fmap_2.
    + exfalso. apply Hh. rewrite <- Hk. by apply list_elem_of_fmap_2.
    + by apply IH.
Qed.

Lemma NoDup_board_rows before n P `{!forall r, Decision (P r)} (rows : list PlateRow) :
  NoDup rows -> NoDup (take n (order_by before (filter P rows))).
Proof.
  intros Hnd. eapply sublist_NoDup; [|apply sublist_take].
  rewrite order_by_perm. eapply sublist_NoDup; [exact Hnd|apply sublist_filter].
Qed.

Lemma nulFree_UTF8ToString s : nulFree s = true -> UTF8ToString s = s.
Proof.
  induction s as [|c s IH]; simpl; [done|].
  intros [Hc Hs]%andb_prop. apply negb_true_iff in Hc. rewrite Hc. by rewrite IH.
Qed.

(** X5. In every reachable store whose plate texts hold no NUL the
    leaderboard query returns, and a plate is listed at most once over both
    lists. *)
Theorem leaderboard_plates_distinct d l :
  reachable d l ->
  (forall r, r ∈ default [] (plates d) -> nulFree (p_plate_text r) = true) ->
  exists b, (queryLeaderboard d).1 = Ok b /\ NoDup ((best b ++ worst b).*1).
Proof.
  intros [ps vs Hk Hi Hd Hs Hr]%reachable_consistent Hnul. simpl in Hnul.
  rewrite (queryLeaderboard_rows (mkDb (Some ps) (Some vs) true) ps) by done.
  eexists. split; [done|]. simpl.
  set (B := take 50 (order_by Z.gtb (filter (fun r => 0 < p_score r) ps))).
  set (W := take 50 (order_by Z.ltb (filter (fun r => p_score r < 0) ps))).
  rewrite <- fmap_app, <- list_fmap_compose.
  assert (forall x, x ∈ B -> x ∈ ps /\ 0 < p_score x) as HB.
  { intros x Hx%subseteq_take. rewrite order_by_perm in Hx.
    by apply list_elem_of_filter in Hx as [? ?]. }
  assert (forall x, x ∈ W -> x ∈ ps /\ p_score x < 0) as HW.
  { intros x Hx%subseteq_take. rewrite order_by_perm in Hx.
    by apply list_elem_of_filter in Hx as [? ?]. }
  assert (forall x, x ∈ B ++ W -> x ∈ ps) as HBW.
  { intros x [Hx|Hx]%elem_of_app; [by apply HB|by apply HW]. }
  assert (NoDup ps) as Hps by (by apply NoDup_fmap_1 in Hk).
  apply NoDup_fmap_2_strong.
  - intros x y Hx%HBW Hy%HBW Hxy. simpl in Hxy.
    rewrite !nulFree_UTF8ToString in Hxy by (by apply Hnul).
    by apply (same_key_same_row ps).
  - apply NoDup_app. split_and!.
    + by apply NoDup_board_rows.
    + intros x [_ Hx1]%HB [_ Hx2]%HW. lia.
    + by apply NoDup_board_rows.
Qed.

(** ** The store under addVote *)

Lemma reachable_keys_normal d l r :
  reachable d l -> r ∈ default [] (plates d) ->
  normalize (p_plate_text r) = p_plate_text r /\ p_plate_text r <> "".
Proof.
  intros Hr. revert r. induction Hr as [|d l plate v a Hd IH Hv Hf|d l _ IH|d l _ IH]; intros r Hin.
  - by apply elem_of_nil in Hin.
  - destruct (decide (normalize plate = "")) as [Hp|Hp].
    { rewrite addVote_blank in Hin by done. by apply IH. }
    apply reachable_consistent in Hd as Hc. destruct Hc as [ps vs Hk Hi Hdl Hs Hrows].
    unfold fresh_uuid, ids_of in Hf. simpl in Hf.
    rewrite addVote_ok in Hin by done. simpl in Hin, IH.
    assert (p_plate_text r ∈ plate_keys (scored (normalize plate) v a ps)) as Hkey
      by (by apply list_elem_of_fmap_2).
    apply plate_keys_scored in Hkey as [->|(r0 & -> & Hr0)%list_elem_of_fmap].
    + by rewrite normalize_idem.
    + by apply IH.
  - rewrite queryLeaderboard_pure in Hin. by apply IH.
  - rewrite reset_result in Hin. by apply elem_of_nil in Hin.
Qed.

(** X6. Every reachable store has both tables and the index; plate texts
    are unique, non-empty and in normal form; vote ids are unique; every
    vote has the value [+1] or [-1] and the plate text of a plates row. *)
Theorem reachable_schema d l :
  reachable d l ->
  exists ps vs,
    d = mkDb (Some ps) (Some vs) true
    /\ NoDup (plate_keys ps) /\ NoDup (vote_ids vs)
    /\ Forall (fun r => normalize (p_plate_text r) = p_plate_text r /\ p_plate_text r <> "") ps
    /\ Forall (fun r => is_delta (v_value r) /\ v_plate_text r ∈ plate_keys ps) vs.
Proof.
  intros Hr. pose proof (reachable_keys_normal d l) as Hn. specialize (fun r => Hn r Hr).
  destruct (reachable_consistent d l Hr) as [ps vs Hk Hi Hd Hs Hrows].
  exists ps, vs. split_and!; try done.
  - apply Forall_forall. intros r Hin. by apply Hn.
  - apply Forall_forall. intros r Hin. rewrite Forall_forall in Hd. split; [by apply Hd|].
    apply Hrows. by apply list_elem_of_fmap_2.
Qed.

(** X8. A vote that returns appends exactly one row to the votes table and
    keeps what was there: the plate texts of the plates table are the old
    ones in the old order, followed by the new plate when it had no row, and
    the rows of the other plates are the same rows. *)
Theorem addVote_appends plate v a ps vs ix :
  normalize plate <> "" -> is_delta v -> uuid a ∉ vote_ids vs ->
  exists ps',
    addVote plate v a (mkDb (Some ps) (Some vs) ix)
    = (Ok tt, mkDb (Some ps')
                   (Some (vs ++ [mkVote (uuid a) (normalize plate) v (now_insert a)])) ix)
    /\ plate_keys ps'
       = plate_keys ps ++ (if bool_decide (normalize plate ∈ plate_keys ps)
                           then [] else [normalize plate])
    /\ (forall r, r ∈ ps -> p_plate_text r <> normalize plate -> r ∈ ps').
Proof.
  intros Hp Hv Hid. exists (scored (normalize plate) v a ps).
  split; [by apply addVote_ok|]. unfold scored. split.
  - rewrite plate_keys_bump. unfold ensured. case_bool_decide.
    + by rewrite app_nil_r.
    + unfold plate_keys. by rewrite fmap_app.
  - intros r Hr Hne. apply list_elem_of_fmap. exists r. split.
    + unfold bump. by rewrite bool_decide_eq_false_2.
    + unfold ensured. case_bool_decide; [done|]. apply elem_of_app. by left.
Qed.

(** X9. When [uuid()] returns the id of an existing vote, [addVote] throws
    the uniqueness failure of the votes table from its last statement: no
    vote is recorded, yet the score of the plate has already moved. *)
Theorem addVote_uuid_collision plate v a ps vs ix :
  normalize plate <> "" -> is_delta v -> uuid a ∈ vote_ids vs ->
  (addVote plate v a (mkDb (Some ps) (Some vs) ix)).1 = Throw (UniqueFailed "votes.id")
  /\ votes (addVote plate v a (mkDb (Some ps) (Some vs) ix)).2 = Some vs
  /\ score_of (normalize plate) (addVote plate v a (mkDb (Some ps) (Some vs) ix)).2
     = Some (default 0 (score_of (normalize plate) (mkDb (Some ps) (Some vs) ix)) + v).
Proof.
  intros Hp Hv Hid. rewrite addVote_steps by done. cbn zeta.
  apply is_delta_check in Hv as ->. cbn [negb].
  rewrite bool_decide_eq_true_2 by done. simpl.
  split_and!; [done|done|]. rewrite !score_of_tables. apply row_score_scored_same.
Qed.

(** X10. On a store without a plates table (a database opened from an image
    that holds no schema) a vote on a non-blank plate and the leaderboard
    query both throw "no such table" and leave the store as it was. *)
Theorem no_plates_table plate v a d :
  plates d = None -> normalize plate <> "" ->
  addVote plate v a d = (Throw (NoSuchTable "plates"), d)
  /\ queryLeaderboard d = (Throw (NoSuchTable "plates"), d).
Proof.
  intros Hp Hn. split.
  - unfold addVote. destruct (Js.truthy (normalize plate)) eqn:Ht.
    2:{ by apply JsFacts.truthy_false in Ht. }
    cbn [negb]. unfold bind, ensurePlateRow, bind, select_plate_step. by rewrite Hp.
  - unfold queryLeaderboard, bind, select_best. by rewrite Hp.
Qed.

Lemma ensurePlateRow_tables p a ps vs ix :
  ensurePlateRow p a (mkDb (Some ps) vs ix)
  = (Ok tt, mkDb (Some (ensured p (now_ensure a) ps)) vs ix).
Proof.
  unfold ensurePlateRow, bind, select_plate_step, insert_plate, ret, ensured. simpl.
  destruct (bool_decide (p ∈ plate_keys ps)) eqn:Hin; simpl; [done|]. by rewrite Hin.
Qed.

(** X11. [ensurePlateRow] is idempotent on every store: a second call
    changes nothing and throws only if the first did.  On a store with a
    plates table it returns, the plate has a row afterwards, a row that
    existed keeps its score, a new row has score 0 and the other plates are
    untouched. *)
Theorem ensurePlateRow_idempotent p a a' :
  (forall d, (ensurePlateRow p a ;; ensurePlateRow p a') d = ensurePlateRow p a d)
  /\ (forall d ps, plates d = Some ps ->
        (ensurePlateRow p a d).1 = Ok tt
        /\ score_of p (ensurePlateRow p a d).2 = Some (default 0 (score_of p d))
        /\ forall q, q <> p -> score_of q (ensurePlateRow p a d).2 = score_of q d).
Proof.
  split.
  - intros [[ps|] vs ix].
    + unfold bind at 1. rewrite !ensurePlateRow_tables. f_equal. f_equal.
      unfold ensured at 1. rewrite bool_decide_eq_true_2; [done|].
      apply plate_keys_ensured. by left.
    + done.
  - intros [ps' vs ix] ps. simpl. intros ->. rewrite ensurePlateRow_tables. simpl.
    rewrite !score_of_tables. split_and!; [done| |].
    + unfold ensured. case_bool_decide as Hin.
      * by destruct (row_score_present p ps Hin) as [s ->].
      * rewrite (row_score_absent p ps) by done. simpl. unfold row_score.
        rewrite filter_app, (filter_absent p ps) by done. simpl.
        by rewrite filter_cons_True.
    + intros q Hq. rewrite !score_of_tables. unfold ensured, row_score.
      destruct (bool_decide (p ∈ plate_keys ps)); [done|].
      rewrite filter_app. simpl. rewrite filter_cons_False by (simpl; congruence).
      by rewrite app_nil_r.
Qed.

Lemma row_score_scored p q v a ps :
  row_score q (scored p v a ps)
  = if decide (q = p) then Some (default 0 (row_score p ps) + v) else row_score q ps.
Proof.
  case_decide as Hq.
  - subst. apply row_score_scored_same.
  - by apply row_score_scored_other.
Qed.

(** X12. Two votes with new, different uuids return in either order, and
    the order does not matter for the outcome: every plate has the same
    score either way, and the votes tables hold the same rows. *)
Theorem votes_commute plate1 v1 a1 plate2 v2 a2 ps vs ix :
  normalize plate1 <> "" -> normalize plate2 <> "" ->
  is_delta v1 -> is_delta v2 ->
  uuid a1 ∉ vote_ids vs -> uuid a2 ∉ vote_ids vs -> uuid a1 <> uuid a2 ->
  exists d12 d21 ws12 ws21,
    (addVote plate1 v1 a1 ;; addVote plate2 v2 a2) (mkDb (Some ps) (Some vs) ix) = (Ok tt, d12)
    /\ (addVote plate2 v2 a2 ;; addVote plate1 v1 a1) (mkDb (Some ps) (Some vs) ix) = (Ok tt, d21)
    /\ (forall q, score_of q d12 = score_of q d21)
    /\ votes d12 = Some ws12 /\ votes d21 = Some ws21 /\ ws12 ≡ₚ ws21.
Proof.
  intros Hp1 Hp2 Hv1 Hv2 Hf1 Hf2 Hne.
  assert (forall i j p v t, i <> j -> i ∉ vote_ids vs ->
            i ∉ vote_ids (vs ++ [mkVote j p v t])) as Hfresh.
  { intros i j p v t Hij Hi. unfold vote_ids. rewrite fmap_app, elem_of_app. simpl.
    rewrite list_elem_of_singleton. tauto. }
  do 4 eexists. split_and!.
  - unfold bind. rewrite addVote_ok by done. rewrite addVote_ok; [done|done|done|].
    by apply Hfresh.
  - unfold bind. rewrite addVote_ok by done. rewrite addVote_ok; [done|done|done|].
    by apply Hfresh.
  - intros q. rewrite !score_of_tables, !row_score_scored.
    generalize (normalize plate1) (normalize plate2). intros p1 p2.
    repeat case_decide; subst; simpl; try done;
      repeat match goal with
             | |- context [row_score ?x ps] => destruct (row_score x ps)
             end; simpl; f_equal; lia.
  - done.
  - done.
  - rewrite <- !app_assoc. apply Permutation_app_head. simpl. apply Permutation_swap.
Qed.

(** A change of rows that keeps plate and score. *)
Lemma board_rows_fmap before n P `{!forall r, Decision (P r)} (g : PlateRow -> PlateRow) rows :
  (forall r, project (g r) = project r) ->
  (forall r, P (g r) <-> P r) ->
  project <$> take n (order_by before (filter P (g <$> rows)))
  = project <$> take n (order_by before (filter P rows)).
Proof.
  intros Hg HP.
  assert (forall r, p_score (g r) = p_score r) as Hs.
  { intros r. specialize (Hg r). unfold project in Hg. congruence. }
  assert (filter P (g <$> rows) = g <$> filter P rows) as ->.
  { induction rows as [|r rows IH]; [done|]. csimpl. rewrite !filter_cons, IH.
    destruct (decide (P (g r))) as [H1|H1], (decide (P r)) as [H2|H2]; try done.
    - exfalso. apply H2. by apply HP.
    - exfalso. apply H1. by apply HP. }
  assert (forall l, order_by before (g <$> l) = g <$> order_by before l) as ->.
  { unfold order_by. induction l as [|r l IH]; [done|]. csimpl.
    rewrite IH. generalize (foldr (insert_by before) [] l). intros k.
    induction k as [|x k IHk]; [done|]. csimpl. rewrite !Hs.
    destruct (before (p_score x) (p_score r)); [|done]. csimpl. by rewrite IHk. }
  rewrite <- fmap_take, <- list_fmap_compose. apply list_fmap_ext.
  intros i r _. apply Hg.
Qed.

Lemma board_rows_snoc before n P `{!forall r, Decision (P r)} (rows : list PlateRow) r :
  ~ P r ->
  take n (order_by before (filter P (rows ++ [r]))) = take n (order_by before (filter P rows)).
Proof.
  intros Hr. rewrite filter_app. rewrite (filter_cons_False _ r []) by done.
  by rewrite filter_nil, app_nil_r.
Qed.

(** The plates table after [+1] and then [-1] on plate [p]: the rows of [p]
    carry a new time, and a row of score 0 is added when [p] had none. *)
Lemma scored_plus_minus p a1 a2 ps :
  scored p (-1) a2 (scored p 1 a1 ps)
  = ((fun r => if bool_decide (p_plate_text r = p)
               then mkPlate (p_plate_text r) (p_score r) (now_update a2) else r) <$> ps)
    ++ (if bool_decide (p ∈ plate_keys ps) then [] else [mkPlate p 0 (now_update a2)]).
Proof.
  assert (forall t r, bump p (-1) (now_update a2) (bump p 1 t r)
            = if bool_decide (p_plate_text r = p)
              then mkPlate (p_plate_text r) (p_score r) (now_update a2) else r) as Hb.
  { intros t r. unfold bump. destruct (decide (p_plate_text r = p)) as [Hr|Hr].
    - rewrite (bool_decide_eq_true_2 (p_plate_text r = p) Hr). simpl.
      rewrite (bool_decide_eq_true_2 (p_plate_text r = p) Hr). f_equal. lia.
    - rewrite (bool_decide_eq_false_2 (p_plate_text r = p) Hr).
      by rewrite (bool_decide_eq_false_2 (p_plate_text r = p) Hr). }
  unfold scored at 1. unfold ensured.
  rewrite bool_decide_eq_true_2 by (apply plate_keys_scored; by left).
  unfold scored, ensured. case_bool_decide as Hin.
  - rewrite app_nil_r, <- list_fmap_compose. apply list_fmap_ext. intros i r _. apply Hb.
  - rewrite !fmap_app, <- !list_fmap_compose. f_equal.
    + apply list_fmap_ext. intros i r _. apply Hb.
    + simpl. rewrite Hb. simpl. by rewrite bool_decide_eq_true_2.
Qed.

(** X13. A vote of [+1] followed by a vote of [-1] on the same plate (new,
    different uuids) records two votes and gives the plate its score back
    (0 for a new plate): both leaderboards are the ones before the two
    votes. *)
Theorem plus_minus_cancels plate a1 a2 ps vs ix :
  normalize plate <> "" ->
  uuid a1 ∉ vote_ids vs -> uuid a2 ∉ vote_ids vs -> uuid a1 <> uuid a2 ->
  exists d',
    (addVote plate 1 a1 ;; addVote plate (-1) a2) (mkDb (Some ps) (Some vs) ix) = (Ok tt, d')
    /\ votes d' = Some (vs ++ [mkVote (uuid a1) (normalize plate) 1 (now_insert a1);
                               mkVote (uuid a2) (normalize plate) (-1) (now_insert a2)])
    /\ score_of (normalize plate) d'
       = Some (default 0 (score_of (normalize plate) (mkDb (Some ps) (Some vs) ix)))
    /\ (queryLeaderboard d').1 = (queryLeaderboard (mkDb (Some ps) (Some vs) ix)).1.
Proof.
  intros Hp Hf1 Hf2 Hne. eexists. split_and!.
  - unfold bind. rewrite addVote_ok; [|done|by left|done].
    rewrite addVote_ok; [done|done|by right|].
    unfold vote_ids. rewrite fmap_app, elem_of_app. simpl.
    rewrite list_elem_of_singleton. intros [?|?]; [done|congruence].
  - simpl. by rewrite <- app_assoc.
  - rewrite !score_of_tables, !row_score_scored_same. simpl. f_equal. lia.
  - erewrite (queryLeaderboard_rows (mkDb (Some (scored _ _ _ _)) _ _)) by reflexivity.
    rewrite (queryLeaderboard_rows (mkDb (Some ps) (Some vs) ix) ps eq_refl).
    simpl. rewrite scored_plus_minus. f_equal. f_equal.
    + destruct (bool_decide (normalize plate ∈ plate_keys ps)).
      * rewrite app_nil_r. apply board_rows_fmap.
        -- intros r. by case_bool_decide.
        -- intros r. by case_bool_decide.
      * rewrite board_rows_snoc by (simpl; lia). apply board_rows_fmap.
        -- intros r. by case_bool_decide.
        -- intros r. by case_bool_decide.
    + destruct (bool_decide (normalize plate ∈ plate_keys ps)).
      * rewrite app_nil_r. apply board_rows_fmap.
        -- intros r. by case_bool_decide.
        -- intros r. by case_bool_decide.
      * rewrite board_rows_snoc by (simpl; lia). apply board_rows_fmap.
        -- intros r. by case_bool_decide.
        -- intros r. by case_bool_decide.
Qed.

(** ** Handlers and persistence *)

(** X14. After a confirmed reset, on any page, a vote click on a non-blank
    input succeeds whatever the uuid: the plates table is the one row of the
    plate with the value as its score, the votes table the one vote, and the
    image under the database key is the image of that store. *)
Theorem vote_after_reset (E : Engine) (w : World) delta input a :
  is_delta delta -> normalize input <> "" ->
  vote_onclick delta input a (resetDbBtn_onclick true w).2
  = (Alert (normalize input),
     persistDb
       (mkWorld
          (mkDb (Some [mkPlate (normalize input) delta (now_update a)])
                (Some [mkVote (uuid a) (normalize input) delta (now_insert a)]) true)
          (idb (resetDbBtn_onclick true w).2))).
Proof.
  intros Hv Hp. rewrite resetDbBtn_onclick_confirmed. cbn [snd].
  unfold vote_onclick. destruct (Js.truthy (normalize input)) eqn:Ht.
  2:{ by apply JsFacts.truthy_false in Ht. }
  cbn [negb]. change (db (persistDb (mkWorld fresh_db (idb w))))
    with (mkDb (Some []) (Some []) true).
  rewrite addVote_ok; [|by rewrite normalize_idem|done|apply not_elem_of_nil].
  by rewrite normalize_idem, scored_nil.
Qed.

(** X15. A vote click that fails on a uuid collision shows the error and
    does not persist: the score in memory has moved, the image in IndexedDB
    is the one before the click, and opening a store from it gives the store
    before the click. *)
Theorem failed_vote_not_persisted (E : Engine) delta input a ps vs ix store :
  Faithful E ->
  store !! DB_KEY = Some (JUint8Array (export (mkDb (Some ps) (Some vs) ix))) ->
  is_delta delta -> normalize input <> "" -> uuid a ∈ vote_ids vs ->
  (vote_onclick delta input a (mkWorld (mkDb (Some ps) (Some vs) ix) store)).1
  = ConfirmMsg (UniqueFailed "votes.id")
  /\ idb (vote_onclick delta input a (mkWorld (mkDb (Some ps) (Some vs) ix) store)).2 = store
  /\ score_of (normalize input)
       (db (vote_onclick delta input a (mkWorld (mkDb (Some ps) (Some vs) ix) store)).2)
     = Some (default 0 (score_of (normalize input) (mkDb (Some ps) (Some vs) ix)) + delta)
  /\ initDb (idb (vote_onclick delta input a (mkWorld (mkDb (Some ps) (Some vs) ix) store)).2)
     = Ok (Ready (mkWorld (mkDb (Some ps) (Some vs) ix) store)).
Proof.
  intros HE Hk Hv Hp Hid. unfold vote_onclick.
  destruct (Js.truthy (normalize input)) eqn:Ht.
  2:{ by apply JsFacts.truthy_false in Ht. }
  cbn [negb db idb]. rewrite addVote_steps by (by rewrite normalize_idem). cbn zeta.
  apply is_delta_check in Hv as ->. cbn [negb].
  rewrite bool_decide_eq_true_2 by done. rewrite normalize_idem. cbn [fst snd db idb].
  split_and!; [done|done| |].
  - rewrite !score_of_tables. apply row_score_scored_same.
  - by apply (initDb_current (mkWorld (mkDb (Some ps) (Some vs) ix) store)).
Qed.

(** ** The local profile *)

Lemma setUser_getUser name w :
  getUser (setUser name w) = if Js.truthy name then Some (JString name) else None.
Proof. unfold getUser, setUser. simpl. by rewrite lookup_insert_eq. Qed.

(** X16. Signing in with a name that is blank after [trim] raises the alert
    and changes nothing.  Otherwise the main screen is shown and [getUser]
    returns the trimmed name; the store and the image under the database key
    are untouched, and after a reload of a reachable page the boot sequence
    shows the main screen over the same store. *)
Theorem sign_in (E : Engine) input (u : Ui) :
  (Js.trim input = "" -> enterBtn_onclick input u = (true, u))
  /\ (Js.trim input <> "" ->
      (enterBtn_onclick input u).1 = false
      /\ screen (enterBtn_onclick input u).2 = MainScreen
      /\ getUser (page (enterBtn_onclick input u).2) = Some (JString (Js.trim input))
      /\ db (page (enterBtn_onclick input u).2) = db (page u)
      /\ idb (page (enterBtn_onclick input u).2) !! DB_KEY = idb (page u) !! DB_KEY
      /\ (Faithful E -> page_reachable (page u) ->
          boot (idb (page (enterBtn_onclick input u).2))
          = Ok (Ready (enterBtn_onclick input u).2))).
Proof.
  unfold enterBtn_onclick. split.
  - by intros ->.
  - intros Hn. destruct (Js.truthy (Js.trim input)) eqn:Ht.
    2:{ by apply JsFacts.truthy_false in Ht. }
    cbn [negb fst snd page screen]. split_and!; try done.
    + by rewrite setUser_getUser, Ht.
    + simpl. by rewrite lookup_insert_ne by apply keys_differ.
    + intros HE Hr. unfold boot.
      rewrite (initDb_current (setUser (Js.trim input) (page u))); [|done|].
      * by rewrite setUser_getUser, Ht.
      * apply page_reachable_current; [done|]. by apply page_setUser.
Qed.

(** X17. Signing out shows the sign-in screen and [getUser] returns [null];
    the store and the image under the database key are untouched, and after
    a reload of a reachable page the boot sequence shows the sign-in screen
    over the same store, votes included. *)
Theorem sign_out (E : Engine) (u : Ui) :
  screen (signOutLocalBtn_onclick u) = AuthScreen
  /\ getUser (page (signOutLocalBtn_onclick u)) = None
  /\ db (page (signOutLocalBtn_onclick u)) = db (page u)
  /\ idb (page (signOutLocalBtn_onclick u)) !! DB_KEY = idb (page u) !! DB_KEY
  /\ (Faithful E -> page_reachable (page u) ->
      boot (idb (page (signOutLocalBtn_onclick u)))
      = Ok (Ready (signOutLocalBtn_onclick u))).
Proof.
  unfold signOutLocalBtn_onclick. cbn [page screen].
  assert (getUser (clearUser (page u)) = None) as Hg.
  { unfold getUser, clearUser. simpl. by rewrite lookup_delete_eq. }
  split_and!; try done.
  - simpl. by rewrite lookup_delete_ne by apply keys_differ.
  - intros HE Hr. unfold boot.
    rewrite (initDb_current (clearUser (page u))); [|done|].
    + by rewrite Hg.
    + apply page_reachable_current; [done|]. by apply page_clearUser.
Qed.

(** ** The OCR text *)

Module OcrFacts.
Import Js Ocr.

Lemma upperChar_alnum c :
  isAlnum c = true -> isUpper (upperChar c) || isDigit (upperChar c) = true.
Proof. destruct c as [[] [] [] [] [] [] [] []]; vm_compute; congruence. Qed.

Lemma plateLike_char c :
  isUpper c || isDigit c = true ->
  isWhiteSpace c = false /\ isAlnum c = true /\ upperChar c = c.
Proof. destruct c as [[] [] [] [] [] [] [] []]; vm_compute; intuition congruence. Qed.

Lemma isAlnum_upperChar c : isAlnum (upperChar c) = isAlnum c.
Proof. destruct c as [[] [] [] [] [] [] [] []]; reflexivity. Qed.

Lemma plateLike_clean s : plateLike (toUpperCase (remove (fun c => negb (isAlnum c)) s)) = true.
Proof.
  induction s as [|c s IH]; simpl; [done|].
  destruct (isAlnum c) eqn:Hc; simpl; [|done].
  by rewrite upperChar_alnum, IH.
Qed.

Lemma plateLike_toUpperCase s : plateLike s = true -> toUpperCase s = s.
Proof.
  induction s as [|c s IH]; simpl; [done|].
  intros [Hc Hs]%andb_prop. apply plateLike_char in Hc as (_ & _ & ->). by rewrite IH.
Qed.

Lemma plateLike_remove_space s : plateLike s = true -> remove isWhiteSpace s = s.
Proof.
  induction s as [|c s IH]; simpl; [done|].
  intros [Hc Hs]%andb_prop. apply plateLike_char in Hc as (-> & _ & _). by rewrite IH.
Qed.

Lemma plateLike_remove_other s :
  plateLike s = true -> remove (fun c => negb (isAlnum c)) s = s.
Proof.
  induction s as [|c s IH]; simpl; [done|].
  intros [Hc Hs]%andb_prop. apply plateLike_char in Hc as (_ & -> & _). simpl. by rewrite IH.
Qed.

Lemma plateLike_trimEnd s : plateLike s = true -> trimEnd s = s.
Proof.
  induction s as [|c s IH]; simpl; [done|].
  intros [Hc Hs]%andb_prop. apply plateLike_char in Hc as (-> & _ & _).
  rewrite IH by done. by destruct s.
Qed.

Lemma plateLike_normalize s : plateLike s = true -> normalize s = s.
Proof.
  intros Hs. unfold normalize, trim.
  assert (trimStart s = s) as ->.
  { destruct s as [|c s]; simpl; [done|]. simpl in Hs.
    apply andb_prop in Hs as [Hc _]. by apply plateLike_char in Hc as (-> & _ & _). }
  rewrite plateLike_trimEnd by done. by apply plateLike_toUpperCase.
Qed.

Lemma remove_toUpperCase cls s :
  (forall c, cls (upperChar c) = cls c) ->
  remove cls (toUpperCase s) = toUpperCase (remove cls s).
Proof.
  intros Hcls. induction s as [|c s IH]; simpl; [done|].
  rewrite Hcls. destruct (cls c); simpl; by rewrite IH.
Qed.

Lemma remove_space_trimStart s : remove isWhiteSpace (trimStart s) = remove isWhiteSpace s.
Proof. induction s as [|c s IH]; simpl; [done|]. by destruct (isWhiteSpace c) eqn:Hc; simpl; rewrite ?Hc. Qed.

Lemma remove_space_trimEnd s : remove isWhiteSpace (trimEnd s) = remove isWhiteSpace s.
Proof.
  induction s as [|c s IH]; simpl; [done|].
  destruct (trimEnd s) as [|c' s'] eqn:Hs.
  - destruct (isWhiteSpace c) eqn:Hc; simpl; rewrite ?Hc, <- IH; done.
  - change (remove isWhiteSpace (String c (String c' s')))
      with (if isWhiteSpace c then remove isWhiteSpace (String c' s')
            else String c (remove isWhiteSpace (String c' s'))).
    by rewrite IH.
Qed.

Lemma cleanPlateText_normalize s : cleanPlateText (Some (normalize s)) = cleanPlateText (Some s).
Proof.
  unfold cleanPlateText, normalize, trim. simpl.
  rewrite !remove_toUpperCase, JsFacts.toUpperCase_idem.
  - by rewrite remove_space_trimEnd, remove_space_trimStart.
  - intros c. by rewrite isAlnum_upperChar.
  - apply JsFacts.isWhiteSpace_upperChar.
Qed.

End OcrFacts.

(** X18. The cleaned OCR text holds capital letters and digits only; it is
    its own normal form, so the vote handlers take it as it is; and
    cleaning is idempotent. *)
Theorem cleanPlateText_plate (t : option string) :
  Ocr.plateLike (Ocr.cleanPlateText t) = true
  /\ normalize (Ocr.cleanPlateText t) = Ocr.cleanPlateText t
  /\ Ocr.cleanPlateText (Some (Ocr.cleanPlateText t)) = Ocr.cleanPlateText t.
Proof.
  assert (Ocr.plateLike (Ocr.cleanPlateText t) = true) as Hp
    by apply OcrFacts.plateLike_clean.
  split_and!; [done|by apply OcrFacts.plateLike_normalize|].
  unfold Ocr.cleanPlateText at 1. simpl.
  rewrite OcrFacts.plateLike_remove_space, OcrFacts.plateLike_remove_other by done.
  by apply OcrFacts.plateLike_toUpperCase.
Qed.

(** X19. On texts of ASCII characters cleaning is coarser than
    normalization: two such texts with the same normal form are cleaned to
    the same plate. *)
Theorem cleanPlateText_respects_normalize (s t : string) :
  Js.isAscii s = true -> Js.isAscii t = true ->
  normalize s = normalize t -> Ocr.cleanPlateText (Some s) = Ocr.cleanPlateText (Some t).
Proof.
  intros _ _ Hst.
  by rewrite <- (OcrFacts.cleanPlateText_normalize s), Hst, OcrFacts.cleanPlateText_normalize.
Qed.

(** X20. The shutter puts the OCR guess in the plate input.  When the guess
    is empty (nothing recognised, no OCR library, or an exception) the input
    is empty and a vote click on it is rejected with "Plate required",
    nothing changed.  Otherwise a vote click on the unedited input, on a
    reachable store and with a new uuid, records the vote under exactly the
    guess and persists. *)
Theorem shutter_then_vote (E : Engine) (c : Ocr.Capture) delta a (w : World) l :
  reachable (db w) l -> is_delta delta -> fresh_uuid a (db w) ->
  (Ocr.ocrPlateFromVideo c = "" ->
   Ocr.shutter_onclick c = ("", false)
   /\ vote_onclick delta (Ocr.shutter_onclick c).1 a w = (ConfirmMsg PlateRequired, w))
  /\ (Ocr.ocrPlateFromVideo c <> "" ->
      Ocr.shutter_onclick c = (Ocr.ocrPlateFromVideo c, true)
      /\ exists ps vs,
           vote_onclick delta (Ocr.shutter_onclick c).1 a w
           = (Alert (Ocr.ocrPlateFromVideo c),
              persistDb (mkWorld (mkDb (Some ps) (Some vs) true) (idb w)))
           /\ last vs = Some (mkVote (uuid a) (Ocr.ocrPlateFromVideo c) delta (now_insert a))).
Proof.
  intros Hr Hv Hf.
  assert (normalize (Ocr.ocrPlateFromVideo c) = Ocr.ocrPlateFromVideo c) as Hn.
  { destruct c; simpl; [| |done];
      apply OcrFacts.plateLike_normalize, OcrFacts.plateLike_clean. }
  unfold Ocr.shutter_onclick. split.
  - intros ->. simpl. done.
  - intros Hg. destruct (Js.truthy (Ocr.ocrPlateFromVideo c)) eqn:Ht.
    2:{ by apply JsFacts.truthy_false in Ht. }
    split; [done|]. cbn [fst].
    destruct w as [d store]. simpl in *.
    apply reachable_consistent in Hr as Hc. destruct Hc as [ps vs Hk Hi Hd Hs Hrows].
    unfold fresh_uuid, ids_of in Hf. simpl in Hf.
    unfold vote_onclick. rewrite Hn, Ht. cbn [negb db idb].
    rewrite addVote_ok; [|by rewrite Hn|done|done]. rewrite Hn.
    do 2 eexists. split; [done|]. by rewrite last_snoc.
Qed.

(** ** uuid() and nowIso() *)

Module UuidFacts.
Import Uuid.

Ltac nibble x :=
  let H := fresh in
  assert (x = 0 \/ x = 1 \/ x = 2 \/ x = 3 \/ x = 4 \/ x = 5 \/ x = 6 \/ x = 7 \/ x = 8
          \/ x = 9 \/ x = 10 \/ x = 11 \/ x = 12 \/ x = 13 \/ x = 14 \/ x = 15) as H by lia;
  repeat (destruct H as [H|H]; [subst x|]); [..|subst x].

Lemma land_15 r : 0 <= Z.land r 15 < 16.
Proof. change 15 with (Z.ones 4). rewrite Z.land_ones by lia. apply Z.mod_pos_bound. lia. Qed.

Lemma land_3 r : 0 <= Z.land r 3 < 4.
Proof. change 3 with (Z.ones 2). rewrite Z.land_ones by lia. apply Z.mod_pos_bound. lia. Qed.

Lemma class_cases c : matches018 c = true -> c = "0"%char \/ c = "1"%char \/ c = "8"%char.
Proof. destruct c as [[] [] [] [] [] [] [] []]; simpl; intros; (discriminate || auto). Qed.

Lemma replacement_0 r : replacement "0" r = toString16 (Z.land r 15).
Proof. unfold replacement. change (toNumber "0") with 0. by rewrite Z.lxor_0_l. Qed.

Lemma replacement_1 r : replacement "1" r = toString16 (Z.lxor 1 (Z.land r 15)).
Proof. reflexivity. Qed.

Lemma replacement_8 r : replacement "8" r = toString16 (Z.lxor 8 (Z.land r 3)).
Proof. reflexivity. Qed.

(** The callback returns one character, of the class of its place. *)
Lemma replacement_class c r :
  matches018 c = true -> exists h, replacement c r = String h "" /\ class_of c h = true.
Proof.
  intros [->|[->| ->]]%class_cases.
  - rewrite replacement_0. pose proof (land_15 r) as Hx.
    set (x := Z.land r 15) in *. clearbody x. nibble x; by eexists.
  - rewrite replacement_1. pose proof (land_15 r) as Hx.
    set (x := Z.land r 15) in *. clearbody x. nibble x; by eexists.
  - rewrite replacement_8. pose proof (land_3 r) as Hx.
    set (x := Z.land r 3) in *. clearbody x.
    assert (x = 0 \/ x = 1 \/ x = 2 \/ x = 3) as [->|[->|[->| ->]]] by lia; by eexists.
Qed.

(** The callback tells apart the bits it keeps. *)
Lemma replacement_inj c r r' :
  matches018 c = true -> replacement c r = replacement c r' ->
  Z.land r (mask_of c) = Z.land r' (mask_of c).
Proof.
  intros [->|[->| ->]]%class_cases.
  - rewrite !replacement_0. change (mask_of "0") with 15.
    pose proof (land_15 r) as Hx. pose proof (land_15 r') as Hy.
    set (x := Z.land r 15) in *. set (y := Z.land r' 15) in *. clearbody x y.
    nibble x; nibble y; intros H; vm_compute in H; congruence.
  - rewrite !replacement_1. change (mask_of "1") with 15.
    pose proof (land_15 r) as Hx. pose proof (land_15 r') as Hy.
    set (x := Z.land r 15) in *. set (y := Z.land r' 15) in *. clearbody x y.
    nibble x; nibble y; intros H; vm_compute in H; congruence.
  - rewrite !replacement_8. change (mask_of "8") with 3.
    pose proof (land_3 r) as Hx. pose proof (land_3 r') as Hy.
    set (x := Z.land r 3) in *. set (y := Z.land r' 3) in *. clearbody x y.
    assert (x = 0 \/ x = 1 \/ x = 2 \/ x = 3) as [->|[->|[->| ->]]] by lia;
      assert (y = 0 \/ y = 1 \/ y = 2 \/ y = 3) as [->|[->|[->| ->]]] by lia;
      intros H; vm_compute in H; congruence.
Qed.

Lemma replace018_shape s rnd k :
  matches (class_of <$> list_ascii_of_string s) (replace018 s rnd k) = true.
Proof.
  revert k. induction s as [|c s IH]; intros k; csimpl; [done|].
  destruct (matches018 c) eqn:Hc.
  - destruct (replacement_class c (rnd k) Hc) as (h & -> & Hh). csimpl.
    change ("" +:+ replace018 s rnd (S k)) with (replace018 s rnd (S k)).
    by rewrite Hh, IH.
  - csimpl. rewrite IH. unfold class_of. rewrite Hc. unfold exactly.
    by rewrite Ascii.eqb_refl.
Qed.

Lemma replace018_inj s rnd rnd' k :
  replace018 s rnd k = replace018 s rnd' k ->
  forall i m, slots s !! i = Some m ->
              Z.land (rnd (k + i)%nat) m = Z.land (rnd' (k + i)%nat) m.
Proof.
  revert k. induction s as [|c s IH]; intros k; simpl; [done|].
  destruct (matches018 c) eqn:Hc.
  - destruct (replacement_class c (rnd k) Hc) as (h & Hr & _).
    destruct (replacement_class c (rnd' k) Hc) as (h' & Hr' & _).
    rewrite Hr, Hr'. simpl. intros [= Hh Hrest] [|i] m Hm; simpl in Hm.
    + injection Hm as <-. rewrite Nat.add_0_r. apply replacement_inj; [done|].
      by rewrite Hr, Hr', Hh.
    + replace (k + S i)%nat with (S k + i)%nat by lia. by apply (IH (S k)).
  - intros [= Hrest]. by apply IH.
Qed.

End UuidFacts.

(** X21. Whatever the random bytes, [uuid()] returns the text of a version 4
    UUID: 36 characters, lower-case hexadecimal digits in groups of 8, 4, 4,
    4 and 12 separated by hyphens, the third group beginning with 4 and the
    fourth with 8, 9, a or b. *)
Theorem uuid_v4 (rnd : nat -> Z) :
  Uuid.matches Uuid.v4_shape (Uuid.uuid rnd) = true /\ String.length (Uuid.uuid rnd) = 36%nat.
Proof.
  assert (Uuid.matches Uuid.v4_shape (Uuid.uuid rnd) = true) as Hm
    by apply (UuidFacts.replace018_shape Uuid.template rnd 0).
  split; [done|].
  assert (forall sh s, Uuid.matches sh s = true -> String.length s = length sh) as Hlen.
  { induction sh as [|f sh IH]; intros [|c s]; simpl; try done.
    intros [_ Hs]%andb_prop. f_equal. by apply IH. }
  by rewrite (Hlen _ _ Hm).
Qed.

(** X22. [uuid()] keeps apart the random bits it uses: two calls return the
    same text only if their random bytes agree, call by call, on the four
    low bits (the two low bits for the sixteenth call, which gives the
    variant digit). *)
Theorem uuid_injective (rnd rnd' : nat -> Z) (k : nat) :
  Uuid.uuid rnd = Uuid.uuid rnd' -> (k < 31)%nat ->
  Z.land (rnd k) 3 = Z.land (rnd' k) 3
  /\ (k <> 15%nat -> Z.land (rnd k) 15 = Z.land (rnd' k) 15).
Proof.
  unfold Uuid.uuid. intros Heq Hk.
  pose proof (UuidFacts.replace018_inj Uuid.template rnd rnd' 0 Heq k) as H.
  change (0 + k)%nat with k in H.
  assert (forall x y, Z.land x 15 = Z.land y 15 -> Z.land x 3 = Z.land y 3) as Hlow.
  { intros x y Hxy. change 3 with (Z.land 15 3). by rewrite !Z.land_assoc, Hxy. }
  assert (Uuid.slots Uuid.template !! k = Some (if decide (k = 15%nat) then 3 else 15)) as Hm.
  { clear H Heq. do 31 (destruct k as [|k]; [reflexivity|]). lia. }
  apply H in Hm. destruct (decide (k = 15%nat)) as [->|Hne].
  - split; [done|]. by intros [].
  - split; [by apply Hlow|done].
Qed.

Module ClockFacts.
Import Clock.

#[local] Arguments String.append !_ _ / : simpl nomatch.

Lemma append_assoc (s t u : string) : (s +:+ t) +:+ u = s +:+ t +:+ u.
Proof. induction s as [|c s IH]; simpl; [done|]. by rewrite IH. Qed.

Lemma append_nil_r (s : string) : s +:+ "" = s.
Proof. induction s as [|c s IH]; simpl; [done|]. by rewrite IH. Qed.

Lemma lacks_app c s t : lacks c (s +:+ t) = lacks c s && lacks c t.
Proof. induction s as [|x s IH]; simpl; [done|]. rewrite IH. by destruct (Ascii.eqb x c). Qed.

(** The first occurrence is the one that is replaced. *)
Lemma replace_first c rep s t :
  lacks c s = true -> replace c rep (s +:+ String c t) = s +:+ rep +:+ t.
Proof.
  induction s as [|x s IH]; simpl.
  - intros _. by rewrite Ascii.eqb_refl.
  - intros [Hx Hs]%andb_prop. apply negb_true_iff in Hx. rewrite Hx. by rewrite IH.
Qed.

End ClockFacts.

(** X23. On the text that [toISOString] returns, a date and a time without
    the letters T and Z, joined by T and closed by Z, [nowIso()] returns the
    date, a space and the time: the [T] becomes a space and the [Z] goes. *)
Theorem nowIso_format (date time : string) :
  Clock.lacks "T" date = true -> Clock.lacks "Z" date = true -> Clock.lacks "Z" time = true ->
  Clock.nowIso (date +:+ "T" +:+ time +:+ "Z") = date +:+ " " +:+ time.
Proof.
  intros HT HZd HZt. unfold Clock.nowIso.
  change (date +:+ "T" +:+ time +:+ "Z") with (date +:+ String "T" (time +:+ "Z")).
  rewrite ClockFacts.replace_first by done.
  change (date +:+ " " +:+ time +:+ "Z") with (date +:+ String " " (time +:+ String "Z" "")).
  change (String " " (time +:+ String "Z" "")) with (String " " time +:+ String "Z" "").
  rewrite <- ClockFacts.append_assoc, ClockFacts.replace_first.
  - by rewrite ClockFacts.append_nil_r.
  - rewrite ClockFacts.lacks_app, HZd. simpl. by rewrite HZt.
Qed.

(** ** The further properties at concrete inputs *)

Lemma leaderboard_entries_witness :
  exists b,
    queryLeaderboard six_db = (Ok b, six_db)
    /\ (length (best b) <= 50)%nat
    /\ (forall p s, (p, s) ∈ best b ->
          0 < s /\ exists r, r ∈ six_rows /\ UTF8ToString (p_plate_text r) = p /\ p_score r = s).
Proof.
  destruct (leaderboard_entries six_db six_rows) as (b & H1 & H2 & _ & H3 & _).
  - reflexivity.
  - unfold six_rows. repeat (apply List.Forall_cons; [by vm_compute|]). apply List.Forall_nil.
  - exists b. by split_and!.
Defined.

Lemma leaderboard_sorted_witness :
  descending [("C", 3); ("F", 3); ("A", 1)] /\ ascending [("B", -2); ("E", -1)].
Proof.
  apply (leaderboard_sorted six_db six_rows
           (mkBoard [("C", 3); ("F", 3); ("A", 1)] [("B", -2); ("E", -1)])).
  - reflexivity.
  - reflexivity.
Defined.

Lemma leaderboard_complete_witness :
  [("C", 3); ("F", 3); ("A", 1)] ≡ₚ [("A", 1); ("C", 3); ("F", 3)]
  /\ [("B", -2); ("E", -1)] ≡ₚ [("B", -2); ("E", -1)].
Proof.
  destruct (leaderboard_complete six_db six_rows
              (mkBoard [("C", 3); ("F", 3); ("A", 1)] [("B", -2); ("E", -1)]))
    as [H1 H2].
  - reflexivity.
  - unfold six_rows. repeat (apply List.Forall_cons; [by vm_compute|]). apply List.Forall_nil.
  - reflexivity.
  - split; [apply H1|apply H2]; vm_compute; lia.
Defined.

Lemma leaderboard_cut_witness :
  exists b,
    (queryLeaderboard crowded_db).1 = Ok b
    /\ length (best b) = 50%nat
    /\ forall e, e ∈ best b -> 1 <= e.2.
Proof.
  destruct (queryLeaderboard crowded_db) as [[b|e] d'] eqn:Hq; [|by vm_compute in Hq].
  exists b. split; [done|].
  destruct (leaderboard_cut crowded_db crowded_rows b) as [H _].
  - reflexivity.
  - by rewrite Hq.
  - apply (H (mkPlate "!" 1 "t")).
    + by_computation.
    + simpl. lia.
    + vm_compute in Hq. injection Hq as <- _. by_computation.
Defined.

Lemma leaderboard_plates_distinct_witness :
  exists b, (queryLeaderboard one_vote_db).1 = Ok b /\ NoDup ((best b ++ worst b).*1).
Proof.
  apply (leaderboard_plates_distinct one_vote_db [("ABC123", 1)]).
  - apply one_vote_reachable.
  - intros r Hr. vm_compute in Hr. apply list_elem_of_singleton in Hr as ->. reflexivity.
Defined.

Lemma reachable_schema_witness :
  exists ps vs,
    one_vote_db = mkDb (Some ps) (Some vs) true
    /\ NoDup (plate_keys ps) /\ NoDup (vote_ids vs)
    /\ Forall (fun r => normalize (p_plate_text r) = p_plate_text r /\ p_plate_text r <> "") ps
    /\ Forall (fun r => is_delta (v_value r) /\ v_plate_text r ∈ plate_keys ps) vs.
Proof.
  apply (reachable_schema one_vote_db [("ABC123", 1)]), one_vote_reachable.
Defined.

Lemma reachable_score_bound_witness :
  mkPlate "ABC123" 1 "t1" ∈ default [] (plates one_vote_db)
  /\ Z.abs (p_score (mkPlate "ABC123" 1 "t1")) <= Z.of_nat (vote_count one_vote_db).
Proof.
  assert (mkPlate "ABC123" 1 "t1" ∈ default [] (plates one_vote_db)) as Hin
    by by_computation.
  split; [done|].
  apply (reachable_score_bound one_vote_db [("ABC123", 1)]); [apply one_vote_reachable|done].
Defined.

Lemma addVote_appends_witness :
  exists ps',
    addVote "xyz999" (-1) (amb "t2" "id2")
      (mkDb (Some [mkPlate "ABC123" 1 "t1"]) (Some one_vote) true)
    = (Ok tt, mkDb (Some ps') (Some (one_vote ++ [mkVote "id2" "XYZ999" (-1) "t2"])) true)
    /\ plate_keys ps' = ["ABC123"; "XYZ999"]
    /\ mkPlate "ABC123" 1 "t1" ∈ ps'.
Proof.
  destruct (addVote_appends "xyz999" (-1) (amb "t2" "id2")
              [mkPlate "ABC123" 1 "t1"] one_vote true) as (ps' & H1 & H2 & H3).
  - discriminate.
  - by right.
  - by_computation.
  - exists ps'. split_and!; [exact H1|exact H2|].
    apply H3; [by_computation|discriminate].
Defined.

Lemma addVote_uuid_collision_witness :
  (addVote "xyz999" (-1) (amb "t2" "id1")
     (mkDb (Some [mkPlate "ABC123" 1 "t1"]) (Some one_vote) true)).1
  = Throw (UniqueFailed "votes.id")
  /\ score_of "XYZ999"
       (addVote "xyz999" (-1) (amb "t2" "id1")
          (mkDb (Some [mkPlate "ABC123" 1 "t1"]) (Some one_vote) true)).2
     = Some (-1).
Proof.
  destruct (addVote_uuid_collision "xyz999" (-1) (amb "t2" "id1")
              [mkPlate "ABC123" 1 "t1"] one_vote true) as (H1 & _ & H3).
  - discriminate.
  - by right.
  - by_computation.
  - split; [exact H1|exact H3].
Defined.

Lemma no_plates_table_witness :
  addVote "abc123" 1 (amb "t1" "id1") new_Database
  = (Throw (NoSuchTable "plates"), new_Database)
  /\ queryLeaderboard new_Database = (Throw (NoSuchTable "plates"), new_Database).
Proof.
  apply (no_plates_table "abc123" 1 (amb "t1" "id1") new_Database).
  - reflexivity.
  - discriminate.
Defined.

Lemma ensurePlateRow_idempotent_witness :
  (ensurePlateRow "XYZ999" (amb "t2" "id2") six_db).1 = Ok tt
  /\ score_of "XYZ999" (ensurePlateRow "XYZ999" (amb "t2" "id2") six_db).2 = Some 0
  /\ score_of "C" (ensurePlateRow "XYZ999" (amb "t2" "id2") six_db).2 = Some 3.
Proof.
  destruct (ensurePlateRow_idempotent "XYZ999" (amb "t2" "id2") (amb "t3" "id3")) as [_ H].
  destruct (H six_db six_rows) as (H1 & H2 & H3); [reflexivity|].
  split_and!; [exact H1|exact H2|]. rewrite H3 by discriminate. reflexivity.
Defined.

Lemma votes_commute_witness :
  exists d12 d21 ws12 ws21,
    (addVote "abc123" 1 (amb "t1" "id1") ;; addVote "xyz999" (-1) (amb "t2" "id2")) fresh_db
    = (Ok tt, d12)
    /\ (addVote "xyz999" (-1) (amb "t2" "id2") ;; addVote "abc123" 1 (amb "t1" "id1")) fresh_db
       = (Ok tt, d21)
    /\ (forall q, score_of q d12 = score_of q d21)
    /\ votes d12 = Some ws12 /\ votes d21 = Some ws21 /\ ws12 ≡ₚ ws21.
Proof.
  apply (votes_commute "abc123" 1 (amb "t1" "id1") "xyz999" (-1) (amb "t2" "id2") [] [] true).
  - discriminate.
  - discriminate.
  - by left.
  - by right.
  - apply not_elem_of_nil.
  - apply not_elem_of_nil.
  - discriminate.
Defined.

Lemma plus_minus_cancels_witness :
  exists d',
    (addVote "C" 1 (amb "t1" "id1") ;; addVote "C" (-1) (amb "t2" "id2")) six_db = (Ok tt, d')
    /\ score_of "C" d' = Some 3
    /\ (queryLeaderboard d').1 = (queryLeaderboard six_db).1.
Proof.
  destruct (plus_minus_cancels "C" (amb "t1" "id1") (amb "t2" "id2") six_rows [] true)
    as (d' & H1 & _ & H3 & H4).
  - discriminate.
  - apply not_elem_of_nil.
  - apply not_elem_of_nil.
  - discriminate.
  - exists d'. split_and!; [exact H1|exact H3|exact H4].
Defined.

Lemma vote_after_reset_witness :
  (vote_onclick (E := RefEngine.engine) (-1) " xyz999 " (amb "t2" "id1")
     (resetDbBtn_onclick (E := RefEngine.engine) true voted_page).2).1
  = Alert "XYZ999"
  /\ plates (db (vote_onclick (E := RefEngine.engine) (-1) " xyz999 " (amb "t2" "id1")
                   (resetDbBtn_onclick (E := RefEngine.engine) true voted_page).2).2)
     = Some [mkPlate "XYZ999" (-1) "t2"].
Proof.
  rewrite (vote_after_reset RefEngine.engine voted_page (-1) " xyz999 " (amb "t2" "id1")).
  - split; reflexivity.
  - by right.
  - discriminate.
Defined.

Lemma failed_vote_not_persisted_witness :
  (vote_onclick (E := RefEngine.engine) 1 "abc123" (amb "t2" "id1") current_page).1
  = ConfirmMsg (UniqueFailed "votes.id")
  /\ score_of "ABC123"
       (db (vote_onclick (E := RefEngine.engine) 1 "abc123" (amb "t2" "id1") current_page).2)
     = Some 2
  /\ initDb (E := RefEngine.engine)
       (idb (vote_onclick (E := RefEngine.engine) 1 "abc123" (amb "t2" "id1") current_page).2)
     = Ok (Ready current_page).
Proof.
  destruct (failed_vote_not_persisted RefEngine.engine 1 "abc123" (amb "t2" "id1")
              [mkPlate "ABC123" 1 "t1"] one_vote true (idb current_page))
    as (H1 & _ & H3 & H4).
  - apply RefEngineFacts.faithful.
  - reflexivity.
  - by left.
  - discriminate.
  - by_computation.
  - split_and!; [exact H1|exact H3|exact H4].
Defined.

Lemma sign_in_witness :
  enterBtn_onclick "   " (mkUi voted_page AuthScreen) = (true, mkUi voted_page AuthScreen)
  /\ getUser (page (enterBtn_onclick " kim " (mkUi voted_page AuthScreen)).2)
     = Some (JString "kim")
  /\ boot (E := RefEngine.engine)
       (idb (page (enterBtn_onclick " kim " (mkUi voted_page AuthScreen)).2))
     = Ok (Ready (enterBtn_onclick " kim " (mkUi voted_page AuthScreen)).2).
Proof.
  split_and!.
  - destruct (sign_in RefEngine.engine "   " (mkUi voted_page AuthScreen)) as [H _].
    apply H. reflexivity.
  - destruct (sign_in RefEngine.engine " kim " (mkUi voted_page AuthScreen)) as [_ H].
    destruct H as (_ & _ & H & _); [discriminate|]. exact H.
  - destruct (sign_in RefEngine.engine " kim " (mkUi voted_page AuthScreen)) as [_ H].
    destruct H as (_ & _ & _ & _ & _ & H); [discriminate|].
    apply H; [apply RefEngineFacts.faithful|apply voted_page_reachable].
Defined.

Lemma sign_out_witness :
  getUser voted_page = Some (JString "sam")
  /\ getUser (page (signOutLocalBtn_onclick (mkUi voted_page MainScreen))) = None
  /\ boot (E := RefEngine.engine)
       (idb (page (signOutLocalBtn_onclick (mkUi voted_page MainScreen))))
     = Ok (Ready (mkUi (clearUser voted_page) AuthScreen)).
Proof.
  destruct (sign_out RefEngine.engine (mkUi voted_page MainScreen)) as (_ & H2 & _ & _ & H5).
  split_and!; [reflexivity|exact H2|].
  apply H5; [apply RefEngineFacts.faithful|apply voted_page_reachable].
Defined.

Lemma cleanPlateText_respects_normalize_witness :
  normalize " ab-c 123 " = normalize "AB-C 123"
  /\ Ocr.cleanPlateText (Some " ab-c 123 ") = Ocr.cleanPlateText (Some "AB-C 123").
Proof.
  split; [reflexivity|].
  apply (cleanPlateText_respects_normalize " ab-c 123 " "AB-C 123"); reflexivity.
Defined.

Lemma shutter_then_vote_witness :
  Ocr.shutter_onclick (Ocr.Recognized (Some "xy-z 999")) = ("XYZ999", true)
  /\ (exists ps vs,
        vote_onclick (E := RefEngine.engine) (-1)
          (Ocr.shutter_onclick (Ocr.Recognized (Some "xy-z 999"))).1 (amb "t2" "id2") voted_page
        = (Alert "XYZ999",
           persistDb (E := RefEngine.engine)
             (mkWorld (mkDb (Some ps) (Some vs) true) (idb voted_page)))
        /\ last vs = Some (mkVote "id2" "XYZ999" (-1) "t2"))
  /\ vote_onclick (E := RefEngine.engine) (-1) (Ocr.shutter_onclick Ocr.Failed).1
       (amb "t2" "id2") voted_page
     = (ConfirmMsg PlateRequired, voted_page).
Proof.
  assert (reachable (db voted_page) [("ABC123", 1)]) as Hr by apply one_vote_reachable.
  assert (fresh_uuid (amb "t2" "id2") (db voted_page)) as Hf
    by (unfold fresh_uuid; by_computation).
  destruct (shutter_then_vote RefEngine.engine (Ocr.Recognized (Some "xy-z 999")) (-1)
              (amb "t2" "id2") voted_page [("ABC123", 1)] Hr (or_intror eq_refl) Hf)
    as [_ H].
  destruct H as [H1 H2]; [discriminate|].
  destruct (shutter_then_vote RefEngine.engine Ocr.Failed (-1)
              (amb "t2" "id2") voted_page [("ABC123", 1)] Hr (or_intror eq_refl) Hf)
    as [H' _].
  destruct H' as [_ H3]; [reflexivity|].
  split_and!; [exact H1|exact H2|exact H3].
Defined.

Lemma uuid_injective_witness :
  Uuid.uuid (fun k => Z.of_nat k) = "11234567-99ab-4cde-b012-2456789abcde"
  /\ Z.land (Z.of_nat 15) 3 = Z.land (Z.of_nat 15 + 16) 3.
Proof.
  split; [by vm_compute|].
  apply (uuid_injective (fun k => Z.of_nat k) (fun k => Z.of_nat k + 16) 15).
  - by vm_compute.
  - lia.
Defined.

Lemma nowIso_format_witness :
  Clock.nowIso "2025-07-04T09:30:15.250Z" = "2025-07-04 09:30:15.250".
Proof.
  apply (nowIso_format "2025-07-04" "09:30:15.250"); reflexivity.
Defined.

(** X24. On every reachable page the flush of the visibility and unload
    handlers changes nothing: each handler has already written the image of
    the store it left. *)
Theorem flush_is_noop (E : Engine) (w : World) :
  Faithful E -> page_reachable w -> persistDb w = w.
Proof.
  intros HE Hw. destruct (page_reachable_current w HE Hw) as [_ Hk].
  destruct w as [d store]. unfold persistDb. simpl in *. f_equal.
  by apply insert_id.
Qed.

(** X25. A vote click, whatever its outcome, changes no key of IndexedDB
    other than the database key: the profile stays as it was. *)
Theorem vote_keeps_profile (E : Engine) delta input a (w : World) :
  (forall k, k <> DB_KEY -> idb (vote_onclick delta input a w).2 !! k = idb w !! k)
  /\ getUser (vote_onclick delta input a w).2 = getUser w.
Proof.
  assert (forall k, k <> DB_KEY -> idb (vote_onclick delta input a w).2 !! k = idb w !! k) as Hk.
  { intros k Hne. unfold vote_onclick.
    destruct (negb (Js.truthy (normalize input))); [done|].
    destruct (addVote (normalize input) delta a (db w)) as [[[]|e] d']; simpl; [|done].
    by rewrite lookup_insert_ne. }
  split; [done|]. unfold getUser. by rewrite (Hk USER_KEY keys_differ).
Qed.

Lemma flush_is_noop_witness : persistDb (E := RefEngine.engine) voted_page = voted_page.
Proof.
  apply (flush_is_noop RefEngine.engine voted_page);
    [apply RefEngineFacts.faithful|apply voted_page_reachable].
Defined.

Lemma vote_keeps_profile_witness :
  idb (vote_onclick (E := RefEngine.engine) (-1) "xyz999" (amb "t2" "id2") voted_page).2
    !! USER_KEY = Some (JString "sam")
  /\ getUser (vote_onclick (E := RefEngine.engine) (-1) "xyz999" (amb "t2" "id2") voted_page).2
     = Some (JString "sam").
Proof.
  destruct (vote_keeps_profile RefEngine.engine (-1) "xyz999" (amb "t2" "id2") voted_page)
    as [H1 H2].
  split.
  - rewrite (H1 USER_KEY) by discriminate. reflexivity.
  - rewrite H2. reflexivity.
Defined.
